(** * Decoder-input preparation of the captioning transformer models

    A shallow embedding of [captioning/models/transformer_model.py]:
    the four model variants ([TransformerModel], [M2TransformerModel],
    [EventCondTransformerModel], [KeywordCondTransformerModel]), their
    constructors, [seq_forward], [prepare_decoder_input],
    [prepare_beamsearch_decoder_input], and [EventEncoder.forward].

    Conventions of the embedding.
    - Python dictionaries with string keys are [gmap string value].
    - Tensors are nested lists; a torch tensor is rectangular, and the
      nested view does not record the trailing dimensions of a tensor with
      an empty leading dimension.
    - Python exceptions are values of [error]; a call is a function of a
      state (the beam-state dictionary it mutates, the random source it
      draws from, the log of decoder invocations) returning a [result] and
      the state it leaves behind, also when it raises.
    - Entries of a dictionary are dynamically typed.  A projection at a type
      other than the one of the data model (an integer timestep, a tensor
      of token ids, ...) is a [TypeError] in the embedding.
    - Floating-point numbers are exact rationals, with one extra element
      [NonFin] standing for the non-finite results (infinities and NaN) of a
      division by zero; rounding and overflow are not modelled. *)

From Stdlib Require Import ZArith QArith List String.
From stdpp Require Import base option gmap strings list fin_maps.
Import ListNotations.

Close Scope Q_scope.
Local Open Scope string_scope.
Local Open Scope Z_scope.
Set Warnings "-register-all".

(** ** Exceptions and results *)

Inductive error : Type :=
| KeyError (k : string)
| IndexError
| TypeError
| AttributeError
| RuntimeError
| AssertionError.

Inductive result (A : Type) : Type :=
| Ok (a : A)
| Err (e : error).
Arguments Ok {A} a.
Arguments Err {A} e.

Definition is_ok {A} (r : result A) : bool :=
  match r with Ok _ => true | Err _ => false end.

Definition result_bind {A B} (r : result A) (f : A -> result B) : result B :=
  match r with Ok a => f a | Err e => Err e end.

#[global] Instance result_ret : MRet result := fun _ a => Ok a.
#[global] Instance result_mbind : MBind result :=
  fun _ _ f r => result_bind r f.
#[global] Instance result_fmap : FMap result :=
  fun _ _ f r => result_bind r (fun a => Ok (f a)).

(** A computation over a mutable store [S]: the store survives an
    exception, as a mutated Python object does. *)
Definition M (S A : Type) : Type := S -> result A * S.

Definition M_ret {S A} (a : A) : M S A := fun s => (Ok a, s).
Definition M_bind {S A B} (m : M S A) (f : A -> M S B) : M S B :=
  fun s => match m s with
           | (Ok a, s') => f a s'
           | (Err e, s') => (Err e, s')
           end.
#[global] Instance M_mret S : MRet (M S) := fun _ a => M_ret a.
#[global] Instance M_mbind S : MBind (M S) := fun _ _ f m => M_bind m f.

(** A pure, possibly failing, step inside a stateful computation. *)
Definition lift {S A} (r : result A) : M S A := fun s => (r, s).

(** ** Tensors *)

Inductive tensor (A : Type) : Type :=
| Scalar (a : A)
| Stack (xs : list (tensor A)).
Arguments Scalar {A} a.
Arguments Stack {A} xs.

Fixpoint tensor_map {A B} (f : A -> B) (x : tensor A) : tensor B :=
  match x with
  | Scalar a => Scalar (f a)
  | Stack xs => Stack (List.map (tensor_map f) xs)
  end.

(** [traverse f l]: apply [f] left to right, stop at the first exception. *)
Fixpoint traverse {A B} (f : A -> result B) (l : list A) : result (list B) :=
  match l with
  | [] => Ok []
  | a :: l' =>
      match f a with
      | Ok b => match traverse f l' with
                | Ok bs => Ok (b :: bs)
                | Err e => Err e
                end
      | Err e => Err e
      end
  end.

(** [l[:stop]] for a Python sequence: a negative [stop] counts from the
    end, and an out-of-range bound is clamped. *)
Definition py_slice_to {A} (stop : Z) (l : list A) : list A :=
  if 0 <=? stop then firstn (Z.to_nat stop) l
  else firstn (length l - Z.to_nat (- stop)) l.

(** [[x] * n] for a Python list: empty when [n] is not positive. *)
Definition py_list_repeat {A} (x : A) (n : Z) : list A :=
  replicate (Z.to_nat n) x.

(** [x.size(0)] *)
Definition size0 {A} (x : tensor A) : result Z :=
  match x with
  | Scalar _ => Err IndexError
  | Stack xs => Ok (Z.of_nat (length xs))
  end.

(** [x[i]]: indexing along the first dimension, negative [i] from the end. *)
Definition tensor_index {A} (x : tensor A) (i : Z) : result (tensor A) :=
  match x with
  | Scalar _ => Err IndexError
  | Stack xs =>
      let n := Z.of_nat (length xs) in
      let j := if i <? 0 then i + n else i in
      if (0 <=? j) && (j <? n) then
        match xs !! Z.to_nat j with
        | Some y => Ok y
        | None => Err IndexError
        end
      else Err IndexError
  end.

(** [x[:, :stop]]: needs two dimensions at least. *)
Definition slice_row {A} (stop : Z) (r : tensor A) : result (tensor A) :=
  match r with
  | Scalar _ => Err IndexError
  | Stack cs => Ok (Stack (py_slice_to stop cs))
  end.

Definition slice_cols {A} (stop : Z) (x : tensor A) : result (tensor A) :=
  match x with
  | Scalar _ => Err IndexError
  | Stack rows =>
      match traverse (slice_row stop) rows with
      | Ok rows' => Ok (Stack rows')
      | Err e => Err e
      end
  end.

Definition is_scalar {A} (x : tensor A) : bool :=
  match x with Scalar _ => true | Stack _ => false end.

(** [torch.cat((a, b), dim=-1)] for two-dimensional [a] and [b]: the
    tensors must agree on the number of rows.  In the nested view a tensor
    without rows, [Stack []], has no row length: it is read here as a batch
    of zero rows (shape [(0, k)]), which [cat] accepts only beside another
    tensor without rows.  The empty one-dimensional tensor, which [cat]
    skips, has no representation of its own: where the two would differ, a
    statement about a concatenation takes a [seqs] with at least one
    row. *)
Definition cat_row {A} (ab : tensor A * tensor A) : result (tensor A) :=
  match ab with
  | (Stack xs, Stack ys) =>
      if forallb is_scalar xs && forallb is_scalar ys
      then Ok (Stack (xs ++ ys))
      else Err RuntimeError
  | _ => Err RuntimeError
  end.

Definition cat_cols {A} (a b : tensor A) : result (tensor A) :=
  match a, b with
  | Stack ra, Stack rb =>
      if (length ra =? length rb)%nat then
        match traverse cat_row (zip ra rb) with
        | Ok rows => Ok (Stack rows)
        | Err e => Err e
        end
      else Err RuntimeError
  | _, _ => Err RuntimeError
  end.

(** A matrix (list of rows) as a two-dimensional tensor. *)
Definition of_row {A} (r : list A) : tensor A := Stack (List.map Scalar r).
Definition of_matrix {A} (m : list (list A)) : tensor A :=
  Stack (List.map of_row m).

(** Modelled from the spec: [repeat_tensor] of [captioning/models/utils.py],
    which is not part of the sources at hand.  Section 4.1: given a tensor of
    shape [D1, D2, ...] and a beam width B, the result has shape
    [B, D1, D2, ...] with the sample duplicated along the new leading
    dimension; it fails only on a non-positive beam width. *)
Definition repeat_tensor {A} (x : tensor A) (n : Z) : result (tensor A) :=
  if n <=? 0 then Err RuntimeError
  else Ok (Stack (replicate (Z.to_nat n) x)).

(** ** Floating-point values

    A finite value is a rational, kept as the fraction the operations
    build ([2#4] and [1#2] stand for the same number); the comparisons
    [Qeq_bool] and [Qle_bool] do not depend on the fraction chosen.
    [NonFin] stands for any value that is not finite, an infinity or a
    NaN.

    The arithmetic below is the exact reading of the float arithmetic of
    the code: it does not round and does not overflow.  What is proved of
    the event encoder with it is limited to what rounding does not change:
    the shape of the output, the exceptions, the values that are not
    finite after a division by zero, and results whose every operation is
    exact in floating point. *)

Inductive fval : Type :=
| Fin (q : Q)
| NonFin.

Definition fadd (a b : fval) : fval :=
  match a, b with
  | Fin x, Fin y => Fin (x + y)%Q
  | _, _ => NonFin
  end.

Definition fmul (a b : fval) : fval :=
  match a, b with
  | Fin x, Fin y => Fin (x * y)%Q
  | _, _ => NonFin
  end.

(** Division of finite numbers; a zero divisor gives a non-finite result
    (an infinity or NaN), not an exception.  A quotient by a value that is
    not finite is kept non-finite, as it is for a NaN divisor; no
    statement depends on the value of such a quotient. *)
Definition fdiv (a b : fval) : fval :=
  match a, b with
  | Fin x, Fin y => if Qeq_bool y 0 then NonFin else Fin (x / y)%Q
  | _, _ => NonFin
  end.

(** ** Dictionary entries *)

Inductive value : Type :=
| VInt (z : Z)
| VFloat (q : Q)
| VStr (s : string)
| VLong (x : tensor Z)
| VBoolT (x : tensor bool)
| VFloatT (x : tensor fval).

Abbreviation dict := (gmap string value).

(** [d[k]] *)
Definition dict_get (d : dict) (k : string) : result value :=
  match d !! k with
  | Some v => Ok v
  | None => Err (KeyError k)
  end.

Definition as_int (v : value) : result Z :=
  match v with VInt z => Ok z | _ => Err TypeError end.

Definition as_long (v : value) : result (tensor Z) :=
  match v with VLong x => Ok x | _ => Err TypeError end.

Definition as_floats (v : value) : result (tensor fval) :=
  match v with VFloatT x => Ok x | _ => Err TypeError end.

Definition get_int (d : dict) (k : string) : result Z :=
  v ← dict_get d k; as_int v.

(** [v == s] for a string literal [s]: values of other types are unequal. *)
Definition value_eqb_str (v : value) (s : string) : bool :=
  match v with VStr s' => String.eqb s' s | _ => false end.

(** [r < v] for a float [r]. *)
Definition float_ltb (r : Q) (v : value) : result bool :=
  match v with
  | VFloat q => Ok (negb (Qle_bool q r))
  | VInt z => Ok (negb (Qle_bool (inject_Z z) r))
  | _ => Err TypeError
  end.

(** Tensor operations on entries, at whatever element type the entry has. *)
Definition value_index (v : value) (i : Z) : result value :=
  match v with
  | VLong x => VLong <$> tensor_index x i
  | VBoolT x => VBoolT <$> tensor_index x i
  | VFloatT x => VFloatT <$> tensor_index x i
  | _ => Err TypeError
  end.

Definition value_repeat_tensor (v : value) (n : Z) : result value :=
  match v with
  | VLong x => VLong <$> repeat_tensor x n
  | VBoolT x => VBoolT <$> repeat_tensor x n
  | VFloatT x => VFloatT <$> repeat_tensor x n
  | _ => Err TypeError
  end.

Definition value_size0 (v : value) : result Z :=
  match v with
  | VLong x => size0 x
  | VBoolT x => size0 x
  | VFloatT x => size0 x
  | _ => Err AttributeError
  end.

(** [v.device]: only the attribute access is modelled; moving a tensor to
    a device does not change its content. *)
Definition value_device (v : value) : result unit :=
  match v with
  | VLong _ | VBoolT _ | VFloatT _ => Ok tt
  | _ => Err AttributeError
  end.

(** [x == c] for a tensor of token ids and an integer: elementwise. *)
Definition tensor_eq_int (x : tensor Z) (c : Z) : tensor bool :=
  tensor_map (fun z => z =? c) x.

(** [torch.tensor([start,] * n).unsqueeze(1).long()] *)
Definition start_column (start n : Z) : tensor Z :=
  of_matrix (List.map (fun s => [s]) (py_list_repeat start n)).

(** ** The random source

    [random.random()] reads the next draw of a global generator and
    advances it. *)
Record rng : Type := { draws : nat -> Q; pos : nat }.

Definition random_random : M rng Q :=
  fun g => (Ok (draws g (pos g)), {| draws := draws g; pos := S (pos g) |}).

(** ** EventEncoder *)

Abbreviation matrix A := (list (list A)).

Definition as_row {A} (x : tensor A) : result (list A) :=
  match x with
  | Scalar _ => Err IndexError
  | Stack cs =>
      traverse (fun c => match c with
                         | Scalar a => Ok a
                         | Stack _ => Err RuntimeError
                         end) cs
  end.

Definition as_matrix {A} (x : tensor A) : result (matrix A) :=
  match x with
  | Scalar _ => Err IndexError
  | Stack rows => traverse as_row rows
  end.

Definition fsum (r : list fval) : fval := foldr fadd (Fin 0) r.

(** [x.sum(dim=1, keepdim=True)] of an N x K matrix: N x 1. *)
Definition sum_dim1_keepdim (x : matrix fval) : matrix fval :=
  List.map (fun r => [fsum r]) x.

(** [x / s] with [s] of shape N x 1 broadcast along the columns. *)
Definition div_broadcast (x s : matrix fval) : matrix fval :=
  zip_with (fun r sr => List.map (fun a => fdiv a (hd NonFin sr)) r) x s.

Definition vscale (a : fval) (v : list fval) : list fval :=
  List.map (fmul a) v.
Definition vadd (u v : list fval) : list fval := zip_with fadd u v.

(** One row of [x @ e]: the combination of the rows of [e] weighted by the
    entries of the row. *)
Definition row_matmul (width : nat) (r : list fval) (e : matrix fval)
  : list fval :=
  foldr (fun ae acc => vadd (vscale ae.1 ae.2) acc)
        (replicate width (Fin 0)) (zip r e).

(** [x @ e] for an N x K matrix and a K x D matrix. *)
Definition matmul (x e : matrix fval) : result (matrix fval) :=
  let width := length (hd [] e) in
  if forallb (fun r => (length r =? length e)%nat) x
  then Ok (List.map (fun r => row_matmul width r e) x)
  else Err RuntimeError.

(** [EventEncoder.forward], with the learned table [label_embedding]. *)
Definition EventEncoder_forward (label_embedding : matrix fval)
    (word_idxs : tensor fval) : result (tensor fval) :=
  x ← as_matrix word_idxs;
  let indices := div_broadcast x (sum_dim1_keepdim x) in
  embeddings ← matmul indices label_embedding;
  Ok (of_matrix embeddings).

(** ** The models

    [pad_idx] and [start_idx] are attributes of the base class
    [CaptionModel]; [label_embedding] is the parameter of the
    [label_encoder] of the event-conditioned variant. *)
Record model : Type := {
  pad_idx : Z;
  start_idx : Z;
  label_embedding : matrix fval
}.

Inductive variant : Type :=
| Transformer
| M2Transformer
| EventCondTransformer
| KeywordCondTransformer.

(** [self.label_encoder(v)] *)
Definition label_encoder (self : model) (v : value) : result value :=
  x ← as_floats v;
  VFloatT <$> EventEncoder_forward (label_embedding self) x.

(** *** seq_forward

    The decoder is a collaborator: a computation over a state of its own.
    Every invocation is recorded, with the record it received. *)
Section SeqForward.
Context {DS Out : Type}.
Variable decoder : dict -> M DS Out.

Definition call_decoder (d : dict) : M (DS * list dict) Out :=
  fun s => let (r, ds) := decoder d s.1 in (r, (ds, (s.2 ++ [d])%list)).

Definition TransformerModel_seq_forward (self : model) (input_dict : dict)
  : M (DS * list dict) Out :=
  caps ← lift (v ← dict_get input_dict "caps"; as_long v);
  let caps_padding_mask := tensor_eq_int caps (pad_idx self) in
  caps_padding_mask ← lift (slice_cols (-1) caps_padding_mask);
  word ← lift (slice_cols (-1) caps);
  attn_embs ← lift (dict_get input_dict "attn_embs");
  attn_emb_lens ← lift (dict_get input_dict "attn_emb_lens");
  call_decoder
    (<["caps_padding_mask" := VBoolT caps_padding_mask]>
     (<["attn_emb_lens" := attn_emb_lens]>
      (<["attn_embs" := attn_embs]>
       (<["word" := VLong word]> ∅)))).

Definition M2TransformerModel_seq_forward (self : model) (input_dict : dict)
  : M (DS * list dict) Out :=
  caps ← lift (v ← dict_get input_dict "caps"; as_long v);
  word ← lift (slice_cols (-1) caps);
  attn_embs ← lift (dict_get input_dict "attn_embs");
  attn_emb_mask ← lift (dict_get input_dict "attn_emb_mask");
  call_decoder
    (<["attn_emb_mask" := attn_emb_mask]>
     (<["attn_embs" := attn_embs]>
      (<["word" := VLong word]> ∅))).

Definition KeywordCondTransformerModel_seq_forward (self : model)
    (input_dict : dict) : M (DS * list dict) Out :=
  caps ← lift (v ← dict_get input_dict "caps"; as_long v);
  let caps_padding_mask := tensor_eq_int caps (pad_idx self) in
  caps_padding_mask ← lift (slice_cols (-1) caps_padding_mask);
  keywords ← lift (dict_get input_dict "keywords");
  word ← lift (slice_cols (-1) caps);
  attn_embs ← lift (dict_get input_dict "attn_embs");
  attn_emb_lens ← lift (dict_get input_dict "attn_emb_lens");
  call_decoder
    (<["caps_padding_mask" := VBoolT caps_padding_mask]>
     (<["keywords" := keywords]>
      (<["attn_emb_lens" := attn_emb_lens]>
       (<["attn_embs" := attn_embs]>
        (<["word" := VLong word]> ∅))))).

(** Method resolution: the event-conditioned variant defines no
    [seq_forward] of its own and inherits the one of [TransformerModel]. *)
Definition seq_forward (v : variant) : model -> dict -> M (DS * list dict) Out :=
  match v with
  | Transformer | EventCondTransformer => TransformerModel_seq_forward
  | M2Transformer => M2TransformerModel_seq_forward
  | KeywordCondTransformer => KeywordCondTransformerModel_seq_forward
  end.
End SeqForward.

(** *** prepare_decoder_input *)

(** The input word of one step, shared by the primary and the alternative
    variant (lines 44-51 and 125-132). *)
Definition determine_input_word (self : model) (input_dict output : dict)
    (t : Z) : M rng (tensor Z) :=
  mode ← lift (dict_get input_dict "mode");
  teacher ←
    (if value_eqb_str mode "train" then
       r ← random_random;
       ss_ratio ← lift (dict_get input_dict "ss_ratio");
       lift (float_ltb r ss_ratio)
     else mret false);
  if teacher : bool then
    lift (caps ← (v ← dict_get input_dict "caps"; as_long v);
          slice_cols (t + 1) caps)
  else
    n ← lift (v ← dict_get input_dict "attn_embs"; value_size0 v);
    let start_word := start_column (start_idx self) n in
    if t =? 0 then mret start_word
    else
      lift (seqs ← (v ← dict_get output "seqs"; as_long v);
            prev ← slice_cols t seqs;
            cat_cols start_word prev).

Definition TransformerModel_prepare_decoder_input (self : model)
    (input_dict output : dict) : M rng dict :=
  attn_embs ← lift (dict_get input_dict "attn_embs");
  attn_emb_lens ← lift (dict_get input_dict "attn_emb_lens");
  let decoder_input : dict :=
    <["attn_emb_lens" := attn_emb_lens]> (<["attn_embs" := attn_embs]> ∅) in
  t ← lift (get_int input_dict "t");
  word ← determine_input_word self input_dict output t;
  let decoder_input := <["word" := VLong word]> decoder_input in
  let caps_padding_mask := tensor_eq_int word (pad_idx self) in
  _ ← lift (v ← dict_get input_dict "attn_embs"; value_device v);
  mret (<["caps_padding_mask" := VBoolT caps_padding_mask]> decoder_input).

Definition M2TransformerModel_prepare_decoder_input (self : model)
    (input_dict output : dict) : M rng dict :=
  attn_embs ← lift (dict_get input_dict "attn_embs");
  attn_emb_mask ← lift (dict_get input_dict "attn_emb_mask");
  let decoder_input : dict :=
    <["attn_emb_mask" := attn_emb_mask]> (<["attn_embs" := attn_embs]> ∅) in
  t ← lift (get_int input_dict "t");
  word ← determine_input_word self input_dict output t;
  mret (<["word" := VLong word]> decoder_input).

Definition EventCondTransformerModel_prepare_decoder_input (self : model)
    (input_dict output : dict) : M rng dict :=
  decoder_input ← TransformerModel_prepare_decoder_input self input_dict output;
  events ← lift (v ← dict_get input_dict "events"; label_encoder self v);
  mret (<["events" := events]> decoder_input).

Definition KeywordCondTransformerModel_prepare_decoder_input (self : model)
    (input_dict output : dict) : M rng dict :=
  decoder_input ← TransformerModel_prepare_decoder_input self input_dict output;
  keywords ← lift (dict_get input_dict "keywords");
  mret (<["keywords" := keywords]> decoder_input).

Definition prepare_decoder_input (v : variant)
  : model -> dict -> dict -> M rng dict :=
  match v with
  | Transformer => TransformerModel_prepare_decoder_input
  | M2Transformer => M2TransformerModel_prepare_decoder_input
  | EventCondTransformer => EventCondTransformerModel_prepare_decoder_input
  | KeywordCondTransformer => KeywordCondTransformerModel_prepare_decoder_input
  end.

(** *** prepare_beamsearch_decoder_input

    The state is the beam-state dictionary [output_i], which the call
    mutates in place. *)
Definition out_get (k : string) : M dict value :=
  fun output_i => (dict_get output_i k, output_i).

Definition out_set (k : string) (v : value) : M dict unit :=
  fun output_i => (Ok tt, <[k := v]> output_i).

(** [repeat_tensor(input_dict[k][i], beam_size)] *)
Definition expand_sample (input_dict : dict) (k : string) (i beam_size : Z)
  : result value :=
  x ← dict_get input_dict k;
  xi ← value_index x i;
  value_repeat_tensor xi beam_size.

(** The input word of one beam-search step (lines 77-81 and 156-160). *)
Definition determine_beam_word (self : model) (t beam_size : Z)
  : M dict (tensor Z) :=
  let start_word := start_column (start_idx self) beam_size in
  if t =? 0 then mret start_word
  else
    seqs ← out_get "seqs";
    lift (s ← as_long seqs; cat_cols start_word s).

Definition TransformerModel_prepare_beamsearch_decoder_input (self : model)
    (input_dict : dict) : M dict dict :=
  t ← lift (get_int input_dict "t");
  i ← lift (get_int input_dict "sample_idx");
  beam_size ← lift (get_int input_dict "beam_size");
  _ ← (if t =? 0 then
         attn_embs ← lift (expand_sample input_dict "attn_embs" i beam_size);
         attn_emb_lens ←
           lift (expand_sample input_dict "attn_emb_lens" i beam_size);
         _ ← out_set "attn_embs" attn_embs;
         out_set "attn_emb_lens" attn_emb_lens
       else mret tt);
  attn_embs ← out_get "attn_embs";
  attn_emb_lens ← out_get "attn_emb_lens";
  let decoder_input : dict :=
    <["attn_emb_lens" := attn_emb_lens]> (<["attn_embs" := attn_embs]> ∅) in
  word ← determine_beam_word self t beam_size;
  let decoder_input := <["word" := VLong word]> decoder_input in
  let caps_padding_mask := tensor_eq_int word (pad_idx self) in
  _ ← lift (v ← dict_get input_dict "attn_embs"; value_device v);
  mret (<["caps_padding_mask" := VBoolT caps_padding_mask]> decoder_input).

Definition M2TransformerModel_prepare_beamsearch_decoder_input (self : model)
    (input_dict : dict) : M dict dict :=
  t ← lift (get_int input_dict "t");
  i ← lift (get_int input_dict "sample_idx");
  beam_size ← lift (get_int input_dict "beam_size");
  _ ← (if t =? 0 then
         attn_embs ← lift (expand_sample input_dict "attn_embs" i beam_size);
         attn_emb_mask ←
           lift (expand_sample input_dict "attn_emb_mask" i beam_size);
         _ ← out_set "attn_embs" attn_embs;
         out_set "attn_emb_mask" attn_emb_mask
       else mret tt);
  attn_embs ← out_get "attn_embs";
  attn_emb_mask ← out_get "attn_emb_mask";
  let decoder_input : dict :=
    <["attn_emb_mask" := attn_emb_mask]> (<["attn_embs" := attn_embs]> ∅) in
  word ← determine_beam_word self t beam_size;
  mret (<["word" := VLong word]> decoder_input).

(** [repeat_tensor(self.label_encoder(input_dict["events"])[i], beam_size)] *)
Definition expand_events (self : model) (input_dict : dict) (i beam_size : Z)
  : result value :=
  e ← (v ← dict_get input_dict "events"; label_encoder self v);
  ei ← value_index e i;
  value_repeat_tensor ei beam_size.

Definition EventCondTransformerModel_prepare_beamsearch_decoder_input
    (self : model) (input_dict : dict) : M dict dict :=
  decoder_input ←
    TransformerModel_prepare_beamsearch_decoder_input self input_dict;
  t ← lift (get_int input_dict "t");
  i ← lift (get_int input_dict "sample_idx");
  beam_size ← lift (get_int input_dict "beam_size");
  _ ← (if t =? 0 then
         events ← lift (expand_events self input_dict i beam_size);
         out_set "events" events
       else mret tt);
  events ← out_get "events";
  mret (<["events" := events]> decoder_input).

Definition KeywordCondTransformerModel_prepare_beamsearch_decoder_input
    (self : model) (input_dict : dict) : M dict dict :=
  decoder_input ←
    TransformerModel_prepare_beamsearch_decoder_input self input_dict;
  t ← lift (get_int input_dict "t");
  i ← lift (get_int input_dict "sample_idx");
  beam_size ← lift (get_int input_dict "beam_size");
  _ ← (if t =? 0 then
         keywords ← lift (expand_sample input_dict "keywords" i beam_size);
         out_set "keywords" keywords
       else mret tt);
  keywords ← out_get "keywords";
  mret (<["keywords" := keywords]> decoder_input).

Definition prepare_beamsearch_decoder_input (v : variant)
  : model -> dict -> M dict dict :=
  match v with
  | Transformer => TransformerModel_prepare_beamsearch_decoder_input
  | M2Transformer => M2TransformerModel_prepare_beamsearch_decoder_input
  | EventCondTransformer =>
      EventCondTransformerModel_prepare_beamsearch_decoder_input
  | KeywordCondTransformer =>
      KeywordCondTransformerModel_prepare_beamsearch_decoder_input
  end.

(** The fields a variant caches in the beam state at the first step. *)
Definition cached_fields (v : variant) : list string :=
  match v with
  | Transformer => ["attn_embs"; "attn_emb_lens"]
  | M2Transformer => ["attn_embs"; "attn_emb_mask"]
  | EventCondTransformer => ["attn_embs"; "attn_emb_lens"; "events"]
  | KeywordCondTransformer => ["attn_embs"; "attn_emb_lens"; "keywords"]
  end.

(** ** Construction

    Classes are named; an instance carries the names of the classes on its
    method resolution order, and [emb_dim] when it has the attribute. *)
Module Construction.

Inductive pyval : Type :=
| PClass (name : string)
| PTuple (items : list pyval).

Record pyobj : Type := { class_mro : list string; emb_dim : option Z }.

(** [isinstance(obj, c)]: [c] is a class or a tuple of such, nested
    tuples included. *)
Fixpoint isinstance (obj : pyobj) (c : pyval) : bool :=
  match c with
  | PClass name => existsb (String.eqb name) (class_mro obj)
  | PTuple items => existsb (isinstance obj) items
  end.

Definition is_tuple (c : pyval) : bool :=
  match c with PTuple _ => true | PClass _ => false end.

(** The attributes of a model under construction; [None] is an attribute
    that was never assigned.  [label_encoder_shape] is the shape of the
    randomly initialised table of the [EventEncoder]. *)
Record instance : Type := {
  compatible_decoders : option pyval;
  encoder : option pyobj;
  decoder : option pyobj;
  train_forward_keys : list string;
  inference_forward_keys : list string;
  label_encoder_shape : option (Z * Z)
}.

Definition new_instance : instance :=
  {| compatible_decoders := None; encoder := None; decoder := None;
     train_forward_keys := []; inference_forward_keys := [];
     label_encoder_shape := None |}.

Definition set_compatible_decoders (c : pyval) (self : instance) : instance :=
  {| compatible_decoders := Some c; encoder := encoder self;
     decoder := decoder self;
     train_forward_keys := train_forward_keys self;
     inference_forward_keys := inference_forward_keys self;
     label_encoder_shape := label_encoder_shape self |}.

(** [if not hasattr(self, "compatible_decoders"):
       self.compatible_decoders = c] *)
Definition default_compatible_decoders (c : pyval) : M instance unit :=
  fun self =>
    match compatible_decoders self with
    | Some _ => (Ok tt, self)
    | None => (Ok tt, set_compatible_decoders c self)
    end.

Section Base.
(** The keys the base class starts the two lists with. *)
Variables base_train_forward_keys base_inference_forward_keys : list string.

(** Modelled from the spec: [CaptionModel.__init__] of
    [captioning/models/base_model.py], which is not part of the sources
    at hand.  Section 3: a variant owns an encoder and a decoder and
    declares the decoder implementations it is compatible with;
    Section 4.3: constructing a variant with a decoder outside its
    declared compatible set fails with a configuration error (the
    [AssertionError] of a failed [assert]). *)
Definition CaptionModel_init (enc dec : pyobj) : M instance unit :=
  fun self =>
    let self' :=
      {| compatible_decoders := compatible_decoders self;
         encoder := Some enc; decoder := Some dec;
         train_forward_keys := base_train_forward_keys;
         inference_forward_keys := base_inference_forward_keys;
         label_encoder_shape := label_encoder_shape self |} in
    match compatible_decoders self with
    | None => (Err AttributeError, self')
    | Some c =>
        if isinstance dec c then (Ok tt, self')
        else (Err AssertionError, self')
    end.

Definition TransformerModel_init (enc dec : pyobj) : M instance unit :=
  _ ← default_compatible_decoders (PTuple [PClass "TransformerDecoder"]);
  CaptionModel_init enc dec.

(** [assert isinstance(self.encoder, M2TransformerEncoder)], with
    assertions enabled and the module [captioning.models.encoder], which
    defines the class, loaded. *)
Definition check_encoder_compatibility : M instance unit :=
  fun self =>
    match encoder self with
    | None => (Err AttributeError, self)
    | Some enc =>
        if isinstance enc (PClass "M2TransformerEncoder")
        then (Ok tt, self)
        else (Err AssertionError, self)
    end.

(** The parenthesised class of lines 93-95 has no trailing comma: the
    value is the class, not a tuple. *)
Definition M2TransformerModel_init (enc dec : pyobj) : M instance unit :=
  _ ← default_compatible_decoders (PClass "M2TransformerDecoder");
  _ ← CaptionModel_init enc dec;
  check_encoder_compatibility.

Definition append_forward_keys (k : string) : M instance unit :=
  fun self =>
    (Ok tt,
     {| compatible_decoders := compatible_decoders self;
        encoder := encoder self; decoder := decoder self;
        train_forward_keys := (train_forward_keys self ++ [k])%list;
        inference_forward_keys := (inference_forward_keys self ++ [k])%list;
        label_encoder_shape := label_encoder_shape self |}).

(** [self.label_encoder = EventEncoder(decoder.emb_dim, 527)] *)
Definition make_label_encoder (dec : pyobj) : M instance unit :=
  fun self =>
    match emb_dim dec with
    | None => (Err AttributeError, self)
    | Some d =>
        (Ok tt,
         {| compatible_decoders := compatible_decoders self;
            encoder := encoder self; decoder := decoder self;
            train_forward_keys := train_forward_keys self;
            inference_forward_keys := inference_forward_keys self;
            label_encoder_shape := Some (527, d) |})
    end.

(** Lines 185-187: again a parenthesised class without a comma. *)
Definition EventCondTransformerModel_init (enc dec : pyobj)
  : M instance unit :=
  _ ← default_compatible_decoders (PClass "EventTransformerDecoder");
  _ ← TransformerModel_init enc dec;
  _ ← make_label_encoder dec;
  append_forward_keys "events".

Definition KeywordCondTransformerModel_init (enc dec : pyobj)
  : M instance unit :=
  _ ← default_compatible_decoders
        (PTuple [PClass "KeywordProbTransformerDecoder"]);
  _ ← TransformerModel_init enc dec;
  append_forward_keys "keywords".

Definition init (v : variant) : pyobj -> pyobj -> M instance unit :=
  match v with
  | Transformer => TransformerModel_init
  | M2Transformer => M2TransformerModel_init
  | EventCondTransformer => EventCondTransformerModel_init
  | KeywordCondTransformer => KeywordCondTransformerModel_init
  end.

(** [Variant(encoder, decoder)]: a fresh object, initialised; the object
    exists only if [__init__] returns. *)
Definition construct (v : variant) (enc dec : pyobj) : result instance :=
  match init v enc dec new_instance with
  | (Ok _, self) => Ok self
  | (Err e, _) => Err e
  end.

(** The decoder class each variant declares. *)
Definition declared_decoder (v : variant) : string :=
  match v with
  | Transformer => "TransformerDecoder"
  | M2Transformer => "M2TransformerDecoder"
  | EventCondTransformer => "EventTransformerDecoder"
  | KeywordCondTransformer => "KeywordProbTransformerDecoder"
  end.
End Base.
End Construction.

(** * Statements

    Predicates and concrete contexts the properties below are stated
    with. *)

(** A computation that leaves the store as it found it, whatever it
    returns. *)
Definition preserves_store {S A} (m : M S A) : Prop :=
  forall s, (m s).2 = s.

(** The first-step expansion of the primary variant (lines 67-71). *)
Definition expansion_of (input_dict : dict) (k1 k2 : string) (t i B : Z)
    (ae al : value) (output_i output_i' : dict) : Prop :=
  if t =? 0
  then expand_sample input_dict k1 i B = Ok ae /\
       expand_sample input_dict k2 i B = Ok al /\
       output_i' = <[k2 := al]> (<[k1 := ae]> output_i)
  else output_i' = output_i /\
       output_i !! k1 = Some ae /\ output_i !! k2 = Some al.

(** The conditioning tensor a subclass adds after the call of the parent
    (lines 214-219 and 257-263). *)
Definition conditioning_of (compute : result value) (k : string) (t : Z)
    (c : value) (s s' : dict) : Prop :=
  if t =? 0 then compute = Ok c /\ s' = <[k := c]> s
  else s' = s /\ s !! k = Some c.

(** The word of the record a call returned, if it returned one. *)
Definition returned_word {S} (r : result dict * S) : option value :=
  match r.1 with
  | Ok d => d !! "word"
  | Err _ => None
  end.

(** ** Concrete contexts used to evaluate the operations *)

Module Sample.
Definition self : model :=
  {| pad_idx := 0; start_idx := 1;
     label_embedding := [[Fin 1; Fin 0]; [Fin 0; Fin 1]] |}.

(** Two samples, three frames, one feature. *)
Definition attn_embs : value :=
  VFloatT (Stack [of_matrix [[Fin 1]; [Fin 2]; [Fin 3]];
                  of_matrix [[Fin 4]; [Fin 5]; [Fin 6]]]).
Definition attn_emb_lens : value := VLong (Stack [Scalar 3; Scalar 2]).
Definition attn_emb_mask : value :=
  VBoolT (of_matrix [[true; true; true]; [true; true; false]]).
Definition caps : value :=
  VLong (of_matrix [[1; 7; 8; 2; 0]; [1; 9; 2; 0; 0]]).
Definition events : value :=
  VFloatT (of_matrix [[Fin 1; Fin 1]; [Fin 0; Fin 1]]).
Definition keywords : value :=
  VFloatT (of_matrix [[Fin (1#2)]; [Fin (1#4)]]).

Definition batch : dict :=
  <["caps" := caps]>
  (<["attn_embs" := attn_embs]>
   (<["attn_emb_lens" := attn_emb_lens]>
    (<["attn_emb_mask" := attn_emb_mask]>
     (<["events" := events]>
      (<["keywords" := keywords]> ∅))))).

(** The step context of beam search for sample 0 with two beams. *)
Definition beam_context (t : Z) : dict :=
  <["t" := VInt t]>
  (<["sample_idx" := VInt 0]>
   (<["beam_size" := VInt 2]> batch)).

(** The step context of a rollout. *)
Definition step_context (mode : string) (t : Z) : dict :=
  <["t" := VInt t]>
  (<["mode" := VStr mode]>
   (<["ss_ratio" := VFloat (1#2)]> batch)).

(** A beam state for sample 0 with two beams: the fields the variants
    cache at the first step, and the tokens [seqs] generated so far. *)
Definition beam_state (seqs : matrix Z) : dict :=
  <["seqs" := VLong (of_matrix seqs)]>
  (<["attn_embs" := VFloatT (Stack [of_matrix [[Fin 1]; [Fin 2]; [Fin 3]];
                                     of_matrix [[Fin 1]; [Fin 2]; [Fin 3]]])]>
   (<["attn_emb_lens" := VLong (Stack [Scalar 3; Scalar 3])]>
    (<["attn_emb_mask" := VBoolT (Stack [of_row [true; true; true];
                                          of_row [true; true; true]])]>
     (<["events" := VFloatT (Stack [of_row [Fin (2#4); Fin (2#4)];
                                      of_row [Fin (2#4); Fin (2#4)]])]>
      (<["keywords" := VFloatT (Stack [of_row [Fin (1#2)];
                                        of_row [Fin (1#2)]])]> ∅))))).

(** The running output of a rollout on the batch. *)
Definition running_output : dict :=
  <["seqs" := VLong (of_matrix [[5; 6; 0; 0]; [3; 4; 0; 0]])]> ∅.

(** A generator whose first draw is [r0] and whose later draws are [r1]. *)
Definition gen2 (r0 r1 : Q) : rng :=
  {| draws := fun n => match n with O => r0 | S _ => r1 end; pos := 0 |}.
End Sample.

(** The record a call returned (the empty record if it raised). *)
Definition returned_record {S} (r : result dict * S) : dict :=
  match r.1 with
  | Ok d => d
  | Err _ => ∅
  end.

(** Where the per-sample tensor cached under [k] comes from: the batch
    entry itself, or, for the events, its encoding. *)
Definition per_sample_source (self : model) (input_dict : dict) (k : string)
  : result value :=
  if String.eqb k "events"
  then v ← dict_get input_dict "events"; label_encoder self v
  else dict_get input_dict k.

(** [n] copies of a tensor along a new leading dimension. *)
Definition value_stack (n : nat) (v : value) : value :=
  match v with
  | VLong x => VLong (Stack (replicate n x))
  | VBoolT x => VBoolT (Stack (replicate n x))
  | VFloatT x => VFloatT (Stack (replicate n x))
  | _ => v
  end.

(** Sample [i] of a batch tensor: its [i]-th entry along the first
    dimension. *)
Definition sample_of (whole : value) (i : nat) : option value :=
  match whole with
  | VLong (Stack xs) => VLong <$> xs !! i
  | VBoolT (Stack xs) => VBoolT <$> xs !! i
  | VFloatT (Stack xs) => VFloatT <$> xs !! i
  | _ => None
  end.

(** The field [k] was filled from sample [i] of its source: the beam state
    [output_i'] and the record [d] both hold [B] copies of that sample,
    stacked along a new leading dimension. *)
Definition replicated_sample (self : model) (input_dict : dict) (i B : nat)
    (output_i' d : dict) (k : string) : Prop :=
  exists whole sample,
    per_sample_source self input_dict k = Ok whole /\
    sample_of whole i = Some sample /\
    output_i' !! k = Some (value_stack B sample) /\
    d !! k = Some (value_stack B sample).

(** The beam-state fields the primary and the alternative variant read at
    a later step. *)
Definition read_fields (v : variant) : list string :=
  match v with
  | M2Transformer => ["attn_embs"; "attn_emb_mask"; "seqs"]
  | _ => ["attn_embs"; "attn_emb_lens"; "seqs"]
  end.

(** At the first step the field [k] of the beam state [output_i'] and of
    the returned record [d] is [repeat_tensor] of sample [i] of its source
    and the beam width [B]. *)
Definition cached_at_first_step (self : model) (input_dict : dict) (i B : Z)
    (output_i' d : dict) (k : string) : Prop :=
  exists whole sample x,
    per_sample_source self input_dict k = Ok whole /\
    value_index whole i = Ok sample /\
    value_repeat_tensor sample B = Ok x /\
    output_i' !! k = Some x /\
    d !! k = Some x.

(** At a later step the field [k] of the returned record [d] is the one
    the beam state [output_i] holds. *)
Definition read_back (output_i d : dict) (k : string) : Prop :=
  exists x, output_i !! k = Some x /\ d !! k = Some x.

(** The generator after one draw. *)
Definition next (g : rng) : rng := {| draws := draws g; pos := S (pos g) |}.

(** Teacher forcing: the word is [caps[:, :t+1]], with [t + 1] columns
    when [caps] is a matrix with that many columns at least. *)
Definition teacher_word (input_dict : dict) (t : Z) (word : tensor Z) : Prop :=
  exists caps,
    input_dict !! "caps" = Some (VLong caps) /\
    slice_cols (t + 1) caps = Ok word /\
    forall c : matrix Z,
      caps = of_matrix c -> 0 <= t ->
      Forall (fun r => (Z.to_nat (t + 1) <= length r)%nat) c ->
      exists w : matrix Z,
        word = of_matrix w /\
        Forall (fun r => length r = Z.to_nat (t + 1)) w.

(** Free running: the word is the start column, one row per sample, and
    after step 0 the first [t] columns of the running [seqs] behind it. *)
Definition generated_word (self : model) (input_dict output : dict) (t : Z)
    (word : tensor Z) : Prop :=
  exists embs n,
    input_dict !! "attn_embs" = Some embs /\ value_size0 embs = Ok n /\
    if t =? 0 then word = start_column (start_idx self) n
    else exists seqs prev,
           output !! "seqs" = Some (VLong seqs) /\
           slice_cols t seqs = Ok prev /\
           cat_cols (start_column (start_idx self) n) prev = Ok word.

(** The padding mask of a record is the elementwise comparison of its word
    tensor with [pad_idx]. *)
Definition mask_marks_pad (self : model) (d : dict) : Prop :=
  exists word,
    d !! "word" = Some (VLong word) /\
    d !! "caps_padding_mask" =
      Some (VBoolT (tensor_eq_int word (pad_idx self))).

(** Two step contexts that differ at most in the ground-truth captions. *)
Definition agree_except_caps (d1 d2 : dict) : Prop :=
  forall k, k <> "caps" -> d1 !! k = d2 !! k.





(** Two tensors of the same shape whose entries at every position are
    related by [R]. *)
Inductive pointwise {A B} (R : A -> B -> Prop) : tensor A -> tensor B -> Prop :=
| pointwise_scalar a b : R a b -> pointwise R (Scalar a) (Scalar b)
| pointwise_stack xs ys :
    Forall2 (pointwise R) xs ys -> pointwise R (Stack xs) (Stack ys).

(** The record [d] holds a word tensor and a padding mask of the same
    shape, and the mask is [True] exactly at the positions where the word
    tensor holds [pad_idx]. *)
Definition mask_true_at_pad (self : model) (d : dict) : Prop :=
  exists word mask,
    d !! "word" = Some (VLong word) /\
    d !! "caps_padding_mask" = Some (VBoolT mask) /\
    pointwise (fun z (b : bool) => b = true <-> z = pad_idx self) word mask.

(** The batch entries, besides [caps], that [seq_forward] hands to the
    decoder. *)
Definition seq_forward_keys (v : variant) : list string :=
  match v with
  | M2Transformer => ["attn_embs"; "attn_emb_mask"]
  | KeywordCondTransformer => ["keywords"; "attn_embs"; "attn_emb_lens"]
  | _ => ["attn_embs"; "attn_emb_lens"]
  end.

(** The outcome of one invocation of the decoder on [rec], from the decoder
    state [ds] and the log [log]: the decoder's result and state, and the
    log extended by [rec]. *)
Definition decoder_called {DS Out} (decoder : dict -> M DS Out) (rec : dict)
    (ds : DS) (log : list dict) : result Out * (DS * list dict) :=
  ((decoder rec ds).1, ((decoder rec ds).2, (log ++ [rec])%list)).

Module SampleDecoder.
(** A decoder that counts its invocations and answers with the word
    tensor it was given. *)
Definition decoder (d : dict) : M nat (option value) :=
  fun calls => (Ok (d !! "word"), S calls).
End SampleDecoder.

Module SampleObjects.
Import Construction.

Definition m2_encoder : pyobj :=
  {| class_mro := ["M2TransformerEncoder"; "BaseEncoder"; "Module"; "object"];
     emb_dim := None |}.
Definition rnn_encoder : pyobj :=
  {| class_mro := ["RnnEncoder"; "BaseEncoder"; "Module"; "object"];
     emb_dim := None |}.
Definition m2_decoder : pyobj :=
  {| class_mro := ["M2TransformerDecoder"; "BaseDecoder"; "Module"; "object"];
     emb_dim := Some 256 |}.
Definition event_decoder : pyobj :=
  {| class_mro := ["EventTransformerDecoder"; "TransformerDecoder";
                   "BaseDecoder"; "Module"; "object"];
     emb_dim := Some 256 |}.
Definition base_keys : list string := ["caps"; "cap_lens"; "ss_ratio"].
Definition base_inference_keys : list string :=
  ["sample_method"; "max_length"; "temp"].
End SampleObjects.

(** The value a variant's constructor assigns to [compatible_decoders]
    (lines 15-17, 93-95, 185-187, 227-229): a one-element tuple where the
    parenthesised class is followed by a comma, the class itself where it
    is not. *)
Definition assigned_compatible_decoders (v : variant) : Construction.pyval :=
  match v with
  | Transformer | KeywordCondTransformer =>
      Construction.PTuple
        [Construction.PClass (Construction.declared_decoder v)]
  | M2Transformer | EventCondTransformer =>
      Construction.PClass (Construction.declared_decoder v)
  end.

(** *** The event encoder in exact arithmetic *)

Definition Qsum (r : list Q) : Q := foldr Qplus 0%Q r.

(** A label vector divided by its sum. *)
Definition normalise (r : list Q) : list Q :=
  List.map (fun a => (a / Qsum r)%Q) r.

(** Column [d] of the combination of the rows of the table [E] weighted by
    [p]: the sum over the label classes [k] of [p k * E k d]. *)
Definition weighted_entry (p : list Q) (E : matrix Q) (d : nat) : Q :=
  Qsum (zip_with (fun pk ek => (pk * nth d ek 0)%Q) p E).

Definition weighted_combination (p : list Q) (E : matrix Q) : list Q :=
  List.map (weighted_entry p E) (seq 0 (length (hd [] E))).

(** Finite floating-point values. *)
Definition fin_row (r : list Q) : list fval := List.map Fin r.
Definition fin_matrix (m : matrix Q) : matrix fval := List.map fin_row m.

Module SampleEvents.
(** Three label classes, embeddings of dimension two. *)
Definition table : matrix Q := [[1; 0]; [0; 1]; [2; 2]]%Q.
Definition labels : matrix Q := [[1; 0; 1]; [0; 1; 0]]%Q.
Definition no_labels : matrix Q := [[0; 0; 0]]%Q.
End SampleEvents.

(** The batch entries, besides [attn_embs], a variant passes on at a
    rollout step. *)
Definition step_keys (v : variant) : list string :=
  match v with
  | M2Transformer => ["attn_emb_mask"]
  | KeywordCondTransformer => ["attn_emb_lens"; "keywords"]
  | _ => ["attn_emb_lens"]
  end.

(** A step context and a running output on which a rollout step returns:
    the entries are present at their types, the captions and the running
    [seqs] are matrices, and [seqs] has one row per sample. *)
Record well_formed_step (v : variant) (self : model)
    (input_dict output : dict) : Prop := {
  wf_attn_embs :
    exists embs n, input_dict !! "attn_embs" = Some embs /\
                   value_size0 embs = Ok n /\
                   exists s : matrix Z,
                     output !! "seqs" = Some (VLong (of_matrix s)) /\
                     length s = Z.to_nat n;
  wf_keys : Forall (fun k => is_Some (input_dict !! k)) (step_keys v);
  wf_t : exists t, input_dict !! "t" = Some (VInt t);
  wf_mode : exists m, input_dict !! "mode" = Some (VStr m);
  wf_ss_ratio : exists p, input_dict !! "ss_ratio" = Some (VFloat p);
  wf_caps : exists c : matrix Z,
              input_dict !! "caps" = Some (VLong (of_matrix c));
  wf_events :
    v = EventCondTransformer ->
    exists ev x, input_dict !! "events" = Some ev /\
                 label_encoder self ev = Ok x
}.

(** * Further statements *)

(** The entry that tells which positions of the attention source are
    valid: lengths for the primary variant and the variants derived from
    it, a mask for the alternative variant. *)
Definition validity_key (v : variant) : string :=
  match v with
  | M2Transformer => "attn_emb_mask"
  | _ => "attn_emb_lens"
  end.

(** A rollout step reaches [random.random()]: the entries read before the
    mode are present and the mode is "train". *)
Definition takes_draw (v : variant) (input_dict : dict) : bool :=
  is_ok (dict_get input_dict "attn_embs") &&
  is_ok (dict_get input_dict (validity_key v)) &&
  is_ok (dict_get input_dict "t") &&
  match input_dict !! "mode" with
  | Some mode => value_eqb_str mode "train"
  | None => false
  end.

(** The keys of the record [prepare_decoder_input] and
    [prepare_beamsearch_decoder_input] return. *)
Definition prepared_keys (v : variant) : list string :=
  match v with
  | Transformer =>
      ["attn_embs"; "attn_emb_lens"; "word"; "caps_padding_mask"]
  | M2Transformer => ["attn_embs"; "attn_emb_mask"; "word"]
  | EventCondTransformer =>
      ["attn_embs"; "attn_emb_lens"; "word"; "caps_padding_mask"; "events"]
  | KeywordCondTransformer =>
      ["attn_embs"; "attn_emb_lens"; "word"; "caps_padding_mask"; "keywords"]
  end.

(** The keys of the record [seq_forward] hands to the decoder. *)
Definition seq_forward_record_keys (v : variant) : list string :=
  match v with
  | M2Transformer => ["word"; "attn_embs"; "attn_emb_mask"]
  | KeywordCondTransformer =>
      ["word"; "attn_embs"; "attn_emb_lens"; "keywords"; "caps_padding_mask"]
  | _ => ["word"; "attn_embs"; "attn_emb_lens"; "caps_padding_mask"]
  end.

(** The entry a derived variant adds to the record of its parent. *)
Definition conditioning_key (v : variant) : option string :=
  match v with
  | EventCondTransformer => Some "events"
  | KeywordCondTransformer => Some "keywords"
  | _ => None
  end.

(** What a rollout step puts under the conditioning key of a derived
    variant: the keywords of the batch as they are, the encoding of its
    events. *)
Definition conditioning_entry (v : variant) (self : model) (input_dict d : dict)
  : Prop :=
  match v with
  | KeywordCondTransformer => d !! "keywords" = input_dict !! "keywords"
  | EventCondTransformer =>
      exists ev x, input_dict !! "events" = Some ev /\
                   label_encoder self ev = Ok x /\
                   d !! "events" = Some x
  | _ => True
  end.

(** One row of the output of [EventEncoder.forward]: the row divided by
    its sum, times the table. *)
Definition encoded_row (E : matrix fval) (r : list fval) : list fval :=
  row_matmul (length (hd [] E)) (List.map (fun a => fdiv a (fsum r)) r) E.

(** A multi-hot label row: 1 for the classes that are present, 0 for the
    others. *)
Definition multi_hot (present : list bool) : list Q :=
  List.map (fun b : bool => if b then 1%Q else 0%Q) present.

(** The rows of the table of the classes that are present. *)
Definition active_rows (present : list bool) (E : matrix Q) : matrix Q :=
  List.map snd (List.filter fst (zip present E)).

(** The mean of column [d] over some rows. *)
Definition column_mean (d : nat) (rows : matrix Q) : Q :=
  (Qsum (List.map (fun e => nth d e 0%Q) rows)
   / inject_Z (Z.of_nat (length rows)))%Q.

(** The step context of a later step of the same beam search: the same
    batch, the timestep advanced. *)
Definition at_step (t : Z) (input_dict : dict) : dict :=
  <["t" := VInt t]> input_dict.

(** The beam state after the search stored the tokens chosen so far. *)
Definition with_seqs (m : matrix Z) (output_i : dict) : dict :=
  <["seqs" := VLong (of_matrix m)]> output_i.

(** A one-hot label row: class [k] of [k + 1 + j] classes. *)
Definition one_hot (k j : nat) : list Q :=
  (replicate k 0%Q ++ 1%Q :: replicate j 0%Q)%list.

(** * Properties *)

(** ** Stepping through a computation *)

Lemma M_bind_unfold {S A B} (m : M S A) (f : A -> M S B) (s : S) :
  (m ≫= f) s =
  match m s with
  | (Ok a, s') => f a s'
  | (Err e, s') => (Err e, s')
  end.
Proof. reflexivity. Qed.

Lemma M_bind_ok {S A B} (m : M S A) (f : A -> M S B) s b s' :
  (m ≫= f) s = (Ok b, s') ->
  exists a s1, m s = (Ok a, s1) /\ f a s1 = (Ok b, s').
Proof.
  rewrite M_bind_unfold. destruct (m s) as [[a|e] s1]; intros H.
  - eauto.
  - discriminate.
Qed.

Lemma result_bind_ok {A B} (r : result A) (f : A -> result B) b :
  r ≫= f = Ok b -> exists a, r = Ok a /\ f a = Ok b.
Proof. destruct r as [a|e]; intros H; [eauto | discriminate]. Qed.

Lemma result_bind_ret {A B} (a : A) (f : A -> result B) :
  Ok a ≫= f = f a.
Proof. reflexivity. Qed.

Lemma result_fmap_ok {A B} (f : A -> B) (r : result A) b :
  f <$> r = Ok b -> exists a, r = Ok a /\ b = f a.
Proof.
  destruct r as [a|e]; intros H; [| discriminate].
  exists a. split; [reflexivity|]. now inversion H.
Qed.

Lemma lift_ok {S A} (r : result A) (s s' : S) a :
  lift r s = (Ok a, s') -> r = Ok a /\ s' = s.
Proof. unfold lift. intros H. now inversion H. Qed.

Lemma mret_ok {S A} (a b : A) (s s' : S) :
  (mret a : M S A) s = (Ok b, s') -> b = a /\ s' = s.
Proof. intros H. now inversion H. Qed.

Lemma dict_get_ok (d : dict) k v : dict_get d k = Ok v <-> d !! k = Some v.
Proof.
  unfold dict_get. destruct (d !! k); split; intros H;
    inversion H; reflexivity.
Qed.

Lemma dict_get_err (d : dict) k e :
  dict_get d k = Err e -> d !! k = None /\ e = KeyError k.
Proof.
  unfold dict_get. destruct (d !! k); intros H; inversion H. auto.
Qed.

Lemma get_int_ok (d : dict) k z :
  get_int d k = Ok z <-> d !! k = Some (VInt z).
Proof.
  unfold get_int. split.
  - intros H. apply result_bind_ok in H as (v & Hv & Hz).
    apply dict_get_ok in Hv. destruct v; inversion Hz. now subst.
  - intros H. apply dict_get_ok in H. now rewrite H.
Qed.

Lemma preserves_lift {S A} (r : result A) : preserves_store (lift (S:=S) r).
Proof. intros s. reflexivity. Qed.

Lemma preserves_mret {S A} (a : A) : preserves_store (mret a : M S A).
Proof. intros s. reflexivity. Qed.

Lemma preserves_out_get k : preserves_store (out_get k).
Proof. intros s. reflexivity. Qed.

Lemma preserves_bind {S A B} (m : M S A) (f : A -> M S B) :
  preserves_store m -> (forall a, preserves_store (f a)) ->
  preserves_store (m ≫= f).
Proof.
  intros Hm Hf s. rewrite M_bind_unfold.
  specialize (Hm s). destruct (m s) as [[a|e] s1]; simpl in Hm; subst s1.
  - apply Hf.
  - reflexivity.
Qed.

Create HintDb frame.
#[local] Hint Resolve preserves_lift preserves_mret preserves_out_get
  preserves_bind : frame.

(** ** Slicing, concatenation and elementwise maps *)

Lemma py_slice_to_map {A B} (f : A -> B) stop (l : list A) :
  py_slice_to stop (List.map f l) = List.map f (py_slice_to stop l).
Proof.
  unfold py_slice_to. rewrite length_map.
  destruct (0 <=? stop); apply firstn_map.
Qed.

Lemma py_slice_to_all {A} stop (l : list A) :
  (length l <= Z.to_nat stop)%nat -> 0 <= stop -> py_slice_to stop l = l.
Proof.
  intros Hlen Hstop. unfold py_slice_to.
  destruct (Z.leb_spec 0 stop); [| lia]. now apply firstn_all2.
Qed.

Lemma py_slice_to_length {A} stop (l : list A) :
  0 <= stop -> length (py_slice_to stop l) = Nat.min (Z.to_nat stop) (length l).
Proof.
  intros Hstop. unfold py_slice_to.
  destruct (Z.leb_spec 0 stop); [| lia]. apply length_firstn.
Qed.

Lemma py_slice_drop_last_length {A} (l : list A) :
  length (py_slice_to (-1) l) = (length l - 1)%nat.
Proof.
  unfold py_slice_to. simpl. rewrite length_firstn. lia.
Qed.

Lemma traverse_ok_map {A B} (f : A -> result B) (g : A -> B) l :
  (forall a, In a l -> f a = Ok (g a)) -> traverse f l = Ok (List.map g l).
Proof.
  induction l as [|a l IH]; intros H; simpl; [reflexivity|].
  rewrite (H a) by (now left). rewrite IH; [reflexivity|].
  intros b Hb. apply H. now right.
Qed.

Lemma slice_cols_of_matrix {A} stop (m : matrix A) :
  slice_cols stop (of_matrix m) =
  Ok (of_matrix (List.map (py_slice_to stop) m)).
Proof.
  unfold slice_cols, of_matrix.
  rewrite (traverse_ok_map _ (fun r => match r with
                                       | Stack cs => Stack (py_slice_to stop cs)
                                       | Scalar a => Scalar a
                                       end)).
  - f_equal. f_equal. rewrite !List.map_map. apply List.map_ext.
    intros r. unfold of_row. now rewrite py_slice_to_map.
  - intros r Hr. apply in_map_iff in Hr as (r0 & <- & _). reflexivity.
Qed.

Lemma forallb_is_scalar_map {A} (r : list A) :
  forallb is_scalar (List.map Scalar r) = true.
Proof. induction r; simpl; auto. Qed.

Lemma cat_row_of_row {A} (a b : list A) :
  cat_row (of_row a, of_row b) = Ok (of_row (a ++ b)).
Proof.
  unfold cat_row, of_row. rewrite !forallb_is_scalar_map. simpl.
  now rewrite List.map_app.
Qed.

Lemma traverse_cat_row {A} (a b : matrix A) :
  traverse cat_row (zip (List.map of_row a) (List.map of_row b)) =
  Ok (List.map of_row (zip_with app a b)).
Proof.
  revert b.
  induction a as [|x a IH]; intros [|y b];
    cbn [traverse zip_with List.map]; try reflexivity.
  rewrite cat_row_of_row. now rewrite IH.
Qed.

Lemma cat_cols_of_matrix {A} (a b : matrix A) :
  length a = length b ->
  cat_cols (of_matrix a) (of_matrix b) = Ok (of_matrix (zip_with app a b)).
Proof.
  intros Hlen. unfold cat_cols, of_matrix.
  rewrite !length_map, Hlen, Nat.eqb_refl.
  now rewrite traverse_cat_row.
Qed.

Lemma tensor_map_of_matrix {A B} (f : A -> B) (m : matrix A) :
  tensor_map f (of_matrix m) = of_matrix (List.map (List.map f) m).
Proof.
  unfold of_matrix. simpl. f_equal. rewrite !List.map_map.
  apply List.map_ext. intros r. unfold of_row. simpl. f_equal.
  now rewrite !List.map_map.
Qed.

Lemma forallb_is_scalar_inv {A} (ys : list (tensor A)) :
  forallb is_scalar ys = true -> exists r, ys = List.map Scalar r.
Proof.
  induction ys as [|y ys IH]; simpl; intros H.
  - now exists [].
  - apply andb_prop in H as [Hy Hys]. destruct (IH Hys) as [r ->].
    destruct y as [a|]; [| discriminate]. now exists (a :: r).
Qed.

Lemma start_column_replicate start n :
  start_column start n = of_matrix (replicate (Z.to_nat n) [start]).
Proof.
  unfold start_column, py_list_repeat. f_equal.
  induction (Z.to_nat n) as [|k IH]; simpl; [reflexivity | now rewrite IH].
Qed.

Lemma traverse_cat_row_start_inv {A} (s : A) n (rb rows : list (tensor A)) :
  length rb = n ->
  traverse cat_row (zip (List.map of_row (replicate n [s])) rb) = Ok rows ->
  exists m, rb = List.map of_row m /\
            rows = List.map of_row (List.map (cons s) m).
Proof.
  revert rb rows. induction n as [|n IH]; intros rb rows Hlen H.
  - destruct rb; [| discriminate]. inversion H. now exists [].
  - destruct rb as [|y rb]; [discriminate|].
    cbn [replicate List.map zip_with traverse] in H.
    destruct (cat_row (of_row [s], y)) as [row|e] eqn:Hrow; [| discriminate].
    destruct (traverse cat_row (zip (List.map of_row (replicate n [s])) rb))
      as [rows'|e] eqn:Hrows; [| discriminate].
    inversion H; subst rows. clear H.
    injection Hlen as Hlen.
    destruct (IH rb rows' Hlen Hrows) as (m & -> & ->).
    unfold cat_row, of_row in Hrow. simpl in Hrow.
    destruct y as [a|ys]; [discriminate|].
    destruct (forallb is_scalar ys) eqn:Hys; [| discriminate].
    destruct (forallb_is_scalar_inv ys Hys) as [r ->].
    inversion Hrow; subst row. exists (r :: m). split; reflexivity.
Qed.

(** A successful concatenation with the start column: the other operand is
    a matrix with as many rows, and every row gets the start token in
    front. *)
Lemma cat_cols_start_inv start n (seqs w : tensor Z) :
  cat_cols (start_column start n) seqs = Ok w ->
  exists m, seqs = of_matrix m /\ length m = Z.to_nat n /\
            w = of_matrix (List.map (cons start) m).
Proof.
  rewrite start_column_replicate. unfold cat_cols, of_matrix at 1.
  destruct seqs as [a|rb]; [discriminate|].
  rewrite length_map, length_replicate.
  destruct (Nat.eqb_spec (Z.to_nat n) (length rb)) as [Hlen|]; [| discriminate].
  destruct (traverse cat_row _) as [rows|e] eqn:Hrows; [| discriminate].
  intros H. inversion H; subst w. clear H.
  apply traverse_cat_row_start_inv in Hrows as (m & -> & ->); [| auto].
  exists m. rewrite length_map in Hlen. auto.
Qed.

Lemma cat_cols_start_of_matrix start n (m : matrix Z) :
  length m = Z.to_nat n ->
  cat_cols (start_column start n) (of_matrix m) =
  Ok (of_matrix (List.map (cons start) m)).
Proof.
  intros Hlen. rewrite start_column_replicate.
  rewrite cat_cols_of_matrix by (now rewrite length_replicate).
  do 2 f_equal. rewrite <- Hlen. clear Hlen.
  induction m as [|r m IH]; simpl; [reflexivity | now rewrite IH].
Qed.


Lemma bind_lift {S A B} (r : result A) (f : A -> M S B) (s : S) :
  (lift r ≫= f) s = match r with Ok a => f a s | Err e => (Err e, s) end.
Proof. rewrite M_bind_unfold. unfold lift. now destruct r. Qed.

Lemma bind_mret {S A B} (a : A) (f : A -> M S B) (s : S) :
  (mret a ≫= f) s = f a s.
Proof. reflexivity. Qed.

Lemma bind_out_get {B} k (f : value -> M dict B) (s : dict) :
  (out_get k ≫= f) s =
  match s !! k with Some v => f v s | None => (Err (KeyError k), s) end.
Proof.
  rewrite M_bind_unfold. unfold out_get, dict_get. now destruct (s !! k).
Qed.

Lemma preserves_bind_lift {S A B} (r : result A) (f : A -> M S B) :
  (forall a, r = Ok a -> preserves_store (f a)) ->
  preserves_store (lift r ≫= f).
Proof.
  intros Hf s. rewrite bind_lift. destruct r as [a|e]; [| reflexivity].
  now apply Hf.
Qed.

Lemma value_repeat_tensor_ok v n x :
  value_repeat_tensor v n = Ok x -> 0 < n /\ x = value_stack (Z.to_nat n) v.
Proof.
  unfold value_repeat_tensor, repeat_tensor.
  destruct v; try discriminate; destruct (Z.leb_spec n 0) as [Hn|Hn];
    try discriminate; intros Hx; inversion Hx; split; auto; lia.
Qed.

Lemma expand_sample_ok input_dict k i B x :
  expand_sample input_dict k i B = Ok x ->
  exists whole sample,
    input_dict !! k = Some whole /\ value_index whole i = Ok sample /\
    0 < B /\ x = value_stack (Z.to_nat B) sample.
Proof.
  unfold expand_sample. intros H.
  apply result_bind_ok in H as (whole & Hw & H). apply dict_get_ok in Hw.
  apply result_bind_ok in H as (sample & Hs & H).
  apply value_repeat_tensor_ok in H as [HB ->]. eauto 6.
Qed.

Lemma expand_events_ok self input_dict i B x :
  expand_events self input_dict i B = Ok x ->
  exists whole sample,
    per_sample_source self input_dict "events" = Ok whole /\
    value_index whole i = Ok sample /\
    0 < B /\ x = value_stack (Z.to_nat B) sample.
Proof.
  unfold expand_events. intros H.
  apply result_bind_ok in H as (whole & Hw & H).
  apply result_bind_ok in H as (sample & Hs & H).
  apply value_repeat_tensor_ok in H as [HB ->]. eauto 6.
Qed.

Lemma per_sample_source_ne self input_dict k :
  k <> "events" -> per_sample_source self input_dict k = dict_get input_dict k.
Proof.
  intros Hk. unfold per_sample_source.
  destruct (String.eqb_spec k "events"); [contradiction | reflexivity].
Qed.

(** Lookups in a dictionary built by insertions under literal keys. *)
Ltac map_lookup :=
  repeat first
    [ rewrite lookup_insert_eq
    | rewrite lookup_insert_ne by discriminate
    | rewrite lookup_empty ];
  try reflexivity.

Lemma traverse_err {A B} (f : A -> result B) (l : list A) e :
  traverse f l = Err e -> exists a, In a l /\ f a = Err e.
Proof.
  induction l as [|a l IH]; [discriminate|]. cbn [traverse].
  destruct (f a) as [b|e'] eqn:Ea.
  - destruct (traverse f l) as [bs|e'']; [discriminate|].
    intros H. inversion H; subst e''.
    destruct IH as (a' & Hin & Ha'); [reflexivity|].
    exists a'. split; [now right | assumption].
  - intros H. inversion H; subst e'. exists a. split; [now left | assumption].
Qed.

(** The exceptions of the tensor operations are no [KeyError]. *)
Lemma cat_cols_err {A} (a b : tensor A) e :
  cat_cols a b = Err e -> e = RuntimeError.
Proof.
  unfold cat_cols. destruct a as [|ra]; [now inversion 1|].
  destruct b as [|rb]; [now inversion 1|].
  destruct (length ra =? length rb)%nat; [| now inversion 1].
  destruct (traverse cat_row (zip ra rb)) as [rows|e'] eqn:E; [discriminate|].
  intros H. inversion H; subst e'.
  apply traverse_err in E as ([x y] & _ & Hxy). unfold cat_row in Hxy.
  destruct x; [now inversion Hxy|]. destruct y; [now inversion Hxy|].
  destruct (_ && _); now inversion Hxy.
Qed.

Lemma later_word_err start (seqs : value) e :
  (s ← as_long seqs; cat_cols start s) = Err e ->
  e = TypeError \/ e = RuntimeError.
Proof.
  destruct seqs; cbn [as_long]; try (inversion 1; now left).
  rewrite result_bind_ret. intros H. right. now apply cat_cols_err in H.
Qed.

Lemma device_err (input_dict : dict) x e :
  input_dict !! "attn_embs" = Some x ->
  (v ← dict_get input_dict "attn_embs"; value_device v) = Err e ->
  e = AttributeError.
Proof.
  intros Hx. apply dict_get_ok in Hx. rewrite Hx, result_bind_ret.
  destruct x; cbn [value_device]; now inversion 1.
Qed.

Lemma bind_out_set {B} k v (f : unit -> M dict B) (s : dict) :
  (out_set k v ≫= f) s = f tt (<[k := v]> s).
Proof. reflexivity. Qed.

Lemma value_index_repeat whole i sample B :
  value_index whole i = Ok sample -> 0 < B ->
  value_repeat_tensor sample B = Ok (value_stack (Z.to_nat B) sample) /\
  value_device whole = Ok tt.
Proof.
  intros Hidx HB. unfold value_repeat_tensor, repeat_tensor.
  destruct (Z.leb_spec B 0) as [|_]; [lia|].
  destruct whole; try discriminate; cbn [value_index] in Hidx;
    apply result_fmap_ok in Hidx as (x' & _ & ->); auto.
Qed.

Lemma expand_sample_returns input_dict k i B whole sample :
  input_dict !! k = Some whole -> value_index whole i = Ok sample -> 0 < B ->
  expand_sample input_dict k i B = Ok (value_stack (Z.to_nat B) sample).
Proof.
  intros Hk Hidx HB. unfold expand_sample.
  apply dict_get_ok in Hk. rewrite Hk, result_bind_ret, Hidx, result_bind_ret.
  now apply (value_index_repeat whole i).
Qed.

Lemma map_Scalar_inj {A} (r1 r2 : list A) :
  List.map Scalar r1 = List.map Scalar r2 -> r1 = r2.
Proof.
  revert r2. induction r1 as [|a r1 IH]; intros [|b r2] H; try discriminate;
    [reflexivity|].
  injection H as -> H. f_equal. now apply IH.
Qed.

Lemma of_matrix_inj {A} (m1 m2 : matrix A) :
  of_matrix m1 = of_matrix m2 -> m1 = m2.
Proof.
  unfold of_matrix. intros H. injection H as H. revert m2 H.
  induction m1 as [|r1 m1 IH]; intros [|r2 m2] H; try discriminate;
    [reflexivity|].
  cbn [List.map] in H. unfold of_row at 1 3 in H.
  injection H as Hr H. f_equal; [now apply map_Scalar_inj | now apply IH].
Qed.

(** ** Beam search: what a returning call has done *)

Lemma out_get_ok k (s s' : dict) v :
  out_get k s = (Ok v, s') -> s !! k = Some v /\ s' = s.
Proof.
  unfold out_get. intros H. injection H as Hv <-.
  split; [now apply dict_get_ok | reflexivity].
Qed.

Lemma as_long_ok v x : as_long v = Ok x -> v = VLong x.
Proof. destruct v; intros H; inversion H. reflexivity. Qed.

Lemma determine_beam_word_ok self t B (s s' : dict) word :
  determine_beam_word self t B s = (Ok word, s') ->
  s' = s /\
  (if t =? 0 then word = start_column (start_idx self) B
   else exists seqs, s !! "seqs" = Some (VLong seqs) /\
                     cat_cols (start_column (start_idx self) B) seqs = Ok word).
Proof.
  unfold determine_beam_word. destruct (t =? 0); intros H.
  - apply mret_ok in H as [-> ->]. auto.
  - apply M_bind_ok in H as (seqs & s1 & Hseqs & H).
    apply out_get_ok in Hseqs as [Hseqs ->].
    apply lift_ok in H as [H ->].
    apply result_bind_ok in H as (x & Hx & H).
    apply as_long_ok in Hx as ->. eauto.
Qed.

Lemma expansion_step_ok input_dict k1 k2 t i B (s s' : dict) u :
  k1 <> k2 ->
  (if t =? 0 then
     attn_embs ← lift (expand_sample input_dict k1 i B);
     attn_emb_lens ← lift (expand_sample input_dict k2 i B);
     _ ← out_set k1 attn_embs;
     out_set k2 attn_emb_lens
   else mret tt) s = (Ok u, s') ->
  forall ae al,
    s' !! k1 = Some ae -> s' !! k2 = Some al ->
    expansion_of input_dict k1 k2 t i B ae al s s'.
Proof.
  intros Hne H ae al Hae Hal. unfold expansion_of.
  destruct (t =? 0).
  - apply M_bind_ok in H as (ae' & s1 & H1 & H). apply lift_ok in H1 as [H1 ->].
    apply M_bind_ok in H as (al' & s1 & H2 & H). apply lift_ok in H2 as [H2 ->].
    apply M_bind_ok in H as ([] & s1 & H3 & H).
    unfold out_set in H3, H. inversion H3; subst s1. inversion H; subst s'.
    rewrite lookup_insert_ne, lookup_insert_eq in Hae by auto.
    rewrite lookup_insert_eq in Hal.
    inversion Hae; inversion Hal; subst. auto.
  - apply mret_ok in H as [_ ->]. auto.
Qed.

Lemma Transformer_beam_inv self input_dict output_i d output_i' :
  TransformerModel_prepare_beamsearch_decoder_input self input_dict output_i
    = (Ok d, output_i') ->
  exists t i B ae al word,
    input_dict !! "t" = Some (VInt t) /\
    input_dict !! "sample_idx" = Some (VInt i) /\
    input_dict !! "beam_size" = Some (VInt B) /\
    expansion_of input_dict "attn_embs" "attn_emb_lens" t i B ae al
      output_i output_i' /\
    determine_beam_word self t B output_i' = (Ok word, output_i') /\
    d = <["caps_padding_mask" := VBoolT (tensor_eq_int word (pad_idx self))]>
        (<["word" := VLong word]>
         (<["attn_emb_lens" := al]> (<["attn_embs" := ae]> ∅))).
Proof.
  unfold TransformerModel_prepare_beamsearch_decoder_input. intros H.
  apply M_bind_ok in H as (t & s1 & Ht & H). apply lift_ok in Ht as [Ht ->].
  apply M_bind_ok in H as (i & s1 & Hi & H). apply lift_ok in Hi as [Hi ->].
  apply M_bind_ok in H as (B & s1 & HB & H). apply lift_ok in HB as [HB ->].
  apply M_bind_ok in H as ([] & s1 & Hexp & H).
  apply M_bind_ok in H as (ae & s2 & Hae & H).
  apply out_get_ok in Hae as [Hae ->].
  apply M_bind_ok in H as (al & s3 & Hal & H).
  apply out_get_ok in Hal as [Hal ->].
  apply M_bind_ok in H as (word & s4 & Hword & H).
  pose proof (determine_beam_word_ok _ _ _ _ _ _ Hword) as [-> _].
  apply M_bind_ok in H as (u & s5 & Hdev & H).
  apply lift_ok in Hdev as [_ ->]. apply mret_ok in H as [-> ->].
  exists t, i, B, ae, al, word.
  apply get_int_ok in Ht, Hi, HB.
  repeat split; auto.
  eapply expansion_step_ok; eauto; discriminate.
Qed.

Lemma M2Transformer_beam_inv self input_dict output_i d output_i' :
  M2TransformerModel_prepare_beamsearch_decoder_input self input_dict output_i
    = (Ok d, output_i') ->
  exists t i B ae am word,
    input_dict !! "t" = Some (VInt t) /\
    input_dict !! "sample_idx" = Some (VInt i) /\
    input_dict !! "beam_size" = Some (VInt B) /\
    expansion_of input_dict "attn_embs" "attn_emb_mask" t i B ae am
      output_i output_i' /\
    determine_beam_word self t B output_i' = (Ok word, output_i') /\
    d = <["word" := VLong word]>
        (<["attn_emb_mask" := am]> (<["attn_embs" := ae]> ∅)).
Proof.
  unfold M2TransformerModel_prepare_beamsearch_decoder_input. intros H.
  apply M_bind_ok in H as (t & s1 & Ht & H). apply lift_ok in Ht as [Ht ->].
  apply M_bind_ok in H as (i & s1 & Hi & H). apply lift_ok in Hi as [Hi ->].
  apply M_bind_ok in H as (B & s1 & HB & H). apply lift_ok in HB as [HB ->].
  apply M_bind_ok in H as ([] & s1 & Hexp & H).
  apply M_bind_ok in H as (ae & s2 & Hae & H).
  apply out_get_ok in Hae as [Hae ->].
  apply M_bind_ok in H as (am & s3 & Ham & H).
  apply out_get_ok in Ham as [Ham ->].
  apply M_bind_ok in H as (word & s4 & Hword & H).
  pose proof (determine_beam_word_ok _ _ _ _ _ _ Hword) as [-> _].
  apply mret_ok in H as [-> ->].
  exists t, i, B, ae, am, word.
  apply get_int_ok in Ht, Hi, HB.
  repeat split; auto.
  eapply expansion_step_ok; eauto; discriminate.
Qed.

Lemma conditioning_step_ok (compute : result value) k t (s s' : dict) u :
  (if t =? 0 then c ← lift compute; out_set k c else mret tt) s = (Ok u, s') ->
  forall c, s' !! k = Some c -> conditioning_of compute k t c s s'.
Proof.
  intros H c Hc. unfold conditioning_of. destruct (t =? 0).
  - apply M_bind_ok in H as (c' & s1 & H1 & H). apply lift_ok in H1 as [H1 ->].
    unfold out_set in H. inversion H; subst s'.
    rewrite lookup_insert_eq in Hc. inversion Hc; subst. auto.
  - apply mret_ok in H as [_ ->]. auto.
Qed.

Lemma EventCond_beam_inv self input_dict output_i d output_i' :
  EventCondTransformerModel_prepare_beamsearch_decoder_input
    self input_dict output_i = (Ok d, output_i') ->
  exists d0 s1 t i B ev,
    TransformerModel_prepare_beamsearch_decoder_input self input_dict output_i
      = (Ok d0, s1) /\
    input_dict !! "t" = Some (VInt t) /\
    input_dict !! "sample_idx" = Some (VInt i) /\
    input_dict !! "beam_size" = Some (VInt B) /\
    conditioning_of (expand_events self input_dict i B) "events" t ev
      s1 output_i' /\
    d = <["events" := ev]> d0.
Proof.
  unfold EventCondTransformerModel_prepare_beamsearch_decoder_input. intros H.
  apply M_bind_ok in H as (d0 & s1 & Hd0 & H).
  apply M_bind_ok in H as (t & s2 & Ht & H). apply lift_ok in Ht as [Ht ->].
  apply M_bind_ok in H as (i & s2 & Hi & H). apply lift_ok in Hi as [Hi ->].
  apply M_bind_ok in H as (B & s2 & HB & H). apply lift_ok in HB as [HB ->].
  apply M_bind_ok in H as ([] & s2 & Hexp & H).
  apply M_bind_ok in H as (ev & s3 & Hev & H).
  apply out_get_ok in Hev as [Hev ->]. apply mret_ok in H as [-> ->].
  exists d0, s1, t, i, B, ev. apply get_int_ok in Ht, Hi, HB.
  repeat split; auto.
  eapply conditioning_step_ok; eauto.
Qed.

Lemma KeywordCond_beam_inv self input_dict output_i d output_i' :
  KeywordCondTransformerModel_prepare_beamsearch_decoder_input
    self input_dict output_i = (Ok d, output_i') ->
  exists d0 s1 t i B kw,
    TransformerModel_prepare_beamsearch_decoder_input self input_dict output_i
      = (Ok d0, s1) /\
    input_dict !! "t" = Some (VInt t) /\
    input_dict !! "sample_idx" = Some (VInt i) /\
    input_dict !! "beam_size" = Some (VInt B) /\
    conditioning_of (expand_sample input_dict "keywords" i B) "keywords" t kw
      s1 output_i' /\
    d = <["keywords" := kw]> d0.
Proof.
  unfold KeywordCondTransformerModel_prepare_beamsearch_decoder_input.
  intros H.
  apply M_bind_ok in H as (d0 & s1 & Hd0 & H).
  apply M_bind_ok in H as (t & s2 & Ht & H). apply lift_ok in Ht as [Ht ->].
  apply M_bind_ok in H as (i & s2 & Hi & H). apply lift_ok in Hi as [Hi ->].
  apply M_bind_ok in H as (B & s2 & HB & H). apply lift_ok in HB as [HB ->].
  apply M_bind_ok in H as ([] & s2 & Hexp & H).
  apply M_bind_ok in H as (kw & s3 & Hkw & H).
  apply out_get_ok in Hkw as [Hkw ->]. apply mret_ok in H as [-> ->].
  exists d0, s1, t, i, B, kw. apply get_int_ok in Ht, Hi, HB.
  repeat split; auto.
  eapply conditioning_step_ok; eauto.
Qed.

(** The word of a returned record, for every variant. *)
Lemma beam_word_inv v self input_dict output_i d output_i' t B :
  input_dict !! "t" = Some (VInt t) ->
  input_dict !! "beam_size" = Some (VInt B) ->
  prepare_beamsearch_decoder_input v self input_dict output_i
    = (Ok d, output_i') ->
  exists word,
    d !! "word" = Some (VLong word) /\
    (if t =? 0 then word = start_column (start_idx self) B
     else output_i' = output_i /\
          exists seqs, output_i !! "seqs" = Some (VLong seqs) /\
            cat_cols (start_column (start_idx self) B) seqs = Ok word) /\
    (v <> M2Transformer ->
     d !! "caps_padding_mask" =
       Some (VBoolT (tensor_eq_int word (pad_idx self)))).
Proof.
  intros Ht HB H.
  assert (Hprim : forall d0 s1,
    TransformerModel_prepare_beamsearch_decoder_input self input_dict output_i
      = (Ok d0, s1) ->
    exists word,
      d0 !! "word" = Some (VLong word) /\
      (if t =? 0 then word = start_column (start_idx self) B
       else s1 = output_i /\
            exists seqs, output_i !! "seqs" = Some (VLong seqs) /\
              cat_cols (start_column (start_idx self) B) seqs = Ok word) /\
      d0 !! "caps_padding_mask" =
        Some (VBoolT (tensor_eq_int word (pad_idx self)))).
  { intros d0 s1 H0.
    apply Transformer_beam_inv in H0
      as (t' & i & B' & ae & al & word & Ht' & _ & HB' & Hexp & Hw & ->).
    rewrite Ht in Ht'. rewrite HB in HB'. inversion Ht'; inversion HB'.
    subst t' B'. exists word.
    apply determine_beam_word_ok in Hw as [_ Hw].
    unfold expansion_of in Hexp.
    split; [now rewrite lookup_insert_ne, lookup_insert_eq by discriminate|].
    split; [| now rewrite lookup_insert_eq].
    destruct (t =? 0); [assumption|].
    destruct Hexp as (-> & _ & _). auto. }
  destruct v; simpl in H.
  - destruct (Hprim _ _ H) as (word & Hw & Hrule & Hmask). eauto.
  - apply M2Transformer_beam_inv in H
      as (t' & i & B' & ae & al & word & Ht' & _ & HB' & Hexp & Hw & ->).
    rewrite Ht in Ht'. rewrite HB in HB'. inversion Ht'; inversion HB'.
    subst t' B'. exists word.
    apply determine_beam_word_ok in Hw as [_ Hw].
    unfold expansion_of in Hexp.
    split; [now rewrite lookup_insert_eq|].
    split; [| congruence].
    destruct (t =? 0); [assumption|].
    destruct Hexp as (-> & _ & _). auto.
  - apply EventCond_beam_inv in H
      as (d0 & s1 & t' & i & B' & ev & H0 & Ht' & _ & _ & Hc & ->).
    rewrite Ht in Ht'. inversion Ht'; subst t'.
    destruct (Hprim _ _ H0) as (word & Hw & Hrule & Hmask).
    exists word. rewrite !lookup_insert_ne by discriminate.
    repeat split; auto.
    unfold conditioning_of in Hc. destruct (t =? 0); [assumption|].
    destruct Hc as [-> _]. assumption.
  - apply KeywordCond_beam_inv in H
      as (d0 & s1 & t' & i & B' & kw & H0 & Ht' & _ & _ & Hc & ->).
    rewrite Ht in Ht'. inversion Ht'; subst t'.
    destruct (Hprim _ _ H0) as (word & Hw & Hrule & Hmask).
    exists word. rewrite !lookup_insert_ne by discriminate.
    repeat split; auto.
    unfold conditioning_of in Hc. destruct (t =? 0); [assumption|].
    destruct Hc as [-> _]. assumption.
Qed.

(** C1.  A call of [prepare_beamsearch_decoder_input] that returns a
    record, at beam width [B]: at timestep 0 the word tensor is the start
    token broadcast to shape [B, 1]; at a later timestep [t], with a [seqs]
    matrix that holds the tokens generated so far, at most [t] per beam,
    the word tensor is the start-token column followed by the first [t]
    tokens of each beam, [seqs[:, :t]].  The code concatenates [seqs] as
    it is: whatever its width, the word tensor is the start-token column
    followed by the whole of [seqs].  (A tensor without rows has no row
    length in the nested view and is left out.) *)
Theorem beam_word_rule v self input_dict output_i d output_i' t B :
  input_dict !! "t" = Some (VInt t) ->
  input_dict !! "beam_size" = Some (VInt B) ->
  prepare_beamsearch_decoder_input v self input_dict output_i
    = (Ok d, output_i') ->
  (t = 0 ->
   d !! "word" =
     Some (VLong (of_matrix (replicate (Z.to_nat B) [start_idx self])))) /\
  (0 < t ->
   forall m : matrix Z,
     output_i !! "seqs" = Some (VLong (of_matrix m)) ->
     m <> [] ->
     d !! "word" =
       Some (VLong (of_matrix (List.map (cons (start_idx self)) m))) /\
     (Forall (fun r => (length r <= Z.to_nat t)%nat) m ->
      d !! "word" =
        Some (VLong (of_matrix
          (List.map (fun r => start_idx self :: firstn (Z.to_nat t) r) m))))).
Proof.
  intros Ht HB H.
  destruct (beam_word_inv _ _ _ _ _ _ _ _ Ht HB H) as (word & Hw & Hrule & _).
  split.
  - intros ->. simpl in Hrule. subst word.
    now rewrite start_column_replicate in Hw.
  - intros Hpos m Hseqs Hne.
    destruct (Z.eqb_spec t 0) as [|_]; [lia|].
    destruct Hrule as (_ & seqs & Hseqs' & Hcat).
    rewrite Hseqs in Hseqs'. injection Hseqs' as <-.
    apply cat_cols_start_inv in Hcat as (m' & Hm & _ & ->).
    apply of_matrix_inj in Hm. subst m'.
    split; [exact Hw|].
    intros Hall. rewrite Hw. do 3 f_equal.
    apply List.map_ext_in. intros r Hr. f_equal.
    rewrite Forall_forall in Hall. apply list_elem_of_In, Hall in Hr.
    symmetry. apply firstn_all2. exact Hr.
Qed.

(** The rule at a concrete call: step 1 of the sample beam search, one
    token generated per beam. *)
Lemma beam_word_rule_witness :
  returned_word
    (prepare_beamsearch_decoder_input Transformer Sample.self
       (Sample.beam_context 1) (Sample.beam_state [[5]; [7]]))
  = Some (VLong (of_matrix [[1; 5]; [1; 7]])).
Proof.
  destruct (prepare_beamsearch_decoder_input Transformer Sample.self
              (Sample.beam_context 1) (Sample.beam_state [[5]; [7]]))
    as [[d|e] out] eqn:E; [| vm_compute in E; discriminate E].
  destruct (beam_word_rule Transformer Sample.self (Sample.beam_context 1)
              (Sample.beam_state [[5]; [7]]) d out 1 2
              ltac:(reflexivity) ltac:(reflexivity) E) as [_ Hlater].
  destruct (Hlater ltac:(lia) [[5]; [7]] ltac:(reflexivity)
              ltac:(discriminate)) as [_ Hsliced].
  unfold returned_word. cbn [fst].
  apply Hsliced. repeat apply List.Forall_cons; try apply List.Forall_nil;
    vm_compute; lia.
Defined.

(** The first step at beam width 2: one start token per beam. *)
Example beam_word_at_first_step :
  returned_word
    (prepare_beamsearch_decoder_input Transformer Sample.self
       (Sample.beam_context 0) ∅)
  = Some (VLong (of_matrix [[1]; [1]])).
Proof. vm_compute. reflexivity. Qed.

(** The code does not slice: a [seqs] wider than [t] is concatenated
    whole. *)
Example beam_word_whole_seqs :
  returned_word
    (prepare_beamsearch_decoder_input Transformer Sample.self
       (Sample.beam_context 1) (Sample.beam_state [[5; 6]; [7; 8]]))
  = Some (VLong (of_matrix [[1; 5; 6]; [1; 7; 8]])).
Proof. vm_compute. reflexivity. Qed.

(** ** The beam state is written at the first step only *)

Lemma preserves_determine_beam_word self t B :
  preserves_store (determine_beam_word self t B).
Proof.
  unfold determine_beam_word. destruct (t =? 0); auto 6 with frame.
Qed.

Ltac frame_step Ht :=
  first
    [ apply preserves_determine_beam_word
    | apply preserves_lift | apply preserves_mret | apply preserves_out_get
    | apply preserves_bind_lift;
      let a := fresh "a" in let Ha := fresh "Ha" in
      intros a Ha; try (rewrite Ht in Ha; injection Ha as <-)
    | apply preserves_bind; [| intros ?] ].

Lemma preserves_Transformer_beam self input_dict t :
  input_dict !! "t" = Some (VInt t) -> t <> 0 ->
  preserves_store
    (TransformerModel_prepare_beamsearch_decoder_input self input_dict).
Proof.
  intros Ht Hne. apply get_int_ok in Ht.
  apply Z.eqb_neq in Hne.
  unfold TransformerModel_prepare_beamsearch_decoder_input.
  frame_step Ht. rewrite Hne. repeat frame_step Ht.
Qed.

Lemma preserves_M2Transformer_beam self input_dict t :
  input_dict !! "t" = Some (VInt t) -> t <> 0 ->
  preserves_store
    (M2TransformerModel_prepare_beamsearch_decoder_input self input_dict).
Proof.
  intros Ht Hne. apply get_int_ok in Ht.
  apply Z.eqb_neq in Hne.
  unfold M2TransformerModel_prepare_beamsearch_decoder_input.
  frame_step Ht. rewrite Hne. repeat frame_step Ht.
Qed.

Lemma preserves_beam v self input_dict t :
  input_dict !! "t" = Some (VInt t) -> t <> 0 ->
  preserves_store (prepare_beamsearch_decoder_input v self input_dict).
Proof.
  intros Ht Hne. destruct v; simpl.
  - now apply preserves_Transformer_beam with t.
  - now apply preserves_M2Transformer_beam with t.
  - unfold EventCondTransformerModel_prepare_beamsearch_decoder_input.
    apply preserves_bind; [now apply preserves_Transformer_beam with t|].
    intros d0. apply get_int_ok in Ht. apply Z.eqb_neq in Hne.
    frame_step Ht. rewrite Hne. repeat frame_step Ht.
  - unfold KeywordCondTransformerModel_prepare_beamsearch_decoder_input.
    apply preserves_bind; [now apply preserves_Transformer_beam with t|].
    intros d0. apply get_int_ok in Ht. apply Z.eqb_neq in Hne.
    frame_step Ht. rewrite Hne. repeat frame_step Ht.
Qed.

Lemma Transformer_beam_cache self input_dict output_i d s1 t i B :
  input_dict !! "t" = Some (VInt t) ->
  input_dict !! "sample_idx" = Some (VInt i) ->
  input_dict !! "beam_size" = Some (VInt B) ->
  TransformerModel_prepare_beamsearch_decoder_input self input_dict output_i
    = (Ok d, s1) ->
  (t <> 0 ->
   s1 = output_i /\
   read_back output_i d "attn_embs" /\ read_back output_i d "attn_emb_lens") /\
  (t = 0 ->
   0 < B /\
   cached_at_first_step self input_dict i B s1 d "attn_embs" /\
   cached_at_first_step self input_dict i B s1 d "attn_emb_lens" /\
   forall k, k <> "attn_embs" -> k <> "attn_emb_lens" ->
             s1 !! k = output_i !! k).
Proof.
  intros Ht Hi HB H.
  apply Transformer_beam_inv in H
    as (t' & i' & B' & ae & al & word & Ht' & Hi' & HB' & Hexp & _ & ->).
  rewrite Ht in Ht'. rewrite Hi in Hi'. rewrite HB in HB'.
  inversion Ht'; inversion Hi'; inversion HB'. subst t' i' B'.
  unfold expansion_of in Hexp. split; intros Ht0.
  - destruct (Z.eqb_spec t 0) as [|_]; [contradiction|].
    destruct Hexp as (-> & Hae & Hal). split; [reflexivity|].
    split; [exists ae | exists al]; (split; [assumption|]).
    + now rewrite !lookup_insert_ne, lookup_insert_eq by discriminate.
    + now rewrite !lookup_insert_ne, lookup_insert_eq by discriminate.
  - subst t. simpl in Hexp. destruct Hexp as (Hae & Hal & ->).
    apply expand_sample_ok in Hae as (w1 & x1 & Hw1 & Hx1 & Hpos & ->).
    apply expand_sample_ok in Hal as (w2 & x2 & Hw2 & Hx2 & _ & ->).
    split; [assumption|]. split; [| split].
    + exists w1, x1, (value_stack (Z.to_nat B) x1).
      rewrite per_sample_source_ne by discriminate.
      rewrite <- dict_get_ok in Hw1.
      repeat split; auto; try map_lookup.
      now apply (value_index_repeat w1 i).
    + exists w2, x2, (value_stack (Z.to_nat B) x2).
      rewrite per_sample_source_ne by discriminate.
      rewrite <- dict_get_ok in Hw2.
      repeat split; auto; try map_lookup.
      now apply (value_index_repeat w2 i).
    + intros k Hk1 Hk2. now rewrite !lookup_insert_ne by auto.
Qed.

Lemma M2Transformer_beam_cache self input_dict output_i d s1 t i B :
  input_dict !! "t" = Some (VInt t) ->
  input_dict !! "sample_idx" = Some (VInt i) ->
  input_dict !! "beam_size" = Some (VInt B) ->
  M2TransformerModel_prepare_beamsearch_decoder_input self input_dict output_i
    = (Ok d, s1) ->
  (t <> 0 ->
   s1 = output_i /\
   read_back output_i d "attn_embs" /\ read_back output_i d "attn_emb_mask") /\
  (t = 0 ->
   0 < B /\
   cached_at_first_step self input_dict i B s1 d "attn_embs" /\
   cached_at_first_step self input_dict i B s1 d "attn_emb_mask" /\
   forall k, k <> "attn_embs" -> k <> "attn_emb_mask" ->
             s1 !! k = output_i !! k).
Proof.
  intros Ht Hi HB H.
  apply M2Transformer_beam_inv in H
    as (t' & i' & B' & ae & al & word & Ht' & Hi' & HB' & Hexp & _ & ->).
  rewrite Ht in Ht'. rewrite Hi in Hi'. rewrite HB in HB'.
  inversion Ht'; inversion Hi'; inversion HB'. subst t' i' B'.
  unfold expansion_of in Hexp. split; intros Ht0.
  - destruct (Z.eqb_spec t 0) as [|_]; [contradiction|].
    destruct Hexp as (-> & Hae & Hal). split; [reflexivity|].
    split; [exists ae | exists al]; (split; [assumption|]).
    + now rewrite !lookup_insert_ne, lookup_insert_eq by discriminate.
    + now rewrite !lookup_insert_ne, lookup_insert_eq by discriminate.
  - subst t. simpl in Hexp. destruct Hexp as (Hae & Hal & ->).
    apply expand_sample_ok in Hae as (w1 & x1 & Hw1 & Hx1 & Hpos & ->).
    apply expand_sample_ok in Hal as (w2 & x2 & Hw2 & Hx2 & _ & ->).
    split; [assumption|]. split; [| split].
    + exists w1, x1, (value_stack (Z.to_nat B) x1).
      rewrite per_sample_source_ne by discriminate.
      rewrite <- dict_get_ok in Hw1.
      repeat split; auto; try map_lookup.
      now apply (value_index_repeat w1 i).
    + exists w2, x2, (value_stack (Z.to_nat B) x2).
      rewrite per_sample_source_ne by discriminate.
      rewrite <- dict_get_ok in Hw2.
      repeat split; auto; try map_lookup.
      now apply (value_index_repeat w2 i).
    + intros k Hk1 Hk2. now rewrite !lookup_insert_ne by auto.
Qed.

Lemma read_back_insert output_i d k k' c :
  k' <> k -> read_back output_i d k -> read_back output_i (<[k' := c]> d) k.
Proof.
  intros Hne (x & Hx & Hd). exists x. now rewrite lookup_insert_ne.
Qed.

Lemma cached_at_first_step_insert self input_dict i B s d k k' c :
  k' <> k ->
  cached_at_first_step self input_dict i B s d k ->
  cached_at_first_step self input_dict i B (<[k' := c]> s) (<[k' := c]> d) k.
Proof.
  intros Hne (w & x & y & Hw & Hx & Hy & Hs & Hd). exists w, x, y.
  now rewrite !lookup_insert_ne.
Qed.

(** What a call does to the beam state and where the cached fields of a
    returned record come from, in terms of the operations of the code. *)
Lemma beam_cache_rule
    v self input_dict output_i t i B :
  input_dict !! "t" = Some (VInt t) ->
  input_dict !! "sample_idx" = Some (VInt i) ->
  input_dict !! "beam_size" = Some (VInt B) ->
  (t <> 0 ->
   (prepare_beamsearch_decoder_input v self input_dict output_i).2
     = output_i) /\
  (forall d output_i',
     prepare_beamsearch_decoder_input v self input_dict output_i
       = (Ok d, output_i') ->
     (t <> 0 -> Forall (read_back output_i d) (cached_fields v)) /\
     (t = 0 ->
      Forall (cached_at_first_step self input_dict i B output_i' d)
             (cached_fields v) /\
      forall k, k ∉ cached_fields v -> output_i' !! k = output_i !! k)).
Proof.
  intros Ht Hi HB. split.
  { intros Hne. now apply (preserves_beam v self input_dict t). }
  intros d output_i' H. destruct v; simpl in H |- *.
  - destruct (Transformer_beam_cache _ _ _ _ _ _ _ _ Ht Hi HB H)
      as [Hlater Hfirst].
    split; intros Ht0.
    + destruct (Hlater Ht0) as (_ & H1 & H2). repeat constructor; auto.
    + destruct (Hfirst Ht0) as (Hpos & H1 & H2 & Hframe).
      split; [repeat constructor; auto|].
      intros k Hk. apply Hframe; intros ->; apply Hk; repeat constructor.
  - destruct (M2Transformer_beam_cache _ _ _ _ _ _ _ _ Ht Hi HB H)
      as [Hlater Hfirst].
    split; intros Ht0.
    + destruct (Hlater Ht0) as (_ & H1 & H2). repeat constructor; auto.
    + destruct (Hfirst Ht0) as (Hpos & H1 & H2 & Hframe).
      split; [repeat constructor; auto|].
      intros k Hk. apply Hframe; intros ->; apply Hk; repeat constructor.
  - apply EventCond_beam_inv in H
      as (d0 & s1 & t' & i' & B' & ev & H0 & Ht' & Hi' & HB' & Hc & ->).
    rewrite Ht in Ht'. rewrite Hi in Hi'. rewrite HB in HB'.
    inversion Ht'; inversion Hi'; inversion HB'. subst t' i' B'.
    destruct (Transformer_beam_cache _ _ _ _ _ _ _ _ Ht Hi HB H0)
      as [Hlater Hfirst].
    unfold conditioning_of in Hc. split; intros Ht0.
    + destruct (Z.eqb_spec t 0) as [|_]; [contradiction|].
      destruct Hc as [-> Hev]. destruct (Hlater Ht0) as (-> & H1 & H2).
      repeat constructor.
      * apply read_back_insert; [discriminate | assumption].
      * apply read_back_insert; [discriminate | assumption].
      * exists ev. split; [assumption | map_lookup].
    + subst t. simpl in Hc. destruct Hc as [Hev ->].
      destruct (Hfirst eq_refl) as (Hpos & H1 & H2 & Hframe).
      split.
      * repeat constructor.
        -- apply cached_at_first_step_insert; [discriminate | assumption].
        -- apply cached_at_first_step_insert; [discriminate | assumption].
        -- apply expand_events_ok in Hev as (w & x & Hw & Hx & _ & ->).
           exists w, x, (value_stack (Z.to_nat B) x).
           repeat split; auto; try map_lookup.
           now apply (value_index_repeat w i).
      * intros k Hk. rewrite lookup_insert_ne by (intros <-; apply Hk; repeat constructor).
        apply Hframe; intros ->; apply Hk; repeat constructor.
  - apply KeywordCond_beam_inv in H
      as (d0 & s1 & t' & i' & B' & kw & H0 & Ht' & Hi' & HB' & Hc & ->).
    rewrite Ht in Ht'. rewrite Hi in Hi'. rewrite HB in HB'.
    inversion Ht'; inversion Hi'; inversion HB'. subst t' i' B'.
    destruct (Transformer_beam_cache _ _ _ _ _ _ _ _ Ht Hi HB H0)
      as [Hlater Hfirst].
    unfold conditioning_of in Hc. split; intros Ht0.
    + destruct (Z.eqb_spec t 0) as [|_]; [contradiction|].
      destruct Hc as [-> Hkw]. destruct (Hlater Ht0) as (-> & H1 & H2).
      repeat constructor.
      * apply read_back_insert; [discriminate | assumption].
      * apply read_back_insert; [discriminate | assumption].
      * exists kw. split; [assumption | map_lookup].
    + subst t. simpl in Hc. destruct Hc as [Hkw ->].
      destruct (Hfirst eq_refl) as (Hpos & H1 & H2 & Hframe).
      split.
      * repeat constructor.
        -- apply cached_at_first_step_insert; [discriminate | assumption].
        -- apply cached_at_first_step_insert; [discriminate | assumption].
        -- apply expand_sample_ok in Hkw as (w & x & Hw & Hx & _ & ->).
           exists w, x, (value_stack (Z.to_nat B) x).
           rewrite per_sample_source_ne by discriminate.
           rewrite <- dict_get_ok in Hw.
           repeat split; auto; try map_lookup.
           now apply (value_index_repeat w i).
      * intros k Hk. rewrite lookup_insert_ne by (intros <-; apply Hk; repeat constructor).
        apply Hframe; intros ->; apply Hk; repeat constructor.
Qed.

(** ** A later step needs the cache *)

(** The primary variant at a later step, lookup by lookup. *)
Lemma Transformer_beam_later self input_dict output_i t i B :
  input_dict !! "t" = Some (VInt t) ->
  input_dict !! "sample_idx" = Some (VInt i) ->
  input_dict !! "beam_size" = Some (VInt B) ->
  t <> 0 ->
  TransformerModel_prepare_beamsearch_decoder_input self input_dict output_i =
  match output_i !! "attn_embs" with
  | None => (Err (KeyError "attn_embs"), output_i)
  | Some ae =>
  match output_i !! "attn_emb_lens" with
  | None => (Err (KeyError "attn_emb_lens"), output_i)
  | Some al =>
  match output_i !! "seqs" with
  | None => (Err (KeyError "seqs"), output_i)
  | Some seqs =>
  match s ← as_long seqs; cat_cols (start_column (start_idx self) B) s with
  | Err e => (Err e, output_i)
  | Ok word =>
  match v ← dict_get input_dict "attn_embs"; value_device v with
  | Err e => (Err e, output_i)
  | Ok _ =>
      (Ok (<["caps_padding_mask" :=
               VBoolT (tensor_eq_int word (pad_idx self))]>
           (<["word" := VLong word]>
            (<["attn_emb_lens" := al]> (<["attn_embs" := ae]> ∅)))),
       output_i)
  end end end end end.
Proof.
  intros Ht Hi HB Hne.
  apply get_int_ok in Ht, Hi, HB. apply Z.eqb_neq in Hne.
  unfold TransformerModel_prepare_beamsearch_decoder_input.
  rewrite bind_lift, Ht, bind_lift, Hi, bind_lift, HB, Hne, bind_mret.
  rewrite bind_out_get. destruct (output_i !! "attn_embs"); [| reflexivity].
  rewrite bind_out_get. destruct (output_i !! "attn_emb_lens"); [| reflexivity].
  rewrite M_bind_unfold. unfold determine_beam_word. rewrite Hne.
  rewrite bind_out_get. destruct (output_i !! "seqs"); [| reflexivity].
  unfold lift at 1.
  destruct (_ ← as_long _; _) as [word|e]; [| reflexivity].
  rewrite bind_lift.
  destruct (_ ← dict_get _ _; _) as [u|e]; reflexivity.
Qed.

Lemma M2Transformer_beam_later self input_dict output_i t i B :
  input_dict !! "t" = Some (VInt t) ->
  input_dict !! "sample_idx" = Some (VInt i) ->
  input_dict !! "beam_size" = Some (VInt B) ->
  t <> 0 ->
  M2TransformerModel_prepare_beamsearch_decoder_input self input_dict output_i =
  match output_i !! "attn_embs" with
  | None => (Err (KeyError "attn_embs"), output_i)
  | Some ae =>
  match output_i !! "attn_emb_mask" with
  | None => (Err (KeyError "attn_emb_mask"), output_i)
  | Some am =>
  match output_i !! "seqs" with
  | None => (Err (KeyError "seqs"), output_i)
  | Some seqs =>
  match s ← as_long seqs; cat_cols (start_column (start_idx self) B) s with
  | Err e => (Err e, output_i)
  | Ok word =>
      (Ok (<["word" := VLong word]>
           (<["attn_emb_mask" := am]> (<["attn_embs" := ae]> ∅))),
       output_i)
  end end end end.
Proof.
  intros Ht Hi HB Hne.
  apply get_int_ok in Ht, Hi, HB. apply Z.eqb_neq in Hne.
  unfold M2TransformerModel_prepare_beamsearch_decoder_input.
  rewrite bind_lift, Ht, bind_lift, Hi, bind_lift, HB, Hne, bind_mret.
  rewrite bind_out_get. destruct (output_i !! "attn_embs"); [| reflexivity].
  rewrite bind_out_get. destruct (output_i !! "attn_emb_mask"); [| reflexivity].
  rewrite M_bind_unfold. unfold determine_beam_word. rewrite Hne.
  rewrite bind_out_get. destruct (output_i !! "seqs"); [| reflexivity].
  unfold lift at 1.
  destruct (_ ← as_long _; _) as [word|e]; reflexivity.
Qed.

(** A subclass at a later step: the parent's call, then one more lookup. *)
Lemma EventCond_beam_later self input_dict output_i t i B :
  input_dict !! "t" = Some (VInt t) ->
  input_dict !! "sample_idx" = Some (VInt i) ->
  input_dict !! "beam_size" = Some (VInt B) ->
  t <> 0 ->
  EventCondTransformerModel_prepare_beamsearch_decoder_input
    self input_dict output_i =
  match TransformerModel_prepare_beamsearch_decoder_input
          self input_dict output_i with
  | (Err e, s1) => (Err e, s1)
  | (Ok d0, s1) =>
      match s1 !! "events" with
      | None => (Err (KeyError "events"), s1)
      | Some ev => (Ok (<["events" := ev]> d0), s1)
      end
  end.
Proof.
  intros Ht Hi HB Hne.
  apply get_int_ok in Ht, Hi, HB. apply Z.eqb_neq in Hne.
  unfold EventCondTransformerModel_prepare_beamsearch_decoder_input.
  rewrite M_bind_unfold.
  destruct (TransformerModel_prepare_beamsearch_decoder_input _ _ _)
    as [[d0|e] s1]; [| reflexivity].
  rewrite bind_lift, Ht, bind_lift, Hi, bind_lift, HB, Hne, bind_mret.
  rewrite bind_out_get. destruct (s1 !! "events"); reflexivity.
Qed.

Lemma KeywordCond_beam_later self input_dict output_i t i B :
  input_dict !! "t" = Some (VInt t) ->
  input_dict !! "sample_idx" = Some (VInt i) ->
  input_dict !! "beam_size" = Some (VInt B) ->
  t <> 0 ->
  KeywordCondTransformerModel_prepare_beamsearch_decoder_input
    self input_dict output_i =
  match TransformerModel_prepare_beamsearch_decoder_input
          self input_dict output_i with
  | (Err e, s1) => (Err e, s1)
  | (Ok d0, s1) =>
      match s1 !! "keywords" with
      | None => (Err (KeyError "keywords"), s1)
      | Some kw => (Ok (<["keywords" := kw]> d0), s1)
      end
  end.
Proof.
  intros Ht Hi HB Hne.
  apply get_int_ok in Ht, Hi, HB. apply Z.eqb_neq in Hne.
  unfold KeywordCondTransformerModel_prepare_beamsearch_decoder_input.
  rewrite M_bind_unfold.
  destruct (TransformerModel_prepare_beamsearch_decoder_input _ _ _)
    as [[d0|e] s1]; [| reflexivity].
  rewrite bind_lift, Ht, bind_lift, Hi, bind_lift, HB, Hne, bind_mret.
  rewrite bind_out_get. destruct (s1 !! "keywords"); reflexivity.
Qed.

Lemma primary_beam_later_missing self input_dict output_i t i B :
  input_dict !! "t" = Some (VInt t) ->
  input_dict !! "sample_idx" = Some (VInt i) ->
  input_dict !! "beam_size" = Some (VInt B) ->
  t <> 0 ->
  Exists (fun k => output_i !! k = None)
         ["attn_embs"; "attn_emb_lens"; "seqs"] ->
  Exists (fun k => output_i !! k = None /\
            TransformerModel_prepare_beamsearch_decoder_input
              self input_dict output_i = (Err (KeyError k), output_i))
         ["attn_embs"; "attn_emb_lens"; "seqs"].
Proof.
  intros Ht Hi HB Hne Hmiss.
  rewrite (Transformer_beam_later _ _ _ _ _ _ Ht Hi HB Hne).
  destruct (output_i !! "attn_embs") eqn:E1;
    [| apply Exists_cons_hd; auto].
  destruct (output_i !! "attn_emb_lens") eqn:E2;
    [| apply Exists_cons_tl, Exists_cons_hd; auto].
  destruct (output_i !! "seqs") eqn:E3;
    [| apply Exists_cons_tl, Exists_cons_tl, Exists_cons_hd; auto].
  exfalso. rewrite !Exists_cons, Exists_nil in Hmiss.
  destruct Hmiss as [H|[H|[H|[]]]]; congruence.
Qed.

(** C10.  At a timestep other than 0, for every variant: when the beam
    state holds the cached fields and [seqs], and the step context the
    [attn_embs] whose device is read, no lookup of the call raises
    [KeyError]; when moreover [seqs] is a matrix with one row per beam and
    [attn_embs] a tensor, the call returns a record; when one of
    [attn_embs], [attn_emb_lens] (or [attn_emb_mask]) and [seqs] is missing
    from the beam state, the call raises [KeyError] for a missing one of
    them and returns no record. *)
Theorem beam_later_step_needs_cache v self input_dict output_i t i B :
  input_dict !! "t" = Some (VInt t) ->
  input_dict !! "sample_idx" = Some (VInt i) ->
  input_dict !! "beam_size" = Some (VInt B) ->
  t <> 0 ->
  (Forall (fun k => is_Some (output_i !! k)) (cached_fields v) ->
   is_Some (output_i !! "seqs") ->
   is_Some (input_dict !! "attn_embs") ->
   forall k,
     (prepare_beamsearch_decoder_input v self input_dict output_i).1
       <> Err (KeyError k)) /\
  (Forall (fun k => is_Some (output_i !! k)) (cached_fields v) ->
   (exists m : matrix Z,
      output_i !! "seqs" = Some (VLong (of_matrix m)) /\
      length m = Z.to_nat B) ->
   (v <> M2Transformer ->
    exists x, input_dict !! "attn_embs" = Some x /\ value_device x = Ok tt) ->
   exists d,
     prepare_beamsearch_decoder_input v self input_dict output_i
       = (Ok d, output_i)) /\
  (Exists (fun k => output_i !! k = None) (read_fields v) ->
   Exists (fun k => output_i !! k = None /\
             prepare_beamsearch_decoder_input v self input_dict output_i
               = (Err (KeyError k), output_i))
          (read_fields v)).
Proof.
  intros Ht Hi HB Hne.
  assert (Hprim :
    Forall (fun k => is_Some (output_i !! k)) ["attn_embs"; "attn_emb_lens"] ->
    (exists m : matrix Z,
       output_i !! "seqs" = Some (VLong (of_matrix m)) /\
       length m = Z.to_nat B) ->
    (exists x, input_dict !! "attn_embs" = Some x /\ value_device x = Ok tt) ->
    exists d0,
      TransformerModel_prepare_beamsearch_decoder_input
        self input_dict output_i = (Ok d0, output_i)).
  { intros Hc (m & Hseqs & Hlen) (x & Hx & Hdev).
    rewrite (Transformer_beam_later _ _ _ _ _ _ Ht Hi HB Hne).
    rewrite !Forall_cons in Hc. destruct Hc as ([ae ->] & [al ->] & _).
    rewrite Hseqs. simpl as_long. rewrite result_bind_ret.
    rewrite cat_cols_start_of_matrix by assumption.
    apply dict_get_ok in Hx. rewrite Hx, result_bind_ret, Hdev. eauto. }
  assert (Hsub : forall f : dict -> dict -> result dict * dict,
    Exists (fun k => output_i !! k = None)
           ["attn_embs"; "attn_emb_lens"; "seqs"] ->
    Exists (fun k => output_i !! k = None /\
              match TransformerModel_prepare_beamsearch_decoder_input
                      self input_dict output_i with
              | (Err e, s1) => (Err e, s1)
              | (Ok d0, s1) => f d0 s1
              end = (Err (KeyError k), output_i))
           ["attn_embs"; "attn_emb_lens"; "seqs"]).
  { intros f Hmiss.
    pose proof (primary_beam_later_missing self _ _ _ _ _ Ht Hi HB Hne Hmiss)
      as Hex.
    eapply Exists_impl; [exact Hex|]. intros k [Hk ->]. auto. }
  assert (Hnokey :
    Forall (fun k => is_Some (output_i !! k)) ["attn_embs"; "attn_emb_lens"] ->
    is_Some (output_i !! "seqs") ->
    is_Some (input_dict !! "attn_embs") ->
    (exists e, TransformerModel_prepare_beamsearch_decoder_input
                 self input_dict output_i = (Err e, output_i) /\
               forall k, e <> KeyError k) \/
    (exists d0, TransformerModel_prepare_beamsearch_decoder_input
                  self input_dict output_i = (Ok d0, output_i))).
  { intros Hc [seqs Hseqs] [x Hx].
    rewrite (Transformer_beam_later _ _ _ _ _ _ Ht Hi HB Hne).
    rewrite !Forall_cons in Hc. destruct Hc as ([ae ->] & [al ->] & _).
    rewrite Hseqs.
    destruct (_ ← as_long seqs; _) as [word|e] eqn:Ew.
    - destruct (_ ← dict_get input_dict _; _) as [u|e] eqn:Ed; [eauto|].
      left. exists e. split; [reflexivity|].
      apply (device_err _ _ _ Hx) in Ed. subst e. discriminate.
    - left. exists e. split; [reflexivity|].
      apply later_word_err in Ew as [-> | ->]; discriminate. }
  split; [| destruct v; simpl].
  - intros Hc Hseqs Hin k. destruct v; simpl in Hc |- *.
    + destruct (Hnokey Hc Hseqs Hin) as [(e & -> & He) | (d0 & ->)]; simpl;
        [intros H; inversion H; now apply (He k) | discriminate].
    + destruct Hseqs as [seqs Hseqs].
      rewrite (M2Transformer_beam_later _ _ _ _ _ _ Ht Hi HB Hne).
      rewrite !Forall_cons in Hc. destruct Hc as ([ae ->] & [am ->] & _).
      rewrite Hseqs.
      destruct (_ ← as_long seqs; _) as [word|e] eqn:Ew; simpl;
        [discriminate|].
      apply later_word_err in Ew as [-> | ->]; discriminate.
    + rewrite (EventCond_beam_later _ _ _ _ _ _ Ht Hi HB Hne).
      rewrite !Forall_cons in Hc. destruct Hc as (H1 & H2 & [ev Hev] & _).
      assert (Hc' : Forall (fun k => is_Some (output_i !! k))
                           ["attn_embs"; "attn_emb_lens"]).
      { rewrite !Forall_cons, Forall_nil. auto. }
      destruct (Hnokey Hc' Hseqs Hin) as [(e & -> & He) | (d0 & ->)].
      * simpl. intros H; inversion H; now apply (He k).
      * rewrite Hev. discriminate.
    + rewrite (KeywordCond_beam_later _ _ _ _ _ _ Ht Hi HB Hne).
      rewrite !Forall_cons in Hc. destruct Hc as (H1 & H2 & [kw Hkw] & _).
      assert (Hc' : Forall (fun k => is_Some (output_i !! k))
                           ["attn_embs"; "attn_emb_lens"]).
      { rewrite !Forall_cons, Forall_nil. auto. }
      destruct (Hnokey Hc' Hseqs Hin) as [(e & -> & He) | (d0 & ->)].
      * simpl. intros H; inversion H; now apply (He k).
      * rewrite Hkw. discriminate.
  - split.
    + intros Hc Hseqs Hin. apply Hprim; auto; apply Hin; discriminate.
    + now apply (primary_beam_later_missing self _ _ t i B).
  - split.
    + intros Hc (m & Hseqs & Hlen) _.
      rewrite (M2Transformer_beam_later _ _ _ _ _ _ Ht Hi HB Hne).
      rewrite !Forall_cons in Hc. destruct Hc as ([ae ->] & [am ->] & _).
      rewrite Hseqs. simpl as_long. rewrite result_bind_ret.
      rewrite cat_cols_start_of_matrix by assumption. eauto.
    + intros Hmiss.
      rewrite (M2Transformer_beam_later _ _ _ _ _ _ Ht Hi HB Hne).
      destruct (output_i !! "attn_embs") eqn:E1;
        [| apply Exists_cons_hd; auto].
      destruct (output_i !! "attn_emb_mask") eqn:E2;
        [| apply Exists_cons_tl, Exists_cons_hd; auto].
      destruct (output_i !! "seqs") eqn:E3;
        [| apply Exists_cons_tl, Exists_cons_tl, Exists_cons_hd; auto].
      exfalso. rewrite !Exists_cons, Exists_nil in Hmiss.
      destruct Hmiss as [H|[H|[H|[]]]]; congruence.
  - rewrite (EventCond_beam_later _ _ _ _ _ _ Ht Hi HB Hne). split.
    + intros Hc Hseqs Hin. rewrite !Forall_cons in Hc.
      destruct Hc as (H1 & H2 & [ev Hev] & _).
      assert (Hp : exists d0,
        TransformerModel_prepare_beamsearch_decoder_input
          self input_dict output_i = (Ok d0, output_i)).
      { apply Hprim;
          [ rewrite !Forall_cons, Forall_nil; auto
          | assumption
          | apply Hin; discriminate ]. }
      destruct Hp as [d0 ->]. rewrite Hev. eauto.
    + apply Hsub.
  - rewrite (KeywordCond_beam_later _ _ _ _ _ _ Ht Hi HB Hne). split.
    + intros Hc Hseqs Hin. rewrite !Forall_cons in Hc.
      destruct Hc as (H1 & H2 & [kw Hkw] & _).
      assert (Hp : exists d0,
        TransformerModel_prepare_beamsearch_decoder_input
          self input_dict output_i = (Ok d0, output_i)).
      { apply Hprim;
          [ rewrite !Forall_cons, Forall_nil; auto
          | assumption
          | apply Hin; discriminate ]. }
      destruct Hp as [d0 ->]. rewrite Hkw. eauto.
    + apply Hsub.
Qed.

(** The rule at two concrete calls: step 1 on the sample beam state
    returns; step 1 on an empty beam state raises [KeyError]. *)
Lemma beam_later_step_witness :
  Exists (fun k =>
            (∅ : dict) !! k = None /\
            prepare_beamsearch_decoder_input M2Transformer Sample.self
              (Sample.beam_context 1) ∅ = (Err (KeyError k), ∅))
         (read_fields M2Transformer).
Proof.
  apply (proj2 (proj2 (beam_later_step_needs_cache M2Transformer Sample.self
                  (Sample.beam_context 1) ∅ 1 0 2
                  ltac:(vm_compute; reflexivity)
                  ltac:(vm_compute; reflexivity)
                  ltac:(vm_compute; reflexivity)
                  ltac:(discriminate)))).
  apply Exists_cons_hd. reflexivity.
Defined.

(** ** The first step returns *)

Lemma Transformer_beam_first self input_dict output_i i B :
  input_dict !! "t" = Some (VInt 0) ->
  input_dict !! "sample_idx" = Some (VInt i) ->
  input_dict !! "beam_size" = Some (VInt B) ->
  TransformerModel_prepare_beamsearch_decoder_input self input_dict output_i =
  match expand_sample input_dict "attn_embs" i B with
  | Err e => (Err e, output_i)
  | Ok ae =>
  match expand_sample input_dict "attn_emb_lens" i B with
  | Err e => (Err e, output_i)
  | Ok al =>
  let output_i' := <["attn_emb_lens" := al]> (<["attn_embs" := ae]> output_i) in
  let word := start_column (start_idx self) B in
  match v ← dict_get input_dict "attn_embs"; value_device v with
  | Err e => (Err e, output_i')
  | Ok _ =>
      (Ok (<["caps_padding_mask" :=
               VBoolT (tensor_eq_int word (pad_idx self))]>
           (<["word" := VLong word]>
            (<["attn_emb_lens" := al]> (<["attn_embs" := ae]> ∅)))),
       output_i')
  end end end.
Proof.
  intros Ht Hi HB. apply get_int_ok in Ht, Hi, HB.
  unfold TransformerModel_prepare_beamsearch_decoder_input.
  rewrite bind_lift, Ht, bind_lift, Hi, bind_lift, HB.
  cbn [Z.eqb]. rewrite M_bind_unfold, bind_lift.
  destruct (expand_sample input_dict "attn_embs" i B) as [ae|e];
    [| reflexivity].
  rewrite bind_lift.
  destruct (expand_sample input_dict "attn_emb_lens" i B) as [al|e];
    [| reflexivity].
  rewrite bind_out_set. unfold out_set at 1.
  rewrite bind_out_get. rewrite lookup_insert_ne, lookup_insert_eq
    by discriminate.
  rewrite bind_out_get, lookup_insert_eq.
  rewrite M_bind_unfold. unfold determine_beam_word. cbn [Z.eqb].
  unfold mret at 1, M_mret, M_ret. rewrite bind_lift. cbv zeta.
  destruct (_ ← dict_get input_dict _; _) as [u|e]; reflexivity.
Qed.

Lemma M2Transformer_beam_first self input_dict output_i i B :
  input_dict !! "t" = Some (VInt 0) ->
  input_dict !! "sample_idx" = Some (VInt i) ->
  input_dict !! "beam_size" = Some (VInt B) ->
  M2TransformerModel_prepare_beamsearch_decoder_input self input_dict output_i =
  match expand_sample input_dict "attn_embs" i B with
  | Err e => (Err e, output_i)
  | Ok ae =>
  match expand_sample input_dict "attn_emb_mask" i B with
  | Err e => (Err e, output_i)
  | Ok am =>
      (Ok (<["word" := VLong (start_column (start_idx self) B)]>
           (<["attn_emb_mask" := am]> (<["attn_embs" := ae]> ∅))),
       <["attn_emb_mask" := am]> (<["attn_embs" := ae]> output_i))
  end end.
Proof.
  intros Ht Hi HB. apply get_int_ok in Ht, Hi, HB.
  unfold M2TransformerModel_prepare_beamsearch_decoder_input.
  rewrite bind_lift, Ht, bind_lift, Hi, bind_lift, HB.
  cbn [Z.eqb]. rewrite M_bind_unfold, bind_lift.
  destruct (expand_sample input_dict "attn_embs" i B) as [ae|e];
    [| reflexivity].
  rewrite bind_lift.
  destruct (expand_sample input_dict "attn_emb_mask" i B) as [am|e];
    [| reflexivity].
  rewrite bind_out_set. unfold out_set at 1.
  rewrite bind_out_get. rewrite lookup_insert_ne, lookup_insert_eq
    by discriminate.
  rewrite bind_out_get, lookup_insert_eq.
  reflexivity.
Qed.

Lemma EventCond_beam_first self input_dict output_i i B :
  input_dict !! "t" = Some (VInt 0) ->
  input_dict !! "sample_idx" = Some (VInt i) ->
  input_dict !! "beam_size" = Some (VInt B) ->
  EventCondTransformerModel_prepare_beamsearch_decoder_input
    self input_dict output_i =
  match TransformerModel_prepare_beamsearch_decoder_input
          self input_dict output_i with
  | (Err e, s1) => (Err e, s1)
  | (Ok d0, s1) =>
      match expand_events self input_dict i B with
      | Err e => (Err e, s1)
      | Ok ev => (Ok (<["events" := ev]> d0), <["events" := ev]> s1)
      end
  end.
Proof.
  intros Ht Hi HB. apply get_int_ok in Ht, Hi, HB.
  unfold EventCondTransformerModel_prepare_beamsearch_decoder_input.
  rewrite M_bind_unfold.
  destruct (TransformerModel_prepare_beamsearch_decoder_input _ _ _)
    as [[d0|e] s1]; [| reflexivity].
  rewrite bind_lift, Ht, bind_lift, Hi, bind_lift, HB.
  cbn [Z.eqb]. rewrite M_bind_unfold, bind_lift.
  destruct (expand_events self input_dict i B) as [ev|e]; [| reflexivity].
  unfold out_set. rewrite bind_out_get, lookup_insert_eq. reflexivity.
Qed.

Lemma KeywordCond_beam_first self input_dict output_i i B :
  input_dict !! "t" = Some (VInt 0) ->
  input_dict !! "sample_idx" = Some (VInt i) ->
  input_dict !! "beam_size" = Some (VInt B) ->
  KeywordCondTransformerModel_prepare_beamsearch_decoder_input
    self input_dict output_i =
  match TransformerModel_prepare_beamsearch_decoder_input
          self input_dict output_i with
  | (Err e, s1) => (Err e, s1)
  | (Ok d0, s1) =>
      match expand_sample input_dict "keywords" i B with
      | Err e => (Err e, s1)
      | Ok kw => (Ok (<["keywords" := kw]> d0), <["keywords" := kw]> s1)
      end
  end.
Proof.
  intros Ht Hi HB. apply get_int_ok in Ht, Hi, HB.
  unfold KeywordCondTransformerModel_prepare_beamsearch_decoder_input.
  rewrite M_bind_unfold.
  destruct (TransformerModel_prepare_beamsearch_decoder_input _ _ _)
    as [[d0|e] s1]; [| reflexivity].
  rewrite bind_lift, Ht, bind_lift, Hi, bind_lift, HB.
  cbn [Z.eqb]. rewrite M_bind_unfold, bind_lift.
  destruct (expand_sample input_dict "keywords" i B) as [kw|e];
    [| reflexivity].
  unfold out_set. rewrite bind_out_get, lookup_insert_eq. reflexivity.
Qed.

(** With a positive beam width and sample [i] present in every source, the
    first step returns a record, for every variant. *)
Lemma beam_first_step_returns v self input_dict output_i i B :
  input_dict !! "t" = Some (VInt 0) ->
  input_dict !! "sample_idx" = Some (VInt i) ->
  input_dict !! "beam_size" = Some (VInt B) ->
  0 < B ->
  Forall (fun k => exists whole sample,
            per_sample_source self input_dict k = Ok whole /\
            value_index whole i = Ok sample) (cached_fields v) ->
  exists d output_i',
    prepare_beamsearch_decoder_input v self input_dict output_i
      = (Ok d, output_i').
Proof.
  intros Ht Hi HB Hpos Hsrc.
  assert (Hexp : forall k, k <> "events" ->
    (exists whole sample,
       per_sample_source self input_dict k = Ok whole /\
       value_index whole i = Ok sample) ->
    exists x whole, expand_sample input_dict k i B = Ok x /\
                    input_dict !! k = Some whole /\
                    value_device whole = Ok tt).
  { intros k Hk (whole & sample & Hw & Hs).
    rewrite per_sample_source_ne in Hw by assumption.
    apply dict_get_ok in Hw.
    exists (value_stack (Z.to_nat B) sample), whole.
    split; [now apply (expand_sample_returns _ _ _ _ whole) |].
    split; [assumption | now apply (value_index_repeat whole i sample B)]. }
  assert (Hprim :
    Forall (fun k => exists whole sample,
              per_sample_source self input_dict k = Ok whole /\
              value_index whole i = Ok sample)
           ["attn_embs"; "attn_emb_lens"] ->
    exists d0 s1,
      TransformerModel_prepare_beamsearch_decoder_input
        self input_dict output_i = (Ok d0, s1)).
  { intros Hc. rewrite !Forall_cons in Hc. destruct Hc as (H1 & H2 & _).
    apply Hexp in H1 as (ae & whole & H1 & Hw & Hdev); [| discriminate].
    apply Hexp in H2 as (al & _ & H2 & _); [| discriminate].
    rewrite (Transformer_beam_first _ _ _ _ _ Ht Hi HB), H1, H2. cbv zeta.
    apply dict_get_ok in Hw. rewrite Hw, result_bind_ret, Hdev. eauto. }
  destruct v; simpl in Hsrc |- *.
  - auto.
  - rewrite !Forall_cons in Hsrc. destruct Hsrc as (H1 & H2 & _).
    apply Hexp in H1 as (ae & _ & H1 & _); [| discriminate].
    apply Hexp in H2 as (am & _ & H2 & _); [| discriminate].
    rewrite (M2Transformer_beam_first _ _ _ _ _ Ht Hi HB), H1, H2. eauto.
  - rewrite !Forall_cons in Hsrc.
    destruct Hsrc as (H1 & H2 & (whole & sample & Hw & Hs) & _).
    destruct Hprim as (d0 & s1 & Hp).
    { rewrite !Forall_cons, Forall_nil. auto. }
    rewrite (EventCond_beam_first _ _ _ _ _ Ht Hi HB), Hp.
    unfold expand_events. unfold per_sample_source in Hw. simpl in Hw.
    rewrite Hw, result_bind_ret, Hs, result_bind_ret.
    destruct (value_index_repeat whole i sample B Hs Hpos) as [-> _]. eauto.
  - rewrite !Forall_cons in Hsrc. destruct Hsrc as (H1 & H2 & H3 & _).
    destruct Hprim as (d0 & s1 & Hp).
    { rewrite !Forall_cons, Forall_nil. auto. }
    apply Hexp in H3 as (kw & _ & H3 & _); [| discriminate].
    rewrite (KeywordCond_beam_first _ _ _ _ _ Ht Hi HB), Hp, H3. eauto.
Qed.

(** The first step of every variant on the sample batch fills the cache
    with the fields of the sample beam state. *)
Example beam_first_step_fills_cache :
  Forall (fun v =>
            Forall (fun k =>
                      (prepare_beamsearch_decoder_input v Sample.self
                         (Sample.beam_context 0) ∅).2 !! k
                      = Sample.beam_state [] !! k) (cached_fields v))
         [Transformer; M2Transformer; EventCondTransformer;
          KeywordCondTransformer].
Proof. repeat constructor. Qed.

(** Step 0 and then step 1, after the driver has stored the first tokens:
    the second call leaves the beam state as the driver left it. *)
Example beam_expansion_at_first_step_only :
  let after0 := (prepare_beamsearch_decoder_input EventCondTransformer
                   Sample.self (Sample.beam_context 0) ∅).2 in
  let driven := <["seqs" := VLong (of_matrix [[5]; [7]])]> after0 in
  (prepare_beamsearch_decoder_input EventCondTransformer Sample.self
     (Sample.beam_context 1) driven).2 = driven.
Proof. vm_compute. reflexivity. Qed.

(** ** The cache, field by field *)

Lemma value_index_sample_of whole i sample :
  0 <= i -> sample_of whole (Z.to_nat i) = Some sample ->
  value_index whole i = Ok sample.
Proof.
  intros Hi H.
  assert (Hidx : forall A (xs : list (tensor A)) y,
            xs !! Z.to_nat i = Some y -> tensor_index (Stack xs) i = Ok y).
  { intros A xs y Hy. unfold tensor_index.
    pose proof (lookup_lt_Some _ _ _ Hy) as Hlt.
    destruct (Z.ltb_spec i 0); [lia|].
    destruct (Z.leb_spec 0 i); [| lia].
    destruct (Z.ltb_spec i (Z.of_nat (length xs))); [| lia].
    cbn [andb]. now rewrite Hy. }
  destruct whole as [| | |[|xs]|[|xs]|[|xs]]; try discriminate;
    cbn [sample_of] in H;
    destruct (xs !! Z.to_nat i) as [y|] eqn:Hy; try discriminate;
    injection H as <-; cbn [value_index]; now rewrite (Hidx _ _ _ Hy).
Qed.

(** C2.  For every variant.  At a timestep other than 0 the call leaves
    the beam state exactly as it found it, whether it returns or raises,
    and the cached fields of a returned record are the ones the beam state
    holds.  At timestep 0, with a positive beam width and sample [i]
    present in the source of every cached field, the call returns; every
    cached field of the beam state and of the returned record is then [B]
    copies of sample [i] of its source (the batch entry, or the encoding of
    the events), and no other field of the beam state is touched. *)
Theorem beam_cache_written_at_first_step_only
    v self input_dict output_i t i B :
  input_dict !! "t" = Some (VInt t) ->
  input_dict !! "sample_idx" = Some (VInt i) ->
  input_dict !! "beam_size" = Some (VInt B) ->
  (t <> 0 ->
   (prepare_beamsearch_decoder_input v self input_dict output_i).2
     = output_i /\
   forall d output_i',
     prepare_beamsearch_decoder_input v self input_dict output_i
       = (Ok d, output_i') ->
     Forall (fun k => exists x, output_i !! k = Some x /\ d !! k = Some x)
            (cached_fields v)) /\
  (t = 0 -> 0 <= i -> 0 < B ->
   Forall (fun k => exists whole sample,
             per_sample_source self input_dict k = Ok whole /\
             sample_of whole (Z.to_nat i) = Some sample)
          (cached_fields v) ->
   exists d output_i',
     prepare_beamsearch_decoder_input v self input_dict output_i
       = (Ok d, output_i') /\
     Forall (replicated_sample self input_dict (Z.to_nat i) (Z.to_nat B)
               output_i' d)
            (cached_fields v) /\
     forall k, k ∉ cached_fields v -> output_i' !! k = output_i !! k).
Proof.
  intros Ht Hi HB.
  pose proof (beam_cache_rule v self input_dict output_i t i B Ht Hi HB)
    as [Hframe Hrule].
  split.
  - intros Hne. split; [now apply Hframe|].
    intros d output_i' H. now apply (Hrule d output_i' H).
  - intros -> Hi0 HB0 Hsrc.
    destruct (beam_first_step_returns v self input_dict output_i i B
                Ht Hi HB HB0) as (d & output_i' & H).
    { eapply Forall_impl; [exact Hsrc|].
      intros k (whole & sample & Hw & Hs). exists whole, sample.
      split; [assumption | now apply value_index_sample_of]. }
    exists d, output_i'. split; [exact H|].
    destruct (Hrule d output_i' H) as [_ Hfirst].
    destruct (Hfirst eq_refl) as [Hcached Hother].
    split; [| exact Hother].
    rewrite Forall_forall in Hsrc, Hcached. apply Forall_forall.
    intros k Hk.
    destruct (Hsrc k Hk) as (whole & sample & Hw & Hs).
    destruct (Hcached k Hk) as (whole' & sample' & x & Hw' & Hs' & Hx & H1 & H2).
    rewrite Hw in Hw'. injection Hw' as <-.
    rewrite (value_index_sample_of _ _ _ Hi0 Hs) in Hs'. injection Hs' as <-.
    destruct (value_index_repeat whole i sample B
                (value_index_sample_of _ _ _ Hi0 Hs) HB0) as [Hrep _].
    rewrite Hrep in Hx. injection Hx as <-.
    exists whole, sample. auto.
Qed.

(** The first step of the event-conditioned variant on the sample batch,
    sample 0 and two beams, from an empty beam state: the call returns and
    the three cached fields hold two copies of sample 0. *)
Lemma beam_cache_witness :
  exists d output_i',
    prepare_beamsearch_decoder_input EventCondTransformer Sample.self
      (Sample.beam_context 0) ∅ = (Ok d, output_i') /\
    Forall (replicated_sample Sample.self (Sample.beam_context 0) 0 2
              output_i' d)
           ["attn_embs"; "attn_emb_lens"; "events"] /\
    forall k, k ∉ ["attn_embs"; "attn_emb_lens"; "events"] ->
              output_i' !! k = (∅ : dict) !! k.
Proof.
  apply (proj2 (beam_cache_written_at_first_step_only EventCondTransformer
                  Sample.self (Sample.beam_context 0) ∅ 0 0 2
                  ltac:(vm_compute; reflexivity)
                  ltac:(vm_compute; reflexivity)
                  ltac:(vm_compute; reflexivity)));
    try reflexivity; try lia.
  repeat apply List.Forall_cons; try apply List.Forall_nil;
    eexists _, _; (split; [vm_compute; reflexivity | reflexivity]).
Defined.

(** What the first step stores under [attn_embs] and [events]: sample 0,
    twice. *)
Example beam_cache_contents :
  let s := (prepare_beamsearch_decoder_input EventCondTransformer Sample.self
              (Sample.beam_context 0) ∅).2 in
  s !! "attn_embs"
    = Some (VFloatT (Stack [of_matrix [[Fin 1]; [Fin 2]; [Fin 3]];
                            of_matrix [[Fin 1]; [Fin 2]; [Fin 3]]])) /\
  s !! "attn_emb_lens" = Some (VLong (Stack [Scalar 3; Scalar 3])) /\
  dom s = {["attn_embs"; "attn_emb_lens"; "events"]}.
Proof. vm_compute. repeat split; reflexivity. Qed.

(** ** One step of a rollout *)

Lemma random_random_ok g r g' :
  random_random g = (Ok r, g') -> r = draws g (pos g) /\ g' = next g.
Proof. unfold random_random. intros H. inversion H. auto. Qed.

Lemma bind_random {B} (f : Q -> M rng B) (g : rng) :
  (random_random ≫= f) g = f (draws g (pos g)) (next g).
Proof. reflexivity. Qed.

Lemma generated_word_ok self input_dict output t word (g g' : rng) :
  (n ← lift (v ← dict_get input_dict "attn_embs"; value_size0 v);
   let start_word := start_column (start_idx self) n in
   if t =? 0 then mret start_word
   else lift (seqs ← (v ← dict_get output "seqs"; as_long v);
              prev ← slice_cols t seqs;
              cat_cols start_word prev)) g = (Ok word, g') ->
  g' = g /\ generated_word self input_dict output t word.
Proof.
  intros H. apply M_bind_ok in H as (n & s1 & Hn & H).
  apply lift_ok in Hn as [Hn ->].
  apply result_bind_ok in Hn as (embs & Hembs & Hn).
  apply dict_get_ok in Hembs. unfold generated_word. cbv zeta in H.
  destruct (t =? 0).
  - apply mret_ok in H as [-> ->]. eauto 6.
  - apply lift_ok in H as [H ->].
    apply result_bind_ok in H as (seqs & Hseqs & H).
    apply result_bind_ok in Hseqs as (v & Hv & Hseqs).
    apply dict_get_ok in Hv. apply as_long_ok in Hseqs as ->.
    apply result_bind_ok in H as (prev & Hprev & H). eauto 10.
Qed.

Lemma determine_input_word_ok self input_dict output t g g' word :
  determine_input_word self input_dict output t g = (Ok word, g') ->
  exists mode,
    input_dict !! "mode" = Some mode /\
    if value_eqb_str mode "train" then
      g' = next g /\
      exists p below,
        input_dict !! "ss_ratio" = Some p /\
        float_ltb (draws g (pos g)) p = Ok below /\
        if below : bool then teacher_word input_dict t word
        else generated_word self input_dict output t word
    else g' = g /\ generated_word self input_dict output t word.
Proof.
  unfold determine_input_word. intros H.
  apply M_bind_ok in H as (mode & s1 & Hmode & H).
  apply lift_ok in Hmode as [Hmode ->]. apply dict_get_ok in Hmode.
  exists mode. split; [assumption|].
  apply M_bind_ok in H as (teacher & s1 & Hteacher & H).
  destruct (value_eqb_str mode "train").
  - apply M_bind_ok in Hteacher as (r & s2 & Hr & Hteacher).
    apply random_random_ok in Hr as [-> ->].
    apply M_bind_ok in Hteacher as (p & s3 & Hp & Hteacher).
    apply lift_ok in Hp as [Hp ->]. apply dict_get_ok in Hp.
    apply lift_ok in Hteacher as [Hlt ->].
    destruct teacher.
    + apply lift_ok in H as [H ->]. split; [reflexivity|].
      exists p, true. repeat split; auto.
      apply result_bind_ok in H as (caps & Hcaps & H).
      apply result_bind_ok in Hcaps as (v & Hv & Hcaps).
      apply dict_get_ok in Hv. apply as_long_ok in Hcaps as ->.
      exists caps. repeat split; auto.
      intros c -> Ht Hall. rewrite slice_cols_of_matrix in H.
      inversion H; subst word. eexists. split; [reflexivity|].
      apply Forall_forall. intros r Hr.
      apply list_elem_of_In, in_map_iff in Hr as (r0 & <- & Hr0).
      rewrite Forall_forall in Hall.
      apply list_elem_of_In, Hall in Hr0.
      rewrite py_slice_to_length by lia. lia.
    + apply generated_word_ok in H as [-> Hgen].
      split; [reflexivity|]. exists p, false. auto.
  - apply mret_ok in Hteacher as [-> ->].
    now apply generated_word_ok in H.
Qed.

Lemma Transformer_step_inv self input_dict output g d g' :
  TransformerModel_prepare_decoder_input self input_dict output g
    = (Ok d, g') ->
  exists attn_embs attn_emb_lens t word,
    input_dict !! "attn_embs" = Some attn_embs /\
    input_dict !! "attn_emb_lens" = Some attn_emb_lens /\
    input_dict !! "t" = Some (VInt t) /\
    determine_input_word self input_dict output t g = (Ok word, g') /\
    d = <["caps_padding_mask" := VBoolT (tensor_eq_int word (pad_idx self))]>
        (<["word" := VLong word]>
         (<["attn_emb_lens" := attn_emb_lens]>
          (<["attn_embs" := attn_embs]> ∅))).
Proof.
  unfold TransformerModel_prepare_decoder_input. intros H.
  apply M_bind_ok in H as (ae & s1 & Hae & H). apply lift_ok in Hae as [Hae ->].
  apply M_bind_ok in H as (al & s1 & Hal & H). apply lift_ok in Hal as [Hal ->].
  apply M_bind_ok in H as (t & s1 & Ht & H). apply lift_ok in Ht as [Ht ->].
  apply M_bind_ok in H as (word & s1 & Hword & H).
  apply M_bind_ok in H as (u & s2 & Hdev & H).
  apply lift_ok in Hdev as [_ ->]. apply mret_ok in H as [-> ->].
  apply dict_get_ok in Hae, Hal. apply get_int_ok in Ht.
  exists ae, al, t, word. auto.
Qed.

Lemma M2Transformer_step_inv self input_dict output g d g' :
  M2TransformerModel_prepare_decoder_input self input_dict output g
    = (Ok d, g') ->
  exists attn_embs attn_emb_mask t word,
    input_dict !! "attn_embs" = Some attn_embs /\
    input_dict !! "attn_emb_mask" = Some attn_emb_mask /\
    input_dict !! "t" = Some (VInt t) /\
    determine_input_word self input_dict output t g = (Ok word, g') /\
    d = <["word" := VLong word]>
        (<["attn_emb_mask" := attn_emb_mask]>
         (<["attn_embs" := attn_embs]> ∅)).
Proof.
  unfold M2TransformerModel_prepare_decoder_input. intros H.
  apply M_bind_ok in H as (ae & s1 & Hae & H). apply lift_ok in Hae as [Hae ->].
  apply M_bind_ok in H as (am & s1 & Ham & H). apply lift_ok in Ham as [Ham ->].
  apply M_bind_ok in H as (t & s1 & Ht & H). apply lift_ok in Ht as [Ht ->].
  apply M_bind_ok in H as (word & s1 & Hword & H).
  apply mret_ok in H as [-> ->].
  apply dict_get_ok in Hae, Ham. apply get_int_ok in Ht.
  exists ae, am, t, word. auto.
Qed.

(** The word, the generator and the mask of a returned record, for every
    variant. *)
Lemma step_word_inv v self input_dict output g d g' t :
  input_dict !! "t" = Some (VInt t) ->
  prepare_decoder_input v self input_dict output g = (Ok d, g') ->
  exists word,
    determine_input_word self input_dict output t g = (Ok word, g') /\
    d !! "word" = Some (VLong word) /\
    (v <> M2Transformer ->
     d !! "caps_padding_mask" =
       Some (VBoolT (tensor_eq_int word (pad_idx self)))).
Proof.
  intros Ht H.
  assert (Hprim : forall d0 g1,
    TransformerModel_prepare_decoder_input self input_dict output g
      = (Ok d0, g1) ->
    exists word,
      determine_input_word self input_dict output t g = (Ok word, g1) /\
      d0 !! "word" = Some (VLong word) /\
      d0 !! "caps_padding_mask" =
        Some (VBoolT (tensor_eq_int word (pad_idx self)))).
  { intros d0 g1 H0.
    apply Transformer_step_inv in H0
      as (ae & al & t' & word & _ & _ & Ht' & Hw & ->).
    rewrite Ht in Ht'. inversion Ht'; subst t'.
    exists word. repeat split; auto; map_lookup. }
  destruct v; simpl in H.
  - destruct (Hprim _ _ H) as (word & Hw & Hword & Hmask). eauto.
  - apply M2Transformer_step_inv in H
      as (ae & am & t' & word & _ & _ & Ht' & Hw & ->).
    rewrite Ht in Ht'. inversion Ht'; subst t'.
    exists word. split; [assumption|]. split; [map_lookup | congruence].
  - unfold EventCondTransformerModel_prepare_decoder_input in H.
    apply M_bind_ok in H as (d0 & g1 & H0 & H).
    apply M_bind_ok in H as (ev & g2 & Hev & H).
    apply lift_ok in Hev as [_ ->]. apply mret_ok in H as [-> ->].
    destruct (Hprim _ _ H0) as (word & Hw & Hword & Hmask).
    exists word. rewrite !lookup_insert_ne by discriminate. auto.
  - unfold KeywordCondTransformerModel_prepare_decoder_input in H.
    apply M_bind_ok in H as (d0 & g1 & H0 & H).
    apply M_bind_ok in H as (kw & g2 & Hkw & H).
    apply lift_ok in Hkw as [_ ->]. apply mret_ok in H as [-> ->].
    destruct (Hprim _ _ H0) as (word & Hw & Hword & Hmask).
    exists word. rewrite !lookup_insert_ne by discriminate. auto.
Qed.







(** The same call with a draw of 3/4: the draw is not below 1/2 and the
    word is the start token followed by the first token of each row of the
    running [seqs]. *)
Example step_word_rule_free_running :
  returned_word
    (prepare_decoder_input Transformer Sample.self
       (Sample.step_context "train" 1) Sample.running_output
       (Sample.gen2 (3#4) (1#4)))
  = Some (VLong (of_matrix [[1; 5]; [1; 3]])).
Proof. vm_compute. reflexivity. Qed.

(** The choice is made afresh by every call: two consecutive calls on the
    same batch and timestep, the first draw below the probability and the
    second above it, give the ground-truth prefix and then the generated
    prefix. *)
Example scheduled_sampling_fresh_per_call :
  let g := Sample.gen2 (1#4) (3#4) in
  let call1 := prepare_decoder_input Transformer Sample.self
                 (Sample.step_context "train" 1) Sample.running_output g in
  let call2 := prepare_decoder_input Transformer Sample.self
                 (Sample.step_context "train" 1) Sample.running_output
                 call1.2 in
  returned_word call1 = Some (VLong (of_matrix [[1; 7]; [1; 9]])) /\
  returned_word call2 = Some (VLong (of_matrix [[1; 5]; [1; 3]])) /\
  pos call2.2 = 2%nat.
Proof. vm_compute. repeat split; reflexivity. Qed.

(** Outside training no draw is taken. *)
Example inference_takes_no_draw :
  let g := Sample.gen2 (1#4) (3#4) in
  let call := prepare_decoder_input Transformer Sample.self
                (Sample.step_context "inference" 1) Sample.running_output g in
  returned_word call = Some (VLong (of_matrix [[1; 5]; [1; 3]])) /\
  pos call.2 = 0%nat.
Proof. vm_compute. repeat split; reflexivity. Qed.

(** ** Outside training the captions are not read *)

Lemma dict_get_agree d1 d2 k :
  agree_except_caps d1 d2 -> k <> "caps" -> dict_get d1 k = dict_get d2 k.
Proof. intros Hag Hk. unfold dict_get. now rewrite (Hag k Hk). Qed.

Lemma not_train_eqb (d : dict) mode :
  d !! "mode" <> Some (VStr "train") -> dict_get d "mode" = Ok mode ->
  value_eqb_str mode "train" = false.
Proof.
  intros Hne Hmode. apply dict_get_ok in Hmode.
  destruct mode; try reflexivity. simpl.
  destruct (String.eqb_spec s "train"); [congruence | reflexivity].
Qed.

Lemma determine_input_word_indep self d1 d2 output t g :
  agree_except_caps d1 d2 -> d2 !! "mode" <> Some (VStr "train") ->
  determine_input_word self d1 output t g
  = determine_input_word self d2 output t g.
Proof.
  intros Hag Hmode. unfold determine_input_word.
  rewrite !bind_lift.
  rewrite (dict_get_agree _ _ "mode" Hag) by discriminate.
  destruct (dict_get d2 "mode") as [mode|e] eqn:E; [| reflexivity].
  rewrite (not_train_eqb _ _ Hmode E). cbv beta iota.
  rewrite !bind_mret. cbv beta iota. rewrite !bind_lift.
  now rewrite (dict_get_agree _ _ "attn_embs" Hag) by discriminate.
Qed.

Ltac indep_step Hag :=
  rewrite !bind_lift;
  rewrite (dict_get_agree _ _ _ Hag) by discriminate;
  match goal with
  | |- match ?r with Ok _ => _ | Err _ => _ end = _ =>
      destruct r; [| reflexivity]
  end.

Lemma Transformer_step_indep self d1 d2 output g :
  agree_except_caps d1 d2 -> d2 !! "mode" <> Some (VStr "train") ->
  TransformerModel_prepare_decoder_input self d1 output g
  = TransformerModel_prepare_decoder_input self d2 output g.
Proof.
  intros Hag Hmode. unfold TransformerModel_prepare_decoder_input, get_int.
  do 3 indep_step Hag.
  rewrite !M_bind_unfold.
  rewrite (determine_input_word_indep _ _ _ _ _ _ Hag Hmode).
  destruct (determine_input_word _ _ _ _ _) as [[word|e] g1]; reflexivity.
Qed.

Lemma M2Transformer_step_indep self d1 d2 output g :
  agree_except_caps d1 d2 -> d2 !! "mode" <> Some (VStr "train") ->
  M2TransformerModel_prepare_decoder_input self d1 output g
  = M2TransformerModel_prepare_decoder_input self d2 output g.
Proof.
  intros Hag Hmode. unfold M2TransformerModel_prepare_decoder_input, get_int.
  do 3 indep_step Hag.
  rewrite !M_bind_unfold.
  now rewrite (determine_input_word_indep _ _ _ _ _ _ Hag Hmode).
Qed.

(** C8.  Outside training mode the outcome of [prepare_decoder_input], the
    record or the exception and the state of the random source, is the
    same for two step contexts that agree on every entry but [caps]. *)
Theorem step_independent_of_caps v self d1 d2 output g :
  agree_except_caps d1 d2 ->
  d1 !! "mode" <> Some (VStr "train") ->
  prepare_decoder_input v self d1 output g
  = prepare_decoder_input v self d2 output g.
Proof.
  intros Hag Hmode1.
  assert (Hmode : d2 !! "mode" <> Some (VStr "train")).
  { now rewrite <- (Hag "mode") by discriminate. }
  destruct v; simpl.
  - now apply Transformer_step_indep.
  - now apply M2Transformer_step_indep.
  - unfold EventCondTransformerModel_prepare_decoder_input.
    rewrite !M_bind_unfold.
    rewrite (Transformer_step_indep _ _ _ _ _ Hag Hmode).
    destruct (TransformerModel_prepare_decoder_input _ _ _ _)
      as [[d0|e] g1]; [| reflexivity].
    rewrite !bind_lift.
    now rewrite (dict_get_agree _ _ "events" Hag) by discriminate.
  - unfold KeywordCondTransformerModel_prepare_decoder_input.
    rewrite !M_bind_unfold.
    rewrite (Transformer_step_indep _ _ _ _ _ Hag Hmode).
    destruct (TransformerModel_prepare_decoder_input _ _ _ _)
      as [[d0|e] g1]; [| reflexivity].
    rewrite !bind_lift.
    now rewrite (dict_get_agree _ _ "keywords" Hag) by discriminate.
Qed.

Lemma agree_except_caps_insert d c :
  agree_except_caps d (<["caps" := c]> d).
Proof. intros k Hk. now rewrite lookup_insert_ne by auto. Qed.

Lemma agree_except_caps_delete d :
  agree_except_caps d (delete "caps" d).
Proof. intros k Hk. now rewrite lookup_delete_ne by auto. Qed.

(** The rule at a concrete pair of contexts: inference at step 1, with the
    captions of the batch and with the captions removed. *)
Lemma step_independent_of_caps_witness :
  prepare_decoder_input KeywordCondTransformer Sample.self
    (Sample.step_context "inference" 1) Sample.running_output
    (Sample.gen2 (1#4) (3#4))
  = prepare_decoder_input KeywordCondTransformer Sample.self
      (delete "caps" (Sample.step_context "inference" 1))
      Sample.running_output (Sample.gen2 (1#4) (3#4)).
Proof.
  apply step_independent_of_caps.
  - apply agree_except_caps_delete.
  - vm_compute. discriminate.
Defined.

(** In training mode the captions are read: the same two contexts give a
    record and a [KeyError]. *)
Example training_reads_caps :
  returned_word
    (prepare_decoder_input Transformer Sample.self
       (Sample.step_context "train" 1) Sample.running_output
       (Sample.gen2 (1#4) (3#4)))
  = Some (VLong (of_matrix [[1; 7]; [1; 9]])) /\
  (prepare_decoder_input Transformer Sample.self
     (delete "caps" (Sample.step_context "train" 1)) Sample.running_output
     (Sample.gen2 (1#4) (3#4))).1
  = Err (KeyError "caps").
Proof. vm_compute. split; reflexivity. Qed.

(** ** A rollout step returns *)

Lemma value_size0_device embs n :
  value_size0 embs = Ok n -> value_device embs = Ok tt.
Proof. destruct embs; try discriminate; reflexivity. Qed.

Lemma determine_input_word_returns v self input_dict output t g :
  well_formed_step v self input_dict output ->
  exists word g',
    determine_input_word self input_dict output t g = (Ok word, g').
Proof.
  intros [(embs & n & Hembs & Hn & s & Hseqs & Hlen) _ _
          [m Hm] [p Hp] [c Hc] _].
  apply dict_get_ok in Hembs, Hseqs, Hm, Hp, Hc.
  assert (Hgen : forall g1 : rng,
    exists word,
      (n ← lift (S:=rng) (v ← dict_get input_dict "attn_embs"; value_size0 v);
       let start_word := start_column (start_idx self) n in
       if t =? 0 then mret start_word
       else lift (seqs ← (v ← dict_get output "seqs"; as_long v);
                  prev ← slice_cols t seqs;
                  cat_cols start_word prev)) g1 = (Ok word, g1)).
  { intros g1. rewrite bind_lift, Hembs, result_bind_ret, Hn. cbv zeta.
    destruct (t =? 0); [eexists; reflexivity|].
    unfold lift. rewrite Hseqs, result_bind_ret. cbn [as_long].
    rewrite result_bind_ret, slice_cols_of_matrix, result_bind_ret.
    rewrite cat_cols_start_of_matrix by (now rewrite length_map).
    eexists; reflexivity. }
  unfold determine_input_word. rewrite bind_lift, Hm.
  cbn [value_eqb_str]. destruct (String.eqb m "train").
  - rewrite M_bind_unfold, bind_random, bind_lift, Hp.
    unfold lift at 1. cbn [float_ltb].
    destruct (negb (Qle_bool p (draws g (pos g)))).
    + unfold lift. rewrite Hc, result_bind_ret. cbn [as_long].
      rewrite result_bind_ret, slice_cols_of_matrix. eauto.
    + destruct (Hgen (next g)) as [word Hw]. eauto.
  - rewrite bind_mret. cbv beta iota.
    destruct (Hgen g) as [word Hw]. eauto.
Qed.

(** On a well-formed step context every variant returns a record, in
    every mode and whatever the draw. *)
Lemma step_returns v self input_dict output g :
  well_formed_step v self input_dict output ->
  exists d g', prepare_decoder_input v self input_dict output g = (Ok d, g').
Proof.
  intros Hwf.
  assert (Hprim : forall v',
    well_formed_step v' self input_dict output ->
    In "attn_emb_lens" (step_keys v') ->
    exists d0 g1,
      TransformerModel_prepare_decoder_input self input_dict output g
        = (Ok d0, g1)).
  { intros v' Hwf' Hin.
    destruct (wf_attn_embs _ _ _ _ Hwf') as (embs & n & Hembs & Hn & _).
    destruct (wf_t _ _ _ _ Hwf') as [t Ht].
    pose proof (wf_keys _ _ _ _ Hwf') as Hkeys.
    rewrite Forall_forall in Hkeys.
    destruct (Hkeys "attn_emb_lens") as [al Hal]; [now apply list_elem_of_In|].
    apply dict_get_ok in Hembs, Hal. apply get_int_ok in Ht.
    unfold TransformerModel_prepare_decoder_input.
    rewrite bind_lift, Hembs, bind_lift, Hal, bind_lift, Ht.
    rewrite M_bind_unfold.
    destruct (determine_input_word_returns v' self input_dict output t g
                ltac:(assumption)) as (word & g1 & ->).
    rewrite bind_lift, ?Hembs, result_bind_ret.
    rewrite (value_size0_device _ _ Hn). eauto. }
  destruct v; simpl.
  - apply (Hprim Transformer Hwf). now left.
  - destruct (wf_attn_embs _ _ _ _ Hwf) as (embs & n & Hembs & Hn & _).
    destruct (wf_t _ _ _ _ Hwf) as [t Ht].
    pose proof (wf_keys _ _ _ _ Hwf) as Hkeys.
    rewrite Forall_forall in Hkeys.
    destruct (Hkeys "attn_emb_mask") as [am Ham]; [repeat constructor|].
    apply dict_get_ok in Hembs, Ham. apply get_int_ok in Ht.
    unfold M2TransformerModel_prepare_decoder_input.
    rewrite bind_lift, Hembs, bind_lift, Ham, bind_lift, Ht.
    rewrite M_bind_unfold.
    destruct (determine_input_word_returns M2Transformer self input_dict
                output t g ltac:(assumption)) as (word & g1 & ->).
    eauto.
  - destruct (Hprim EventCondTransformer Hwf) as (d0 & g1 & Hp); [now left|].
    destruct (wf_events _ _ _ _ Hwf eq_refl) as (ev & x & Hev & Hx).
    apply dict_get_ok in Hev.
    unfold EventCondTransformerModel_prepare_decoder_input.
    rewrite M_bind_unfold, Hp, bind_lift, Hev, result_bind_ret, Hx. eauto.
  - destruct (Hprim KeywordCondTransformer Hwf) as (d0 & g1 & Hp); [now left|].
    pose proof (wf_keys _ _ _ _ Hwf) as Hkeys.
    rewrite Forall_forall in Hkeys.
    destruct (Hkeys "keywords") as [kw Hkw]; [repeat constructor|].
    apply dict_get_ok in Hkw.
    unfold KeywordCondTransformerModel_prepare_decoder_input.
    rewrite M_bind_unfold, Hp, bind_lift, Hkw. eauto.
Qed.

(** ** Teacher-forced decoding *)

Lemma py_slice_drop_last {A} (l : list A) :
  py_slice_to (-1) l = removelast l.
Proof.
  unfold py_slice_to. simpl.
  rewrite removelast_firstn_len. f_equal. lia.
Qed.

Lemma slice_row_tensor_map {A B} (f : A -> B) stop (r : tensor A) :
  slice_row stop (tensor_map f r) = tensor_map f <$> slice_row stop r.
Proof.
  destruct r as [a|cs]; [reflexivity|]. simpl.
  now rewrite py_slice_to_map.
Qed.

Lemma traverse_slice_row_map {A B} (f : A -> B) stop (rows : list (tensor A)) :
  traverse (slice_row stop) (List.map (tensor_map f) rows)
  = List.map (tensor_map f) <$> traverse (slice_row stop) rows.
Proof.
  induction rows as [|r rows IH]; [reflexivity|].
  cbn [List.map traverse]. rewrite slice_row_tensor_map, IH.
  destruct (slice_row stop r); [| reflexivity].
  destruct (traverse (slice_row stop) rows); reflexivity.
Qed.

(** Slicing the columns commutes with an elementwise operation. *)
Lemma slice_cols_tensor_map {A B} (f : A -> B) stop (x : tensor A) :
  slice_cols stop (tensor_map f x) = tensor_map f <$> slice_cols stop x.
Proof.
  destruct x as [a|rows]; [reflexivity|].
  cbn [tensor_map slice_cols]. rewrite traverse_slice_row_map.
  destruct (traverse (slice_row stop) rows); reflexivity.
Qed.

Section SeqForwardProperties.
Context {DS Out : Type}.
Variable decoder : dict -> M DS Out.

Lemma call_decoder_run rec ds log :
  call_decoder decoder rec (ds, log) = decoder_called decoder rec ds log.
Proof.
  unfold call_decoder, decoder_called. simpl.
  now destruct (decoder rec ds).
Qed.

Lemma Transformer_seq_forward_run self input_dict ds log :
  TransformerModel_seq_forward decoder self input_dict (ds, log) =
  match v ← dict_get input_dict "caps"; as_long v with
  | Err e => (Err e, (ds, log))
  | Ok caps =>
  match slice_cols (-1) caps with
  | Err e => (Err e, (ds, log))
  | Ok word =>
  match dict_get input_dict "attn_embs" with
  | Err e => (Err e, (ds, log))
  | Ok attn_embs =>
  match dict_get input_dict "attn_emb_lens" with
  | Err e => (Err e, (ds, log))
  | Ok attn_emb_lens =>
      decoder_called decoder
        (<["caps_padding_mask" :=
             VBoolT (tensor_eq_int word (pad_idx self))]>
         (<["attn_emb_lens" := attn_emb_lens]>
          (<["attn_embs" := attn_embs]>
           (<["word" := VLong word]> ∅)))) ds log
  end end end end.
Proof.
  unfold TransformerModel_seq_forward.
  rewrite bind_lift. destruct (_ ← dict_get _ _; _) as [caps|e];
    [| reflexivity].
  rewrite bind_lift. unfold tensor_eq_int at 1.
  rewrite slice_cols_tensor_map.
  destruct (slice_cols (-1) caps) as [word|e]; [| reflexivity].
  cbn [fmap result_fmap result_bind].
  rewrite bind_lift, bind_lift.
  destruct (dict_get input_dict "attn_embs"); [| reflexivity].
  rewrite bind_lift.
  destruct (dict_get input_dict "attn_emb_lens"); [| reflexivity].
  apply call_decoder_run.
Qed.

Lemma M2Transformer_seq_forward_run self input_dict ds log :
  M2TransformerModel_seq_forward decoder self input_dict (ds, log) =
  match v ← dict_get input_dict "caps"; as_long v with
  | Err e => (Err e, (ds, log))
  | Ok caps =>
  match slice_cols (-1) caps with
  | Err e => (Err e, (ds, log))
  | Ok word =>
  match dict_get input_dict "attn_embs" with
  | Err e => (Err e, (ds, log))
  | Ok attn_embs =>
  match dict_get input_dict "attn_emb_mask" with
  | Err e => (Err e, (ds, log))
  | Ok attn_emb_mask =>
      decoder_called decoder
        (<["attn_emb_mask" := attn_emb_mask]>
         (<["attn_embs" := attn_embs]>
          (<["word" := VLong word]> ∅))) ds log
  end end end end.
Proof.
  unfold M2TransformerModel_seq_forward.
  rewrite bind_lift. destruct (_ ← dict_get _ _; _) as [caps|e];
    [| reflexivity].
  rewrite bind_lift.
  destruct (slice_cols (-1) caps) as [word|e]; [| reflexivity].
  rewrite bind_lift.
  destruct (dict_get input_dict "attn_embs"); [| reflexivity].
  rewrite bind_lift.
  destruct (dict_get input_dict "attn_emb_mask"); [| reflexivity].
  apply call_decoder_run.
Qed.

Lemma KeywordCond_seq_forward_run self input_dict ds log :
  KeywordCondTransformerModel_seq_forward decoder self input_dict (ds, log) =
  match v ← dict_get input_dict "caps"; as_long v with
  | Err e => (Err e, (ds, log))
  | Ok caps =>
  match slice_cols (-1) caps with
  | Err e => (Err e, (ds, log))
  | Ok word =>
  match dict_get input_dict "keywords" with
  | Err e => (Err e, (ds, log))
  | Ok keywords =>
  match dict_get input_dict "attn_embs" with
  | Err e => (Err e, (ds, log))
  | Ok attn_embs =>
  match dict_get input_dict "attn_emb_lens" with
  | Err e => (Err e, (ds, log))
  | Ok attn_emb_lens =>
      decoder_called decoder
        (<["caps_padding_mask" :=
             VBoolT (tensor_eq_int word (pad_idx self))]>
         (<["keywords" := keywords]>
          (<["attn_emb_lens" := attn_emb_lens]>
           (<["attn_embs" := attn_embs]>
            (<["word" := VLong word]> ∅))))) ds log
  end end end end end.
Proof.
  unfold KeywordCondTransformerModel_seq_forward.
  rewrite bind_lift. destruct (_ ← dict_get _ _; _) as [caps|e];
    [| reflexivity].
  rewrite bind_lift. unfold tensor_eq_int at 1.
  rewrite slice_cols_tensor_map.
  destruct (slice_cols (-1) caps) as [word|e]; [| reflexivity].
  cbn [fmap result_fmap result_bind].
  rewrite bind_lift.
  destruct (dict_get input_dict "keywords"); [| reflexivity].
  rewrite bind_lift, bind_lift.
  destruct (dict_get input_dict "attn_embs"); [| reflexivity].
  rewrite bind_lift.
  destruct (dict_get input_dict "attn_emb_lens"); [| reflexivity].
  apply call_decoder_run.
Qed.

Lemma is_Some_dict_get (d : dict) k :
  is_Some (d !! k) -> exists x, dict_get d k = Ok x /\ d !! k = Some x.
Proof. intros [x Hx]. exists x. split; [now apply dict_get_ok | done]. Qed.

(** C6.  For every variant and every batch whose captions are a matrix
    with rows of length [L] and which holds the other entries the variant
    passes on: [seq_forward] invokes the decoder once, on a record whose
    word tensor is the captions with the last token of every row dropped
    (rows of length [L - 1]), and returns what the decoder returns. *)
Theorem seq_forward_calls_decoder_once v self input_dict ds log
    (c : matrix Z) (L : nat) :
  input_dict !! "caps" = Some (VLong (of_matrix c)) ->
  Forall (fun r => length r = L) c ->
  Forall (fun k => is_Some (input_dict !! k)) (seq_forward_keys v) ->
  exists rec,
    seq_forward decoder v self input_dict (ds, log)
      = decoder_called decoder rec ds log /\
    rec !! "word" = Some (VLong (of_matrix (List.map (@removelast Z) c))) /\
    Forall (fun r => length r = (L - 1)%nat) (List.map (@removelast Z) c).
Proof.
  intros Hcaps Hlen Hkeys.
  assert (Hrows :
    Forall (fun r => length r = (L - 1)%nat) (List.map (@removelast Z) c)).
  { apply Forall_forall. intros r Hr.
    apply list_elem_of_In, in_map_iff in Hr as (r0 & <- & Hr0).
    rewrite Forall_forall in Hlen. apply list_elem_of_In, Hlen in Hr0.
    rewrite <- py_slice_drop_last, py_slice_drop_last_length. lia. }
  assert (Hslice : slice_cols (-1) (of_matrix c)
                   = Ok (of_matrix (List.map (@removelast Z) c))).
  { rewrite slice_cols_of_matrix. do 2 f_equal.
    apply List.map_ext. intros r. apply py_slice_drop_last. }
  apply dict_get_ok in Hcaps.
  destruct v; simpl in Hkeys |- *; rewrite !Forall_cons in Hkeys.
  - destruct Hkeys as (H1 & H2 & _).
    apply is_Some_dict_get in H1 as (x1 & H1 & _).
    apply is_Some_dict_get in H2 as (x2 & H2 & _).
    rewrite Transformer_seq_forward_run, Hcaps, result_bind_ret.
    cbn [as_long]. rewrite Hslice, H1, H2.
    eexists. split; [reflexivity|]. split; [map_lookup | assumption].
  - destruct Hkeys as (H1 & H2 & _).
    apply is_Some_dict_get in H1 as (x1 & H1 & _).
    apply is_Some_dict_get in H2 as (x2 & H2 & _).
    rewrite M2Transformer_seq_forward_run, Hcaps, result_bind_ret.
    cbn [as_long]. rewrite Hslice, H1, H2.
    eexists. split; [reflexivity|]. split; [map_lookup | assumption].
  - destruct Hkeys as (H1 & H2 & _).
    apply is_Some_dict_get in H1 as (x1 & H1 & _).
    apply is_Some_dict_get in H2 as (x2 & H2 & _).
    rewrite Transformer_seq_forward_run, Hcaps, result_bind_ret.
    cbn [as_long]. rewrite Hslice, H1, H2.
    eexists. split; [reflexivity|]. split; [map_lookup | assumption].
  - destruct Hkeys as (H0 & H1 & H2 & _).
    apply is_Some_dict_get in H0 as (x0 & H0 & _).
    apply is_Some_dict_get in H1 as (x1 & H1 & _).
    apply is_Some_dict_get in H2 as (x2 & H2 & _).
    rewrite KeywordCond_seq_forward_run, Hcaps, result_bind_ret.
    cbn [as_long]. rewrite Hslice, H0, H1, H2.
    eexists. split; [reflexivity|]. split; [map_lookup | assumption].
Qed.

(** The record [seq_forward] hands to the decoder carries the mask of its
    word tensor, for the variants that compute one; a call that raises
    before the decoder is reached leaves the log as it was. *)
Lemma seq_forward_mask v self input_dict ds log :
  v <> M2Transformer ->
  (exists e, seq_forward decoder v self input_dict (ds, log)
             = (Err e, (ds, log))) \/
  (exists rec, seq_forward decoder v self input_dict (ds, log)
               = decoder_called decoder rec ds log /\
               mask_marks_pad self rec).
Proof.
  intros Hv.
  assert (Hprim :
    (exists e, TransformerModel_seq_forward decoder self input_dict (ds, log)
               = (Err e, (ds, log))) \/
    (exists rec, TransformerModel_seq_forward decoder self input_dict (ds, log)
                 = decoder_called decoder rec ds log /\
                 mask_marks_pad self rec)).
  { rewrite Transformer_seq_forward_run.
    destruct (_ ← dict_get _ _; _) as [caps|e]; [| eauto].
    destruct (slice_cols (-1) caps) as [word|e]; [| eauto].
    destruct (dict_get input_dict "attn_embs"); [| eauto].
    destruct (dict_get input_dict "attn_emb_lens"); [| eauto].
    right. eexists. split; [reflexivity|].
    exists word. split; map_lookup. }
  destruct v; simpl; try assumption; [contradiction|].
  rewrite KeywordCond_seq_forward_run.
  destruct (_ ← dict_get _ _; _) as [caps|e]; [| eauto].
  destruct (slice_cols (-1) caps) as [word|e]; [| eauto].
  destruct (dict_get input_dict "keywords"); [| eauto].
  destruct (dict_get input_dict "attn_embs"); [| eauto].
  destruct (dict_get input_dict "attn_emb_lens"); [| eauto].
  right. eexists. split; [reflexivity|].
  exists word. split; map_lookup.
Qed.
End SeqForwardProperties.

(** The rule on the sample batch: two captions of length 5. *)
Lemma seq_forward_calls_decoder_once_witness :
  exists rec,
    seq_forward SampleDecoder.decoder Transformer Sample.self Sample.batch
      (0%nat, [])
    = decoder_called SampleDecoder.decoder rec 0%nat [] /\
    rec !! "word" =
      Some (VLong (of_matrix
        (List.map (@removelast Z) [[1; 7; 8; 2; 0]; [1; 9; 2; 0; 0]]))) /\
    Forall (fun r => length r = (5 - 1)%nat)
      (List.map (@removelast Z) [[1; 7; 8; 2; 0]; [1; 9; 2; 0; 0]]).
Proof.
  apply (seq_forward_calls_decoder_once SampleDecoder.decoder Transformer
           Sample.self Sample.batch 0%nat []
           [[1; 7; 8; 2; 0]; [1; 9; 2; 0; 0]] 5%nat).
  - vm_compute. reflexivity.
  - repeat constructor.
  - simpl. rewrite !Forall_cons, Forall_nil.
    repeat split; vm_compute; eauto.
Defined.

(** The scenario of two captions of length 5 with [pad_idx] 0: one
    invocation, a word tensor of length 4, and a mask that is true exactly
    where the truncated captions hold 0. *)
Example seq_forward_scenario :
  let run := seq_forward SampleDecoder.decoder Transformer Sample.self
               Sample.batch (0%nat, []) in
  run.1 = Ok (Some (VLong (of_matrix [[1; 7; 8; 2]; [1; 9; 2; 0]]))) /\
  run.2.1 = 1%nat /\
  List.map (fun rec => rec !! "caps_padding_mask") run.2.2 =
    [Some (VBoolT (of_matrix [[false; false; false; false];
                              [false; false; false; true]]))].
Proof. vm_compute. repeat split; reflexivity. Qed.

(** ** The padding mask *)

Lemma tensor_eq_int_of_matrix (w : matrix Z) pad :
  tensor_eq_int (of_matrix w) pad
  = of_matrix (List.map (List.map (fun z => z =? pad)) w).
Proof. apply tensor_map_of_matrix. Qed.

Lemma step_reads_t v self input_dict output g d g' :
  prepare_decoder_input v self input_dict output g = (Ok d, g') ->
  exists t, input_dict !! "t" = Some (VInt t).
Proof.
  assert (Hprim : forall d0 g1,
    TransformerModel_prepare_decoder_input self input_dict output g
      = (Ok d0, g1) -> exists t, input_dict !! "t" = Some (VInt t)).
  { intros d0 g1 H0.
    apply Transformer_step_inv in H0 as (_ & _ & t & _ & _ & _ & Ht & _).
    eauto. }
  intros H. destruct v; simpl in H.
  - eauto.
  - apply M2Transformer_step_inv in H as (_ & _ & t & _ & _ & _ & Ht & _).
    eauto.
  - apply M_bind_ok in H as (d0 & g1 & H0 & _). eauto.
  - apply M_bind_ok in H as (d0 & g1 & H0 & _). eauto.
Qed.

Lemma beam_reads_t v self input_dict output_i d output_i' :
  prepare_beamsearch_decoder_input v self input_dict output_i
    = (Ok d, output_i') ->
  exists t B,
    input_dict !! "t" = Some (VInt t) /\
    input_dict !! "beam_size" = Some (VInt B).
Proof.
  assert (Hprim : forall d0 s1,
    TransformerModel_prepare_beamsearch_decoder_input self input_dict output_i
      = (Ok d0, s1) ->
    exists t B, input_dict !! "t" = Some (VInt t) /\
                input_dict !! "beam_size" = Some (VInt B)).
  { intros d0 s1 H0.
    apply Transformer_beam_inv in H0
      as (t & _ & B & _ & _ & _ & Ht & _ & HB & _). eauto. }
  intros H. destruct v; simpl in H.
  - eauto.
  - apply M2Transformer_beam_inv in H
      as (t & _ & B & _ & _ & _ & Ht & _ & HB & _). eauto.
  - apply M_bind_ok in H as (d0 & s1 & H0 & _). eauto.
  - apply M_bind_ok in H as (d0 & s1 & H0 & _). eauto.
Qed.

Lemma pointwise_tensor_map {A B} (R : A -> B -> Prop) (f : A -> B) :
  (forall a, R a (f a)) -> forall x, pointwise R x (tensor_map f x).
Proof.
  intros Hf. fix IH 1. intros [a|xs]; cbn [tensor_map].
  - constructor. apply Hf.
  - constructor.
    induction xs as [|x xs IHxs]; cbn [List.map]; constructor;
      [apply IH | exact IHxs].
Qed.

Lemma pointwise_of_matrix {A B} (R : A -> B -> Prop) (w : matrix A) y :
  pointwise R (of_matrix w) y ->
  exists m : matrix B,
    y = of_matrix m /\ Forall2 (Forall2 R) w m.
Proof.
  unfold of_matrix. intros H. inversion H as [|xs ys Hrows]; subst. clear H.
  revert ys Hrows.
  induction w as [|r w IH]; intros ys Hrows; cbn [List.map] in Hrows.
  - inversion Hrows; subst. exists []. split; [reflexivity | constructor].
  - inversion Hrows as [|x y0 xs' ys' Hrow Hrest]; subst.
    destruct (IH _ Hrest) as (m & Hm & Hall).
    injection Hm as ->.
    assert (Hr : exists r', y0 = of_row r' /\ Forall2 R r r').
    { clear -Hrow. unfold of_row in *.
      inversion Hrow as [|xs ys Hcells]; subst. clear Hrow.
      revert ys Hcells.
      induction r as [|a r IHr]; intros ys Hcells; cbn [List.map] in Hcells.
      - inversion Hcells; subst. exists []. split; [reflexivity | constructor].
      - inversion Hcells as [|x y xs' ys' Hcell Hrest]; subst.
        destruct (IHr _ Hrest) as (r' & Hr' & Hall).
        injection Hr' as ->.
        inversion Hcell; subst.
        eexists (_ :: r'). split; [reflexivity | now constructor]. }
    destruct Hr as (r' & -> & Hr).
    exists (r' :: m). split; [reflexivity | now constructor].
Qed.

Lemma mask_marks_pad_true_at_pad self d :
  mask_marks_pad self d -> mask_true_at_pad self d.
Proof.
  intros (word & Hw & Hm). exists word, (tensor_eq_int word (pad_idx self)).
  split; [exact Hw|]. split; [exact Hm|].
  apply pointwise_tensor_map. intros z. apply Z.eqb_eq.
Qed.

(** C7.  For the primary variant and the two variants derived from it: the
    record [seq_forward] hands to the decoder, and every record returned by
    [prepare_decoder_input] and by [prepare_beamsearch_decoder_input],
    holds a padding mask of the shape of its word tensor that is [True]
    exactly at the positions where the word tensor holds [pad_idx] and
    [False] at every other position. *)
Theorem padding_mask_marks_pad v self :
  v <> M2Transformer ->
  (forall (DS Out : Type) (decoder : dict -> M DS Out) input_dict ds log,
     (exists e, seq_forward decoder v self input_dict (ds, log)
                = (Err e, (ds, log))) \/
     (exists rec, seq_forward decoder v self input_dict (ds, log)
                  = decoder_called decoder rec ds log /\
                  mask_true_at_pad self rec)) /\
  (forall input_dict output g d g',
     prepare_decoder_input v self input_dict output g = (Ok d, g') ->
     mask_true_at_pad self d) /\
  (forall input_dict output_i d output_i',
     prepare_beamsearch_decoder_input v self input_dict output_i
       = (Ok d, output_i') ->
     mask_true_at_pad self d).
Proof.
  intros Hv. split; [| split].
  - intros DS Out decoder input_dict ds log.
    destruct (seq_forward_mask decoder v self input_dict ds log Hv)
      as [He | (rec & Hrun & Hmask)]; [now left | right].
    exists rec. split; [exact Hrun | now apply mask_marks_pad_true_at_pad].
  - intros input_dict output g d g' H.
    destruct (step_reads_t _ _ _ _ _ _ _ H) as [t Ht].
    destruct (step_word_inv _ _ _ _ _ _ _ _ Ht H) as (word & _ & Hw & Hmask).
    apply mask_marks_pad_true_at_pad. exists word. auto.
  - intros input_dict output_i d output_i' H.
    destruct (beam_reads_t _ _ _ _ _ _ H) as (t & B & Ht & HB).
    destruct (beam_word_inv _ _ _ _ _ _ _ _ Ht HB H) as (word & Hw & _ & Hmask).
    apply mask_marks_pad_true_at_pad. exists word. auto.
Qed.

(** A concrete beam-search step whose second beam has generated the pad
    token 0: the word is [[1; 5]; [1; 0]] and the mask is [True] at the last
    position of the second row only. *)
Lemma padding_mask_marks_pad_witness :
  exists mask : matrix bool,
    returned_record
      (prepare_beamsearch_decoder_input KeywordCondTransformer Sample.self
         (Sample.beam_context 1) (Sample.beam_state [[5]; [0]]))
    !! "caps_padding_mask" = Some (VBoolT (of_matrix mask)) /\
    Forall2 (Forall2 (fun z (b : bool) => b = true <-> z = 0))
            [[1; 5]; [1; 0]] mask.
Proof.
  destruct (proj2 (proj2 (padding_mask_marks_pad KeywordCondTransformer
                            Sample.self ltac:(discriminate)))
              (Sample.beam_context 1) (Sample.beam_state [[5]; [0]])
              (returned_record
                 (prepare_beamsearch_decoder_input KeywordCondTransformer
                    Sample.self (Sample.beam_context 1)
                    (Sample.beam_state [[5]; [0]])))
              (Sample.beam_state [[5]; [0]])
              ltac:(vm_compute; reflexivity))
    as (word & mask & Hw & Hm & Hpt).
  assert (Hword : word = of_matrix [[1; 5]; [1; 0]]).
  { vm_compute in Hw. injection Hw as <-. reflexivity. }
  subst word.
  apply pointwise_of_matrix in Hpt as (m & -> & Hall).
  exists m. split; [exact Hm | exact Hall].
Defined.

(** The bits of that mask. *)
Example padding_mask_of_beam_step :
  returned_record
    (prepare_beamsearch_decoder_input KeywordCondTransformer Sample.self
       (Sample.beam_context 1) (Sample.beam_state [[5]; [0]]))
  !! "caps_padding_mask"
  = Some (VBoolT (of_matrix [[false; false]; [false; true]])).
Proof. vm_compute. reflexivity. Qed.

(** ** Construction *)

Section ConstructionProperties.
Import Construction.
Variables base_train_forward_keys base_inference_forward_keys : list string.

Abbreviation construct :=
  (construct base_train_forward_keys base_inference_forward_keys).

Lemma default_compatible_decoders_new c :
  default_compatible_decoders c new_instance
  = (Ok tt, set_compatible_decoders c new_instance).
Proof. reflexivity. Qed.

(** C4.  Constructing [M2TransformerModel] with an encoder that is not an
    instance of [M2TransformerEncoder] raises the [AssertionError] of a
    failed [assert], whatever the decoder; with an encoder of that class
    and a decoder of the declared class, construction returns the model
    with both stored. *)
Theorem M2_construction_checks_encoder enc dec :
  (isinstance enc (PClass "M2TransformerEncoder") = false ->
   construct M2Transformer enc dec = Err AssertionError) /\
  (isinstance enc (PClass "M2TransformerEncoder") = true ->
   isinstance dec (PClass "M2TransformerDecoder") = true ->
   exists self,
     construct M2Transformer enc dec = Ok self /\
     encoder self = Some enc /\ decoder self = Some dec).
Proof.
  unfold Construction.construct, init, M2TransformerModel_init.
  rewrite M_bind_unfold, default_compatible_decoders_new.
  rewrite M_bind_unfold.
  unfold CaptionModel_init, check_encoder_compatibility.
  cbn [compatible_decoders set_compatible_decoders encoder].
  split.
  - intros Henc. destruct (isinstance dec _); [| reflexivity].
    cbn [encoder]. now rewrite Henc.
  - intros Henc Hdec. rewrite Hdec. cbn [encoder]. rewrite Henc.
    eexists. split; [reflexivity|]. split; reflexivity.
Qed.

(** C5 (what the code does).  After construction [compatible_decoders]
    holds the value the variant's constructor assigns: the one-element
    tuple of the declared decoder class for the primary and the
    keyword-conditioned variant, but the declared decoder class itself, not
    a tuple, for the alternative and the event-conditioned variant, whose
    parenthesised class lacks the trailing comma. *)
Theorem compatible_decoders_after_construction v enc dec self :
  construct v enc dec = Ok self ->
  compatible_decoders self = Some (assigned_compatible_decoders v) /\
  is_tuple (assigned_compatible_decoders v) =
    match v with
    | Transformer | KeywordCondTransformer => true
    | M2Transformer | EventCondTransformer => false
    end.
Proof.
  intros H. split; [| now destruct v].
  unfold Construction.construct in H.
  destruct (init _ _ v enc dec new_instance) as [[u|e] s] eqn:E;
    [| discriminate].
  inversion H; subst s. clear H.
  destruct v; cbn [init] in E.
  - unfold TransformerModel_init in E.
    rewrite M_bind_unfold, default_compatible_decoders_new in E.
    unfold CaptionModel_init in E.
    cbn [compatible_decoders set_compatible_decoders] in E.
    destruct (isinstance dec _); inversion E. reflexivity.
  - unfold M2TransformerModel_init in E.
    rewrite M_bind_unfold, default_compatible_decoders_new in E.
    rewrite M_bind_unfold in E.
    unfold CaptionModel_init, check_encoder_compatibility in E.
    cbn [compatible_decoders set_compatible_decoders encoder] in E.
    destruct (isinstance dec _); [| discriminate].
    cbn [encoder] in E.
    destruct (isinstance enc _); inversion E. reflexivity.
  - unfold EventCondTransformerModel_init, TransformerModel_init in E.
    rewrite M_bind_unfold, default_compatible_decoders_new in E.
    rewrite !M_bind_unfold in E.
    unfold default_compatible_decoders, CaptionModel_init,
      make_label_encoder, append_forward_keys in E.
    cbn [compatible_decoders set_compatible_decoders] in E.
    destruct (isinstance dec _); [| discriminate].
    destruct (emb_dim dec); inversion E. reflexivity.
  - unfold KeywordCondTransformerModel_init, TransformerModel_init in E.
    rewrite M_bind_unfold, default_compatible_decoders_new in E.
    rewrite !M_bind_unfold in E.
    unfold default_compatible_decoders, CaptionModel_init,
      append_forward_keys in E.
    cbn [compatible_decoders set_compatible_decoders] in E.
    destruct (isinstance dec _); inversion E. reflexivity.
Qed.
End ConstructionProperties.

(** Construction with a recurrent encoder fails; with the matching encoder
    and decoder it succeeds. *)
Lemma M2_construction_checks_encoder_witness :
  Construction.construct SampleObjects.base_keys
    SampleObjects.base_inference_keys M2Transformer
    SampleObjects.rnn_encoder SampleObjects.m2_decoder
  = Err AssertionError.
Proof.
  apply (proj1 (M2_construction_checks_encoder SampleObjects.base_keys
                  SampleObjects.base_inference_keys
                  SampleObjects.rnn_encoder SampleObjects.m2_decoder)).
  reflexivity.
Defined.

Example M2_construction_succeeds :
  is_ok (Construction.construct SampleObjects.base_keys
           SampleObjects.base_inference_keys M2Transformer
           SampleObjects.m2_encoder SampleObjects.m2_decoder) = true.
Proof. reflexivity. Qed.

(** The alternative variant constructed with its own encoder and decoder:
    [compatible_decoders] is the class [M2TransformerDecoder], which is
    not a tuple. *)
Lemma compatible_decoders_after_construction_witness :
  match Construction.construct SampleObjects.base_keys
          SampleObjects.base_inference_keys M2Transformer
          SampleObjects.m2_encoder SampleObjects.m2_decoder with
  | Ok self =>
      Construction.compatible_decoders self
        = Some (Construction.PClass "M2TransformerDecoder") /\
      Construction.is_tuple (Construction.PClass "M2TransformerDecoder")
        = false
  | Err _ => False
  end.
Proof.
  destruct (Construction.construct SampleObjects.base_keys
              SampleObjects.base_inference_keys M2Transformer
              SampleObjects.m2_encoder SampleObjects.m2_decoder)
    as [self|e] eqn:E; [| vm_compute in E; discriminate E].
  exact (compatible_decoders_after_construction _ _ _ _ _ _ E).
Defined.

(** The same for the event-conditioned variant. *)
Example EventCond_compatible_decoders_is_a_class :
  (Construction.compatible_decoders <$>
     Construction.construct SampleObjects.base_keys
       SampleObjects.base_inference_keys EventCondTransformer
       SampleObjects.m2_encoder SampleObjects.event_decoder)
  = Ok (Some (Construction.PClass "EventTransformerDecoder")).
Proof. reflexivity. Qed.

(** ** The event encoder *)

Lemma fsum_fin (r : list Q) : fsum (fin_row r) = Fin (Qsum r).
Proof.
  unfold fsum, fin_row, Qsum.
  induction r as [|a r IH]; simpl; [reflexivity|].
  now rewrite IH.
Qed.

Lemma as_row_of_row {A} (r : list A) : as_row (of_row r) = Ok r.
Proof.
  unfold as_row, of_row. induction r as [|a r IH]; [reflexivity|].
  cbn [List.map traverse]. now rewrite IH.
Qed.

Lemma as_matrix_of_matrix {A} (m : matrix A) : as_matrix (of_matrix m) = Ok m.
Proof.
  unfold as_matrix, of_matrix. induction m as [|r m IH]; [reflexivity|].
  cbn [List.map traverse]. now rewrite as_row_of_row, IH.
Qed.

Lemma div_broadcast_rows (x : matrix fval) :
  div_broadcast x (sum_dim1_keepdim x)
  = List.map (fun r => List.map (fun a => fdiv a (fsum r)) r) x.
Proof.
  unfold div_broadcast, sum_dim1_keepdim.
  induction x as [|r x IH]; [reflexivity|].
  cbn [List.map zip_with]. now rewrite IH.
Qed.

Lemma Qeq_bool_pos (s : Q) : (0 < s)%Q -> Qeq_bool s 0 = false.
Proof.
  intros Hs. destruct (Qeq_bool s 0) eqn:E; [| reflexivity].
  apply Qeq_bool_eq in E. rewrite E in Hs. now apply Qlt_irrefl in Hs.
Qed.

(** With a positive sum every quotient is finite. *)
Lemma normalise_row_fin (r : list Q) :
  (0 < Qsum r)%Q ->
  List.map (fun a => fdiv a (fsum (fin_row r))) (fin_row r)
  = fin_row (normalise r).
Proof.
  intros Hs. rewrite fsum_fin. unfold fin_row, normalise.
  rewrite !List.map_map. apply List.map_ext. intros a.
  unfold fdiv. now rewrite Qeq_bool_pos.
Qed.


Lemma vscale_fin (a : Q) (e : list Q) :
  vscale (Fin a) (fin_row e) = fin_row (List.map (Qmult a) e).
Proof. unfold vscale, fin_row. now rewrite !List.map_map. Qed.

Lemma vadd_fin (u v : list Q) :
  vadd (fin_row u) (fin_row v) = fin_row (zip_with Qplus u v).
Proof.
  unfold vadd, fin_row. revert v.
  induction u as [|a u IH]; intros [|b v]; simpl; try reflexivity.
  now rewrite IH.
Qed.

Lemma scaled_row_plus (a : Q) (e : list Q) (f : nat -> Q) (s : nat) :
  zip_with Qplus (List.map (Qmult a) e) (List.map f (seq s (length e)))
  = List.map (fun d => (a * nth (d - s) e 0 + f d)%Q) (seq s (length e)).
Proof.
  revert s. induction e as [|x e IH]; intros s; [reflexivity|].
  cbn [length seq List.map zip_with]. rewrite Nat.sub_diag. cbn [nth].
  f_equal. rewrite IH. apply List.map_ext_in. intros d Hd.
  apply in_seq in Hd. replace (d - s)%nat with (S (d - S s)) by lia.
  reflexivity.
Qed.

Lemma fin_row_zeros (D s : nat) (f : nat -> Q) :
  (forall d, f d = 0%Q) ->
  replicate D (Fin 0) = fin_row (List.map f (seq s D)).
Proof.
  intros Hf. unfold fin_row. revert s.
  induction D as [|D IHD]; intros s; [reflexivity|].
  cbn [replicate seq List.map]. rewrite Hf. f_equal. apply IHD.
Qed.

Lemma row_matmul_fin (D : nat) (p : list Q) (E : matrix Q) :
  Forall (fun e => length e = D) E ->
  row_matmul D (fin_row p) (fin_matrix E)
  = fin_row (List.map (weighted_entry p E) (seq 0 D)).
Proof.
  unfold row_matmul. revert E.
  induction p as [|a p IH]; intros E HE.
  - cbn [fin_row List.map zip_with foldr]. apply fin_row_zeros; reflexivity.
  - destruct E as [|e E].
    + cbn [fin_matrix List.map zip_with foldr]. apply fin_row_zeros; reflexivity.
    + apply Forall_cons in HE as [He HE].
      cbn [fin_row fin_matrix List.map zip_with foldr fst snd].
      change (List.map Fin p) with (fin_row p).
      change (List.map fin_row E) with (fin_matrix E).
      change (List.map Fin e) with (fin_row e).
      rewrite (IH E HE), vscale_fin, vadd_fin. f_equal.
      subst D. rewrite scaled_row_plus. apply List.map_ext. intros d.
      unfold weighted_entry. cbn [zip_with Qsum foldr].
      now rewrite Nat.sub_0_r.
Qed.

Lemma matmul_fin (x E : matrix Q) :
  Forall (fun e => length e = length (hd [] E)) E ->
  Forall (fun r => length r = length E) x ->
  matmul (fin_matrix x) (fin_matrix E)
  = Ok (fin_matrix (List.map (fun p => weighted_combination p E) x)).
Proof.
  intros HE Hx. unfold matmul.
  assert (Hshape : forallb (fun r => (length r =? length (fin_matrix E))%nat)
                     (fin_matrix x) = true).
  { apply forallb_forall. intros r Hr.
    apply in_map_iff in Hr as (r0 & <- & Hr0).
    rewrite Forall_forall in Hx. apply list_elem_of_In, Hx in Hr0.
    unfold fin_row, fin_matrix. rewrite !length_map.
    now apply Nat.eqb_eq. }
  rewrite Hshape. f_equal.
  assert (Hw : length (hd [] (fin_matrix E)) = length (hd [] E)).
  { destruct E; [reflexivity|]. apply length_map. }
  rewrite Hw.
  change (fin_matrix x) with (List.map fin_row x).
  change (fin_matrix (List.map (fun p => weighted_combination p E) x))
    with (List.map fin_row (List.map (fun p => weighted_combination p E) x)).
  rewrite !List.map_map. apply List.map_ext. intros p.
  now apply row_matmul_fin.
Qed.

(** An all-zero label vector goes through the division and comes out
    non-finite. *)
Example EventEncoder_forward_no_labels :
  EventEncoder_forward (fin_matrix SampleEvents.table)
    (of_matrix (fin_matrix SampleEvents.no_labels))
  = Ok (of_matrix [[NonFin; NonFin]]).
Proof. vm_compute. reflexivity. Qed.

(** * Further properties *)

(** ** The random source of a rollout step *)

Lemma determine_input_word_generator self input_dict output t g :
  (determine_input_word self input_dict output t g).2 =
  match input_dict !! "mode" with
  | Some mode => if value_eqb_str mode "train" then next g else g
  | None => g
  end.
Proof.
  unfold determine_input_word. rewrite bind_lift. unfold dict_get.
  destruct (input_dict !! "mode") as [mode|]; [| reflexivity].
  rewrite M_bind_unfold. destruct (value_eqb_str mode "train").
  - rewrite bind_random, bind_lift.
    destruct (match input_dict !! "ss_ratio" with
              | Some v => Ok v | None => Err (KeyError "ss_ratio") end)
      as [p|e]; [| reflexivity].
    unfold lift at 1. destruct (float_ltb _ p) as [[|]|e]; [| | reflexivity].
    + reflexivity.
    + rewrite bind_lift. destruct (_ ≫= _) as [n|e]; [| reflexivity].
      cbv zeta. destruct (t =? 0); reflexivity.
  - unfold mret at 1, M_mret, M_ret. cbv beta iota.
    rewrite bind_lift. destruct (_ ≫= _) as [n|e]; [| reflexivity].
    cbv zeta. destruct (t =? 0); reflexivity.
Qed.

Lemma integer_timestep_read (input_dict : dict) :
  (forall tv, input_dict !! "t" = Some tv -> exists t, tv = VInt t) ->
  is_ok (get_int input_dict "t") = is_ok (dict_get input_dict "t").
Proof.
  intros Ht. unfold get_int, dict_get.
  destruct (input_dict !! "t") as [tv|] eqn:E; [| reflexivity].
  destruct (Ht tv eq_refl) as [t ->]. reflexivity.
Qed.

Lemma primary_step_generator self input_dict output g :
  (forall tv, input_dict !! "t" = Some tv -> exists t, tv = VInt t) ->
  (TransformerModel_prepare_decoder_input self input_dict output g).2 =
  if takes_draw Transformer input_dict then next g else g.
Proof.
  intros Hint.
  unfold TransformerModel_prepare_decoder_input, takes_draw, validity_key.
  rewrite <- (integer_timestep_read _ Hint).
  rewrite bind_lift.
  destruct (dict_get input_dict "attn_embs") as [ae|e] eqn:Eae;
    [| reflexivity].
  rewrite bind_lift.
  destruct (dict_get input_dict "attn_emb_lens") as [al|e]; [| reflexivity].
  rewrite bind_lift.
  destruct (get_int input_dict "t") as [t|e]; [| reflexivity].
  cbn [is_ok andb]. rewrite M_bind_unfold.
  pose proof (determine_input_word_generator self input_dict output t g) as Hg.
  destruct (determine_input_word self input_dict output t g) as [[word|e] g1];
    cbn [snd] in Hg; subst g1.
  - rewrite bind_lift.
    destruct (_ ≫= _) as [u|e];
      destruct (input_dict !! "mode") as [mode|]; reflexivity.
  - destruct (input_dict !! "mode") as [mode|]; reflexivity.
Qed.

Lemma alternative_step_generator self input_dict output g :
  (forall tv, input_dict !! "t" = Some tv -> exists t, tv = VInt t) ->
  (M2TransformerModel_prepare_decoder_input self input_dict output g).2 =
  if takes_draw M2Transformer input_dict then next g else g.
Proof.
  intros Hint.
  unfold M2TransformerModel_prepare_decoder_input, takes_draw, validity_key.
  rewrite <- (integer_timestep_read _ Hint).
  rewrite bind_lift.
  destruct (dict_get input_dict "attn_embs") as [ae|e]; [| reflexivity].
  rewrite bind_lift.
  destruct (dict_get input_dict "attn_emb_mask") as [am|e]; [| reflexivity].
  rewrite bind_lift.
  destruct (get_int input_dict "t") as [t|e]; [| reflexivity].
  cbn [is_ok andb]. rewrite M_bind_unfold.
  pose proof (determine_input_word_generator self input_dict output t g) as Hg.
  destruct (determine_input_word self input_dict output t g) as [[word|e] g1];
    cbn [snd] in Hg; subst g1;
    destruct (input_dict !! "mode") as [mode|]; reflexivity.
Qed.

(** X1.  On a step context whose timestep [t], if present, is an integer:
    whatever the outcome of a rollout step, record or exception, the
    random source is advanced by exactly one draw when the step reaches the
    scheduled-sampling test (the attention entries and [t] are present and
    the mode is "train"), and is left untouched otherwise. *)
Theorem step_generator_effect v self input_dict output g :
  (forall tv, input_dict !! "t" = Some tv -> exists t, tv = VInt t) ->
  (prepare_decoder_input v self input_dict output g).2 =
  if takes_draw v input_dict then next g else g.
Proof.
  intros Hint. destruct v; simpl.
  - now apply primary_step_generator.
  - now apply alternative_step_generator.
  - unfold EventCondTransformerModel_prepare_decoder_input.
    rewrite M_bind_unfold.
    pose proof (primary_step_generator self input_dict output g Hint) as Hg.
    destruct (TransformerModel_prepare_decoder_input _ _ _ _)
      as [[d0|e] g1]; cbn [snd] in Hg; subst g1; [| reflexivity].
    rewrite bind_lift. destruct (_ ≫= _) as [ev|e]; reflexivity.
  - unfold KeywordCondTransformerModel_prepare_decoder_input.
    rewrite M_bind_unfold.
    pose proof (primary_step_generator self input_dict output g Hint) as Hg.
    destruct (TransformerModel_prepare_decoder_input _ _ _ _)
      as [[d0|e] g1]; cbn [snd] in Hg; subst g1; [| reflexivity].
    rewrite bind_lift. destruct (dict_get _ _) as [kw|e]; reflexivity.
Qed.

(** A training step on a context without [ss_ratio]: the step raises
    [KeyError] after the draw was taken. *)
Lemma step_generator_effect_witness :
  (prepare_decoder_input Transformer Sample.self
     (delete "ss_ratio" (Sample.step_context "train" 1))
     Sample.running_output (Sample.gen2 (1#4) (3#4))).2
  = next (Sample.gen2 (1#4) (3#4)).
Proof.
  rewrite (step_generator_effect Transformer Sample.self
             (delete "ss_ratio" (Sample.step_context "train" 1))
             Sample.running_output (Sample.gen2 (1#4) (3#4))).
  - vm_compute. reflexivity.
  - intros tv Htv. exists 1. vm_compute in Htv. now injection Htv as <-.
Defined.

(** A training step on a context without [ss_ratio] raises after the draw
    was taken. *)
Example draw_taken_before_ss_ratio_is_read :
  prepare_decoder_input Transformer Sample.self
    (delete "ss_ratio" (Sample.step_context "train" 1)) Sample.running_output
    (Sample.gen2 (1#4) (3#4))
  = (Err (KeyError "ss_ratio"), next (Sample.gen2 (1#4) (3#4))).
Proof. vm_compute. reflexivity. Qed.

(** ** The records *)

Ltac dom_of_inserts :=
  rewrite ?dom_insert_L, dom_empty_L;
  cbn [list_to_set prepared_keys seq_forward_record_keys];
  apply set_eq; intros ?;
  rewrite ?elem_of_union, ?elem_of_singleton, ?elem_of_empty; tauto.

(** X2.  The records have fixed key sets.  A record returned by
    [prepare_decoder_input] or [prepare_beamsearch_decoder_input] holds
    exactly the keys of its variant: the alternative variant never carries
    [caps_padding_mask], and only the derived variants carry [events] or
    [keywords]; none carries [caps] or [seqs]. *)
Theorem prepared_record_keys v self input_dict d :
  (forall output g g',
     prepare_decoder_input v self input_dict output g = (Ok d, g') ->
     dom d = list_to_set (prepared_keys v)) /\
  (forall output_i output_i',
     prepare_beamsearch_decoder_input v self input_dict output_i
       = (Ok d, output_i') ->
     dom d = list_to_set (prepared_keys v)).
Proof.
  split.
  - intros output g g' H. destruct v; simpl in H.
    + apply Transformer_step_inv in H as (ae & al & t & w & _ & _ & _ & _ & ->).
      dom_of_inserts.
    + apply M2Transformer_step_inv in H
        as (ae & al & t & w & _ & _ & _ & _ & ->).
      dom_of_inserts.
    + unfold EventCondTransformerModel_prepare_decoder_input in H.
      apply M_bind_ok in H as (d0 & g1 & H0 & H).
      apply M_bind_ok in H as (ev & g2 & _ & H). apply mret_ok in H as [-> _].
      apply Transformer_step_inv in H0
        as (ae & al & t & w & _ & _ & _ & _ & ->).
      dom_of_inserts.
    + unfold KeywordCondTransformerModel_prepare_decoder_input in H.
      apply M_bind_ok in H as (d0 & g1 & H0 & H).
      apply M_bind_ok in H as (kw & g2 & _ & H). apply mret_ok in H as [-> _].
      apply Transformer_step_inv in H0
        as (ae & al & t & w & _ & _ & _ & _ & ->).
      dom_of_inserts.
  - intros output_i output_i' H. destruct v; simpl in H.
    + apply Transformer_beam_inv in H
        as (t & i & B & ae & al & w & _ & _ & _ & _ & _ & ->).
      dom_of_inserts.
    + apply M2Transformer_beam_inv in H
        as (t & i & B & ae & al & w & _ & _ & _ & _ & _ & ->).
      dom_of_inserts.
    + apply EventCond_beam_inv in H
        as (d0 & s1 & t & i & B & ev & H0 & _ & _ & _ & _ & ->).
      apply Transformer_beam_inv in H0
        as (t' & i' & B' & ae & al & w & _ & _ & _ & _ & _ & ->).
      dom_of_inserts.
    + apply KeywordCond_beam_inv in H
        as (d0 & s1 & t & i & B & kw & H0 & _ & _ & _ & _ & ->).
      apply Transformer_beam_inv in H0
        as (t' & i' & B' & ae & al & w & _ & _ & _ & _ & _ & ->).
      dom_of_inserts.
Qed.

(** Inference at step 1 on the sample batch, alternative variant: three
    keys, no padding mask. *)
Lemma prepared_record_keys_witness :
  dom (returned_record
         (prepare_decoder_input M2Transformer Sample.self
            (Sample.step_context "inference" 1) Sample.running_output
            (Sample.gen2 (1#4) (3#4))))
  = list_to_set (prepared_keys M2Transformer).
Proof.
  apply (proj1 (prepared_record_keys M2Transformer Sample.self
                  (Sample.step_context "inference" 1) _)
           Sample.running_output
           (Sample.gen2 (1#4) (3#4)) (Sample.gen2 (1#4) (3#4))).
  vm_compute. reflexivity.
Defined.

(** X3.  [seq_forward] reaches the decoder at most once, for every variant:
    either it raises before the decoder is invoked and leaves the decoder
    state and the log untouched, or it invokes the decoder once on a record
    with the keys of its variant, whose attention (and keyword) entries are
    the ones of the batch; the event-conditioned variant hands on no
    [events]. *)
Theorem seq_forward_record {DS Out} (decoder : dict -> M DS Out)
    v self input_dict ds log :
  (exists e, seq_forward decoder v self input_dict (ds, log)
             = (Err e, (ds, log))) \/
  (exists rec, seq_forward decoder v self input_dict (ds, log)
               = decoder_called decoder rec ds log /\
               dom rec = list_to_set (seq_forward_record_keys v) /\
               Forall (fun k => rec !! k = input_dict !! k)
                      (seq_forward_keys v)).
Proof.
  assert (Hprim :
    (exists e, TransformerModel_seq_forward decoder self input_dict (ds, log)
               = (Err e, (ds, log))) \/
    (exists rec, TransformerModel_seq_forward decoder self input_dict (ds, log)
                 = decoder_called decoder rec ds log /\
                 dom rec = list_to_set (seq_forward_record_keys Transformer) /\
                 Forall (fun k => rec !! k = input_dict !! k)
                        (seq_forward_keys Transformer))).
  { rewrite Transformer_seq_forward_run.
    destruct (_ ← dict_get _ _; _) as [caps|e]; [| eauto].
    destruct (slice_cols (-1) caps) as [word|e]; [| eauto].
    destruct (dict_get input_dict "attn_embs") as [ae|e] eqn:E1; [| eauto].
    destruct (dict_get input_dict "attn_emb_lens") as [al|e] eqn:E2;
      [| eauto].
    apply dict_get_ok in E1, E2.
    right. eexists. split; [reflexivity|]. split; [dom_of_inserts|].
    cbn [seq_forward_keys]. rewrite !Forall_cons, Forall_nil.
    rewrite E1, E2. repeat split; map_lookup. }
  destruct v; simpl; try exact Hprim.
  - rewrite M2Transformer_seq_forward_run.
    destruct (_ ← dict_get _ _; _) as [caps|e]; [| eauto].
    destruct (slice_cols (-1) caps) as [word|e]; [| eauto].
    destruct (dict_get input_dict "attn_embs") as [ae|e] eqn:E1; [| eauto].
    destruct (dict_get input_dict "attn_emb_mask") as [am|e] eqn:E2;
      [| eauto].
    apply dict_get_ok in E1, E2.
    right. eexists. split; [reflexivity|]. split; [dom_of_inserts|].
    rewrite !Forall_cons, Forall_nil.
    rewrite E1, E2. repeat split; map_lookup.
  - rewrite KeywordCond_seq_forward_run.
    destruct (_ ← dict_get _ _; _) as [caps|e]; [| eauto].
    destruct (slice_cols (-1) caps) as [word|e]; [| eauto].
    destruct (dict_get input_dict "keywords") as [kw|e] eqn:E0; [| eauto].
    destruct (dict_get input_dict "attn_embs") as [ae|e] eqn:E1; [| eauto].
    destruct (dict_get input_dict "attn_emb_lens") as [al|e] eqn:E2;
      [| eauto].
    apply dict_get_ok in E0, E1, E2.
    right. eexists. split; [reflexivity|]. split; [dom_of_inserts|].
    rewrite !Forall_cons, Forall_nil.
    rewrite E0, E1, E2. repeat split; map_lookup.
Qed.

(** ** What a rollout step hands on *)

(** X4.  A record returned by [prepare_decoder_input] holds the attention
    source and its lengths (or mask) exactly as the step context holds
    them; the keyword-conditioned variant hands the keywords on unchanged
    and the event-conditioned variant the encoding of the events. *)
Theorem step_hands_entries_on v self input_dict output g d g' :
  prepare_decoder_input v self input_dict output g = (Ok d, g') ->
  d !! "attn_embs" = input_dict !! "attn_embs" /\
  d !! validity_key v = input_dict !! validity_key v /\
  conditioning_entry v self input_dict d.
Proof.
  assert (Hprim : forall d0 g1,
    TransformerModel_prepare_decoder_input self input_dict output g
      = (Ok d0, g1) ->
    d0 !! "attn_embs" = input_dict !! "attn_embs" /\
    d0 !! "attn_emb_lens" = input_dict !! "attn_emb_lens").
  { intros d0 g1 H0.
    apply Transformer_step_inv in H0
      as (ae & al & t & w & -> & -> & _ & _ & ->).
    split; map_lookup. }
  intros H. destruct v; simpl in H |- *.
  - destruct (Hprim _ _ H). auto.
  - apply M2Transformer_step_inv in H
      as (ae & am & t & w & -> & -> & _ & _ & ->).
    repeat split; map_lookup.
  - unfold EventCondTransformerModel_prepare_decoder_input in H.
    apply M_bind_ok in H as (d0 & g1 & H0 & H).
    apply M_bind_ok in H as (x & g2 & Hev & H).
    apply lift_ok in Hev as [Hev ->]. apply mret_ok in H as [-> ->].
    apply result_bind_ok in Hev as (ev & Hget & Hx).
    apply dict_get_ok in Hget.
    destruct (Hprim _ _ H0) as [H1 H2].
    rewrite !lookup_insert_ne by discriminate.
    repeat split; auto. exists ev, x. repeat split; auto; map_lookup.
  - unfold KeywordCondTransformerModel_prepare_decoder_input in H.
    apply M_bind_ok in H as (d0 & g1 & H0 & H).
    apply M_bind_ok in H as (kw & g2 & Hkw & H).
    apply lift_ok in Hkw as [Hkw ->]. apply mret_ok in H as [-> ->].
    apply dict_get_ok in Hkw.
    destruct (Hprim _ _ H0) as [H1 H2].
    rewrite !lookup_insert_ne by discriminate.
    repeat split; auto. rewrite Hkw. map_lookup.
Qed.

(** Inference at step 1 on the sample batch, keyword-conditioned
    variant. *)
Lemma step_hands_entries_on_witness :
  returned_record
    (prepare_decoder_input KeywordCondTransformer Sample.self
       (Sample.step_context "inference" 1) Sample.running_output
       (Sample.gen2 (1#4) (3#4))) !! "keywords"
  = Sample.step_context "inference" 1 !! "keywords".
Proof.
  apply (step_hands_entries_on KeywordCondTransformer Sample.self
           (Sample.step_context "inference" 1) Sample.running_output
           (Sample.gen2 (1#4) (3#4)) _ (Sample.gen2 (1#4) (3#4))).
  vm_compute. reflexivity.
Defined.

(** ** The shape of the word *)

(** X5.  Both branches of a rollout step build a word of the same shape:
    when the captions have one row per sample with [t + 1] tokens at least
    and the running [seqs] has [t] tokens per row at least, the word of a
    returned record has one row per sample and [t + 1] columns, whether
    the step was teacher-forced or not. *)
Theorem step_word_shape v self input_dict output g d g' t embs
    (c s : matrix Z) :
  input_dict !! "t" = Some (VInt t) -> 0 <= t ->
  input_dict !! "attn_embs" = Some embs ->
  value_size0 embs = Ok (Z.of_nat (length c)) ->
  input_dict !! "caps" = Some (VLong (of_matrix c)) ->
  output !! "seqs" = Some (VLong (of_matrix s)) ->
  Forall (fun r => (Z.to_nat (t + 1) <= length r)%nat) c ->
  Forall (fun r => (Z.to_nat t <= length r)%nat) s ->
  prepare_decoder_input v self input_dict output g = (Ok d, g') ->
  exists w : matrix Z,
    d !! "word" = Some (VLong (of_matrix w)) /\
    length w = length c /\
    Forall (fun r => length r = Z.to_nat (t + 1)) w.
Proof.
  intros Ht Hpos Hembs Hn Hcaps Hseqs Hc Hs H.
  destruct (step_word_inv _ _ _ _ _ _ _ _ Ht H) as (word & Hw & Hword & _).
  assert (Hteacher : teacher_word input_dict t word ->
    exists w : matrix Z, word = of_matrix w /\ length w = length c /\
      Forall (fun r => length r = Z.to_nat (t + 1)) w).
  { intros (caps & Hcaps' & Hslice & _).
    rewrite Hcaps in Hcaps'. injection Hcaps' as <-.
    rewrite slice_cols_of_matrix in Hslice. injection Hslice as <-.
    eexists. split; [reflexivity|]. split; [apply length_map|].
    apply Forall_forall. intros r Hr.
    apply list_elem_of_In, in_map_iff in Hr as (r0 & <- & Hr0).
    rewrite Forall_forall in Hc. apply list_elem_of_In, Hc in Hr0.
    rewrite py_slice_to_length by lia. lia. }
  assert (Hgen : generated_word self input_dict output t word ->
    exists w : matrix Z, word = of_matrix w /\ length w = length c /\
      Forall (fun r => length r = Z.to_nat (t + 1)) w).
  { intros (embs' & n & Hembs' & Hn' & Hrule).
    rewrite Hembs in Hembs'. injection Hembs' as <-.
    rewrite Hn in Hn'. injection Hn' as <-.
    destruct (Z.eqb_spec t 0) as [-> | Hne].
    - subst word. rewrite start_column_replicate.
      eexists. split; [reflexivity|].
      split; [rewrite length_replicate; lia|].
      apply Forall_forall. intros r Hr.
      apply elem_of_replicate in Hr as [-> _]. reflexivity.
    - destruct Hrule as (seqs & prev & Hseqs' & Hslice & Hcat).
      rewrite Hseqs in Hseqs'. injection Hseqs' as <-.
      rewrite slice_cols_of_matrix in Hslice. injection Hslice as <-.
      apply cat_cols_start_inv in Hcat as (m & Hm & Hlen & ->).
      apply of_matrix_inj in Hm. subst m.
      eexists. split; [reflexivity|].
      split; [rewrite length_map; lia|].
      apply Forall_forall. intros r Hr.
      apply list_elem_of_In, in_map_iff in Hr as (r1 & <- & Hr1).
      apply in_map_iff in Hr1 as (r0 & <- & Hr0).
      rewrite Forall_forall in Hs. apply list_elem_of_In, Hs in Hr0.
      cbn [length]. rewrite py_slice_to_length by lia. lia. }
  apply determine_input_word_ok in Hw as (mode & _ & Hrule).
  assert (Hshape : exists w : matrix Z, word = of_matrix w /\
            length w = length c /\
            Forall (fun r => length r = Z.to_nat (t + 1)) w).
  { destruct (value_eqb_str mode "train").
    - destruct Hrule as (_ & p & [|] & _ & _ & Hrule); auto.
    - destruct Hrule as [_ Hrule]. auto. }
  destruct Hshape as (w & -> & Hlen & Hrows). eauto.
Qed.

(** A teacher-forced and a free-running step at [t = 1] on the sample
    batch: two rows of two tokens each time. *)
Lemma step_word_shape_witness :
  exists w : matrix Z,
    returned_record
      (prepare_decoder_input Transformer Sample.self
         (Sample.step_context "train" 1) Sample.running_output
         (Sample.gen2 (3#4) (1#4))) !! "word"
    = Some (VLong (of_matrix w)) /\
    length w = length [[1; 7; 8; 2; 0]; [1; 9; 2; 0; 0]] /\
    Forall (fun r => length r = Z.to_nat (1 + 1)) w.
Proof.
  apply (step_word_shape Transformer Sample.self
           (Sample.step_context "train" 1) Sample.running_output
           (Sample.gen2 (3#4) (1#4)) _ (next (Sample.gen2 (3#4) (1#4)))
           1 Sample.attn_embs
           [[1; 7; 8; 2; 0]; [1; 9; 2; 0; 0]]
           [[5; 6; 0; 0]; [3; 4; 0; 0]]);
    try (vm_compute; reflexivity); try lia.
  - repeat constructor.
  - repeat constructor.
Defined.

(** X6.  Outside training mode and in beam search every row of the word
    starts with the start token, whatever the running output or the beam
    state holds. *)
Theorem word_rows_start_with_start_token v self input_dict d :
  (forall output g g',
     input_dict !! "mode" <> Some (VStr "train") ->
     prepare_decoder_input v self input_dict output g = (Ok d, g') ->
     exists w : matrix Z,
       d !! "word" = Some (VLong (of_matrix w)) /\
       Forall (fun r => head r = Some (start_idx self)) w) /\
  (forall output_i output_i',
     prepare_beamsearch_decoder_input v self input_dict output_i
       = (Ok d, output_i') ->
     exists w : matrix Z,
       d !! "word" = Some (VLong (of_matrix w)) /\
       Forall (fun r => head r = Some (start_idx self)) w).
Proof.
  assert (Hcol : forall n, exists w : matrix Z,
    start_column (start_idx self) n = of_matrix w /\
    Forall (fun r => head r = Some (start_idx self)) w).
  { intros n. rewrite start_column_replicate. eexists.
    split; [reflexivity|]. apply Forall_forall. intros r Hr.
    apply elem_of_replicate in Hr as [-> _]. reflexivity. }
  assert (Hcat : forall n x word,
    cat_cols (start_column (start_idx self) n) x = Ok word ->
    exists w : matrix Z, word = of_matrix w /\
      Forall (fun r => head r = Some (start_idx self)) w).
  { intros n x word H.
    apply cat_cols_start_inv in H as (m & _ & _ & ->).
    eexists. split; [reflexivity|]. apply Forall_forall. intros r Hr.
    apply list_elem_of_In, in_map_iff in Hr as (r0 & <- & _). reflexivity. }
  split.
  - intros output g g' Hmode H.
    destruct (step_reads_t _ _ _ _ _ _ _ H) as [t Ht].
    destruct (step_word_inv _ _ _ _ _ _ _ _ Ht H) as (word & Hw & Hword & _).
    apply determine_input_word_ok in Hw as (mode & Hm & Hrule).
    assert (Hnt : value_eqb_str mode "train" = false).
    { apply (not_train_eqb input_dict); [assumption|].
      now apply dict_get_ok. }
    rewrite Hnt in Hrule. destruct Hrule as (_ & embs & n & _ & _ & Hrule).
    rewrite Hword. destruct (t =? 0).
    + subst word. destruct (Hcol n) as (w & -> & Hw). eauto.
    + destruct Hrule as (seqs & prev & _ & _ & Hc).
      destruct (Hcat _ _ _ Hc) as (w & -> & Hw). eauto.
  - intros output_i output_i' H.
    destruct (beam_reads_t _ _ _ _ _ _ H) as (t & B & Ht & HB).
    destruct (beam_word_inv _ _ _ _ _ _ _ _ Ht HB H)
      as (word & Hword & Hrule & _).
    rewrite Hword. destruct (t =? 0).
    + subst word. destruct (Hcol B) as (w & -> & Hw). eauto.
    + destruct Hrule as (_ & seqs & _ & Hc).
      destruct (Hcat _ _ _ Hc) as (w & -> & Hw). eauto.
Qed.

(** A teacher-forced step takes the first column from the captions, which
    need not hold the start token. *)
Example teacher_forced_word_starts_with_the_caption :
  returned_word
    (prepare_decoder_input Transformer Sample.self
       (<["caps" := VLong (of_matrix [[4; 7; 8]; [4; 9; 2]])]>
          (Sample.step_context "train" 1))
       Sample.running_output (Sample.gen2 (1#4) (3#4)))
  = Some (VLong (of_matrix [[4; 7]; [4; 9]])).
Proof. vm_compute. reflexivity. Qed.

(** ** The beam state when a step raises *)

Lemma expand_sample_device input_dict i B ae :
  expand_sample input_dict "attn_embs" i B = Ok ae ->
  (v ← dict_get input_dict "attn_embs"; value_device v) = Ok tt.
Proof.
  intros H. apply expand_sample_ok in H as (whole & sample & Hw & Hs & HB & _).
  apply dict_get_ok in Hw. rewrite Hw, result_bind_ret.
  now apply (value_index_repeat whole i sample B).
Qed.

Lemma primary_beam_exception self input_dict output_i e s' :
  TransformerModel_prepare_beamsearch_decoder_input self input_dict output_i
    = (Err e, s') ->
  s' = output_i.
Proof.
  destruct (get_int input_dict "t") as [t|et] eqn:Ht.
  2: { unfold TransformerModel_prepare_beamsearch_decoder_input.
       rewrite bind_lift, Ht. now inversion 1. }
  destruct (get_int input_dict "sample_idx") as [i|ei] eqn:Hi.
  2: { unfold TransformerModel_prepare_beamsearch_decoder_input.
       rewrite bind_lift, Ht, bind_lift, Hi. now inversion 1. }
  destruct (get_int input_dict "beam_size") as [B|eB] eqn:HB.
  2: { unfold TransformerModel_prepare_beamsearch_decoder_input.
       rewrite bind_lift, Ht, bind_lift, Hi, bind_lift, HB. now inversion 1. }
  apply get_int_ok in Ht, Hi, HB.
  destruct (Z.eq_dec t 0) as [-> | Hne].
  - rewrite (Transformer_beam_first _ _ _ _ _ Ht Hi HB).
    destruct (expand_sample input_dict "attn_embs" i B) as [ae|e1] eqn:E1;
      [| now inversion 1].
    destruct (expand_sample input_dict "attn_emb_lens" i B) as [al|e2];
      [| now inversion 1].
    cbv zeta. rewrite (expand_sample_device _ _ _ _ E1). discriminate.
  - intros H.
    pose proof (preserves_Transformer_beam self input_dict t Ht Hne output_i)
      as Hp.
    rewrite H in Hp. exact Hp.
Qed.

Lemma alternative_beam_exception self input_dict output_i e s' :
  M2TransformerModel_prepare_beamsearch_decoder_input self input_dict output_i
    = (Err e, s') ->
  s' = output_i.
Proof.
  destruct (get_int input_dict "t") as [t|et] eqn:Ht.
  2: { unfold M2TransformerModel_prepare_beamsearch_decoder_input.
       rewrite bind_lift, Ht. now inversion 1. }
  destruct (get_int input_dict "sample_idx") as [i|ei] eqn:Hi.
  2: { unfold M2TransformerModel_prepare_beamsearch_decoder_input.
       rewrite bind_lift, Ht, bind_lift, Hi. now inversion 1. }
  destruct (get_int input_dict "beam_size") as [B|eB] eqn:HB.
  2: { unfold M2TransformerModel_prepare_beamsearch_decoder_input.
       rewrite bind_lift, Ht, bind_lift, Hi, bind_lift, HB. now inversion 1. }
  apply get_int_ok in Ht, Hi, HB.
  destruct (Z.eq_dec t 0) as [-> | Hne].
  - rewrite (M2Transformer_beam_first _ _ _ _ _ Ht Hi HB).
    destruct (expand_sample input_dict "attn_embs" i B) as [ae|e1];
      [| now inversion 1].
    destruct (expand_sample input_dict "attn_emb_mask" i B) as [am|e2];
      [| now inversion 1].
    discriminate.
  - intros H.
    pose proof (preserves_M2Transformer_beam self input_dict t Ht Hne output_i)
      as Hp.
    rewrite H in Hp. exact Hp.
Qed.

(** X7.  For the primary and the alternative variant a call of
    [prepare_beamsearch_decoder_input] that raises, at any timestep and on
    any step context, leaves the beam state as it found it: the two fields
    are stored only after both expansions have succeeded. *)
Theorem beam_exception_keeps_state v self input_dict output_i e output_i' :
  conditioning_key v = None ->
  prepare_beamsearch_decoder_input v self input_dict output_i
    = (Err e, output_i') ->
  output_i' = output_i.
Proof.
  intros Hv H. destruct v; try discriminate Hv; simpl in H.
  - now apply primary_beam_exception in H.
  - now apply alternative_beam_exception in H.
Qed.

(** The first step on a batch without [attn_emb_lens]: nothing is
    stored. *)
Lemma beam_exception_keeps_state_witness :
  (prepare_beamsearch_decoder_input Transformer Sample.self
     (delete "attn_emb_lens" (Sample.beam_context 0)) ∅).2 = ∅.
Proof.
  apply (beam_exception_keeps_state Transformer Sample.self
           (delete "attn_emb_lens" (Sample.beam_context 0)) ∅
           (KeyError "attn_emb_lens")); vm_compute; reflexivity.
Defined.

(** X8.  A derived variant does not have this guarantee: when the
    expansion of the parent succeeds at the first step and the batch holds
    no entry under the conditioning key, the call raises [KeyError] for
    that key after the fields of the parent were stored in the beam
    state. *)
Theorem derived_first_step_stores_before_raising
    v k self input_dict output_i i B ae al :
  conditioning_key v = Some k ->
  input_dict !! "t" = Some (VInt 0) ->
  input_dict !! "sample_idx" = Some (VInt i) ->
  input_dict !! "beam_size" = Some (VInt B) ->
  expand_sample input_dict "attn_embs" i B = Ok ae ->
  expand_sample input_dict "attn_emb_lens" i B = Ok al ->
  input_dict !! k = None ->
  prepare_beamsearch_decoder_input v self input_dict output_i
  = (Err (KeyError k),
     <["attn_emb_lens" := al]> (<["attn_embs" := ae]> output_i)).
Proof.
  intros Hv Ht Hi HB Hae Hal Hk.
  assert (Hget : dict_get input_dict k = Err (KeyError k)).
  { unfold dict_get. now rewrite Hk. }
  destruct v; try discriminate Hv; injection Hv as <-; simpl.
  - rewrite (EventCond_beam_first _ _ _ _ _ Ht Hi HB).
    rewrite (Transformer_beam_first _ _ _ _ _ Ht Hi HB), Hae, Hal.
    cbv zeta. rewrite (expand_sample_device _ _ _ _ Hae).
    unfold expand_events. now rewrite Hget.
  - rewrite (KeywordCond_beam_first _ _ _ _ _ Ht Hi HB).
    rewrite (Transformer_beam_first _ _ _ _ _ Ht Hi HB), Hae, Hal.
    cbv zeta. rewrite (expand_sample_device _ _ _ _ Hae).
    unfold expand_sample. now rewrite Hget.
Qed.

(** The first step of the event-conditioned variant on the sample batch
    without [events]. *)
Lemma derived_first_step_stores_before_raising_witness :
  prepare_beamsearch_decoder_input EventCondTransformer Sample.self
    (delete "events" (Sample.beam_context 0)) ∅
  = (Err (KeyError "events"),
     <["attn_emb_lens" := VLong (Stack [Scalar 3; Scalar 3])]>
       (<["attn_embs" :=
            VFloatT (Stack [of_matrix [[Fin 1]; [Fin 2]; [Fin 3]];
                            of_matrix [[Fin 1]; [Fin 2]; [Fin 3]]])]> ∅)).
Proof.
  apply (derived_first_step_stores_before_raising EventCondTransformer
           "events" Sample.self (delete "events" (Sample.beam_context 0)) ∅
           0 2); vm_compute; reflexivity.
Defined.

(** ** Bounds *)

Lemma tensor_index_out_of_range {A} (x : tensor A) (i N : Z) :
  size0 x = Ok N -> i < - N \/ N <= i -> tensor_index x i = Err IndexError.
Proof.
  destruct x as [a|xs]; [discriminate|]. cbn [size0].
  intros HN Hi. injection HN as <-. unfold tensor_index.
  destruct (Z.ltb_spec i 0).
  - destruct (Z.leb_spec 0 (i + Z.of_nat (length xs))); [lia | reflexivity].
  - destruct (Z.leb_spec 0 i); [| lia]. cbn [andb].
    destruct (Z.ltb_spec i (Z.of_nat (length xs))); [lia | reflexivity].
Qed.

Lemma value_index_out_of_range (v : value) (i N : Z) :
  value_size0 v = Ok N -> i < - N \/ N <= i -> value_index v i = Err IndexError.
Proof.
  destruct v; try discriminate; cbn [value_size0 value_index]; intros HN Hi;
    now rewrite (tensor_index_out_of_range _ _ _ HN Hi).
Qed.

(** X9.  The sample index is checked by the indexing itself: at the first
    step an index that is not within [-N, N) for an attention source of [N]
    samples makes every variant raise [IndexError], and nothing is stored
    in the beam state. *)
Theorem beam_sample_index_out_of_range
    v self input_dict output_i i B embs N :
  input_dict !! "t" = Some (VInt 0) ->
  input_dict !! "sample_idx" = Some (VInt i) ->
  input_dict !! "beam_size" = Some (VInt B) ->
  input_dict !! "attn_embs" = Some embs ->
  value_size0 embs = Ok N ->
  i < - N \/ N <= i ->
  prepare_beamsearch_decoder_input v self input_dict output_i
  = (Err IndexError, output_i).
Proof.
  intros Ht Hi HB Hembs HN Hrange.
  assert (Hexp : expand_sample input_dict "attn_embs" i B = Err IndexError).
  { unfold expand_sample. apply dict_get_ok in Hembs.
    rewrite Hembs, result_bind_ret.
    now rewrite (value_index_out_of_range _ _ _ HN Hrange). }
  assert (Hprim :
    TransformerModel_prepare_beamsearch_decoder_input self input_dict output_i
    = (Err IndexError, output_i)).
  { now rewrite (Transformer_beam_first _ _ _ _ _ Ht Hi HB), Hexp. }
  destruct v; simpl.
  - exact Hprim.
  - now rewrite (M2Transformer_beam_first _ _ _ _ _ Ht Hi HB), Hexp.
  - now rewrite (EventCond_beam_first _ _ _ _ _ Ht Hi HB), Hprim.
  - now rewrite (KeywordCond_beam_first _ _ _ _ _ Ht Hi HB), Hprim.
Qed.

(** Sample 2 of a batch of two. *)
Lemma beam_sample_index_out_of_range_witness :
  prepare_beamsearch_decoder_input KeywordCondTransformer Sample.self
    (<["sample_idx" := VInt 2]> (Sample.beam_context 0)) ∅
  = (Err IndexError, ∅).
Proof.
  apply (beam_sample_index_out_of_range KeywordCondTransformer Sample.self
           (<["sample_idx" := VInt 2]> (Sample.beam_context 0)) ∅ 2 2
           Sample.attn_embs 2); try (vm_compute; reflexivity).
  right. lia.
Defined.

(** A negative index counts from the end: sample -1 of the sample batch is
    its last sample. *)
Example beam_negative_sample_index :
  (prepare_beamsearch_decoder_input Transformer Sample.self
     (<["sample_idx" := VInt (-1)]> (Sample.beam_context 0)) ∅).1
  = (prepare_beamsearch_decoder_input Transformer Sample.self
       (<["sample_idx" := VInt 1]> (Sample.beam_context 0)) ∅).1.
Proof. vm_compute. reflexivity. Qed.

Lemma cat_cols_rows_mismatch start n (m : matrix Z) :
  length m <> Z.to_nat n ->
  cat_cols (start_column start n) (of_matrix m) = Err RuntimeError.
Proof.
  intros Hlen. rewrite start_column_replicate. unfold cat_cols, of_matrix.
  rewrite !length_map, length_replicate.
  destruct (Nat.eqb_spec (Z.to_nat n) (length m)); [lia | reflexivity].
Qed.

(** X10.  At a later step the rows of [seqs] must be as many as the beams:
    with the cached fields present and a [seqs] matrix that has rows, but
    not as many as there are beams, every variant raises [RuntimeError]
    (the concatenation fails) and leaves the beam state unchanged. *)
Theorem beam_seqs_rows_must_match_beam_width
    v self input_dict output_i t i B (m : matrix Z) :
  input_dict !! "t" = Some (VInt t) ->
  input_dict !! "sample_idx" = Some (VInt i) ->
  input_dict !! "beam_size" = Some (VInt B) ->
  t <> 0 ->
  is_Some (output_i !! "attn_embs") ->
  is_Some (output_i !! validity_key v) ->
  output_i !! "seqs" = Some (VLong (of_matrix m)) ->
  m <> [] ->
  length m <> Z.to_nat B ->
  prepare_beamsearch_decoder_input v self input_dict output_i
  = (Err RuntimeError, output_i).
Proof.
  intros Ht Hi HB Hne [ae Hae] [al Hal] Hseqs _ Hlen.
  assert (Hprim : validity_key v = "attn_emb_lens" ->
    TransformerModel_prepare_beamsearch_decoder_input self input_dict output_i
    = (Err RuntimeError, output_i)).
  { intros Hv. rewrite Hv in Hal.
    rewrite (Transformer_beam_later _ _ _ _ _ _ Ht Hi HB Hne).
    rewrite Hae, Hal, Hseqs. cbn [as_long].
    now rewrite result_bind_ret, (cat_cols_rows_mismatch _ _ _ Hlen). }
  destruct v; simpl.
  - now apply Hprim.
  - cbn [validity_key] in Hal.
    rewrite (M2Transformer_beam_later _ _ _ _ _ _ Ht Hi HB Hne).
    rewrite Hae, Hal, Hseqs. cbn [as_long].
    now rewrite result_bind_ret, (cat_cols_rows_mismatch _ _ _ Hlen).
  - rewrite (EventCond_beam_later _ _ _ _ _ _ Ht Hi HB Hne).
    now rewrite Hprim.
  - rewrite (KeywordCond_beam_later _ _ _ _ _ _ Ht Hi HB Hne).
    now rewrite Hprim.
Qed.

(** Two beams and three rows of tokens. *)
Lemma beam_seqs_rows_must_match_beam_width_witness :
  prepare_beamsearch_decoder_input M2Transformer Sample.self
    (Sample.beam_context 1) (Sample.beam_state [[5]; [7]; [9]])
  = (Err RuntimeError, Sample.beam_state [[5]; [7]; [9]]).
Proof.
  apply (beam_seqs_rows_must_match_beam_width M2Transformer Sample.self
           (Sample.beam_context 1) (Sample.beam_state [[5]; [7]; [9]])
           1 0 2 [[5]; [7]; [9]]);
    try (vm_compute; reflexivity); try discriminate;
    vm_compute; eauto.
Defined.

(** ** The first step and the state it finds *)

Ltac map_eq_inserts :=
  apply map_eq; intros ?; rewrite !lookup_insert;
  repeat case_decide; congruence.

(** X11.  The first step of beam search does not look at the beam state it
    is given: the record or exception of the call is the same for any two
    incoming beam states, and running the first step again on the state it
    left behind returns the same record and leaves that state unchanged. *)
Theorem beam_first_step_ignores_old_state v self input_dict i B :
  input_dict !! "t" = Some (VInt 0) ->
  input_dict !! "sample_idx" = Some (VInt i) ->
  input_dict !! "beam_size" = Some (VInt B) ->
  (forall s1 s2,
     (prepare_beamsearch_decoder_input v self input_dict s1).1
     = (prepare_beamsearch_decoder_input v self input_dict s2).1) /\
  (forall s d s',
     prepare_beamsearch_decoder_input v self input_dict s = (Ok d, s') ->
     prepare_beamsearch_decoder_input v self input_dict s' = (Ok d, s')).
Proof.
  intros Ht Hi HB.
  assert (Hprim : forall s,
    TransformerModel_prepare_beamsearch_decoder_input self input_dict s =
    match expand_sample input_dict "attn_embs" i B,
          expand_sample input_dict "attn_emb_lens" i B with
    | Ok ae, Ok al =>
        (Ok (<["caps_padding_mask" :=
                 VBoolT (tensor_eq_int (start_column (start_idx self) B)
                           (pad_idx self))]>
             (<["word" := VLong (start_column (start_idx self) B)]>
              (<["attn_emb_lens" := al]> (<["attn_embs" := ae]> ∅)))),
         <["attn_emb_lens" := al]> (<["attn_embs" := ae]> s))
    | Ok _, Err e => (Err e, s)
    | Err e, _ => (Err e, s)
    end).
  { intros s. rewrite (Transformer_beam_first _ _ _ _ _ Ht Hi HB).
    destruct (expand_sample input_dict "attn_embs" i B) as [ae|e] eqn:E1;
      [| reflexivity].
    destruct (expand_sample input_dict "attn_emb_lens" i B) as [al|e];
      [| reflexivity].
    cbv zeta. now rewrite (expand_sample_device _ _ _ _ E1). }
  destruct v; simpl.
  - split.
    + intros s1 s2. rewrite !Hprim.
      destruct (expand_sample input_dict "attn_embs" i B);
        [destruct (expand_sample input_dict "attn_emb_lens" i B) |];
        reflexivity.
    + intros s d s'. rewrite !Hprim.
      destruct (expand_sample input_dict "attn_embs" i B);
        [destruct (expand_sample input_dict "attn_emb_lens" i B) |];
        intros H; inversion H; subst.
      f_equal. map_eq_inserts.
  - split.
    + intros s1 s2.
      rewrite !(M2Transformer_beam_first _ _ _ _ _ Ht Hi HB).
      destruct (expand_sample input_dict "attn_embs" i B);
        [destruct (expand_sample input_dict "attn_emb_mask" i B) |];
        reflexivity.
    + intros s d s'.
      rewrite !(M2Transformer_beam_first _ _ _ _ _ Ht Hi HB).
      destruct (expand_sample input_dict "attn_embs" i B);
        [destruct (expand_sample input_dict "attn_emb_mask" i B) |];
        intros H; inversion H; subst.
      f_equal. map_eq_inserts.
  - split.
    + intros s1 s2.
      rewrite !(EventCond_beam_first _ _ _ _ _ Ht Hi HB), !Hprim.
      destruct (expand_sample input_dict "attn_embs" i B);
        [destruct (expand_sample input_dict "attn_emb_lens" i B) |];
        try reflexivity.
      destruct (expand_events self input_dict i B); reflexivity.
    + intros s d s'.
      rewrite !(EventCond_beam_first _ _ _ _ _ Ht Hi HB), !Hprim.
      destruct (expand_sample input_dict "attn_embs" i B);
        [destruct (expand_sample input_dict "attn_emb_lens" i B) |];
        try discriminate.
      destruct (expand_events self input_dict i B); [| discriminate].
      intros H; inversion H; subst. f_equal. map_eq_inserts.
  - split.
    + intros s1 s2.
      rewrite !(KeywordCond_beam_first _ _ _ _ _ Ht Hi HB), !Hprim.
      destruct (expand_sample input_dict "attn_embs" i B);
        [destruct (expand_sample input_dict "attn_emb_lens" i B) |];
        try reflexivity.
      destruct (expand_sample input_dict "keywords" i B); reflexivity.
    + intros s d s'.
      rewrite !(KeywordCond_beam_first _ _ _ _ _ Ht Hi HB), !Hprim.
      destruct (expand_sample input_dict "attn_embs" i B);
        [destruct (expand_sample input_dict "attn_emb_lens" i B) |];
        try discriminate.
      destruct (expand_sample input_dict "keywords" i B); [| discriminate].
      intros H; inversion H; subst. f_equal. map_eq_inserts.
Qed.

(** The first step on an empty beam state and on the state of another
    sample. *)
Lemma beam_first_step_ignores_old_state_witness :
  (prepare_beamsearch_decoder_input EventCondTransformer Sample.self
     (Sample.beam_context 0) ∅).1
  = (prepare_beamsearch_decoder_input EventCondTransformer Sample.self
       (Sample.beam_context 0) (Sample.beam_state [[5]; [7]])).1.
Proof.
  apply (proj1 (beam_first_step_ignores_old_state EventCondTransformer
                  Sample.self (Sample.beam_context 0) 0 2
                  ltac:(vm_compute; reflexivity)
                  ltac:(vm_compute; reflexivity)
                  ltac:(vm_compute; reflexivity))).
Defined.

(** ** Teacher forcing, step by step and all at once *)

Lemma py_slice_prefix_of_drop_last {A} (r : list A) stop :
  0 <= stop -> (Z.to_nat stop <= length r - 1)%nat ->
  py_slice_to stop (py_slice_to (-1) r) = py_slice_to stop r.
Proof.
  intros Hs Hlen. unfold py_slice_to.
  destruct (Z.leb_spec 0 stop); [| lia].
  change (0 <=? -1) with false. cbv iota.
  change (Z.to_nat (- -1)) with 1%nat.
  rewrite List.firstn_firstn. f_equal. lia.
Qed.

Lemma py_slice_whole_of_drop_last {A} (r : list A) stop :
  0 <= stop -> Z.to_nat stop = (length r - 1)%nat ->
  py_slice_to stop r = py_slice_to (-1) r.
Proof.
  intros Hs Hlen. unfold py_slice_to.
  destruct (Z.leb_spec 0 stop); [| lia].
  change (0 <=? -1) with false. cbv iota.
  change (Z.to_nat (- -1)) with 1%nat.
  f_equal. lia.
Qed.

Lemma step_returns_seq_forward_keys v self input_dict output g d g' :
  prepare_decoder_input v self input_dict output g = (Ok d, g') ->
  Forall (fun k => is_Some (input_dict !! k)) (seq_forward_keys v).
Proof.
  assert (Hprim : forall d0 g1,
    TransformerModel_prepare_decoder_input self input_dict output g
      = (Ok d0, g1) ->
    is_Some (input_dict !! "attn_embs") /\
    is_Some (input_dict !! "attn_emb_lens")).
  { intros d0 g1 H0.
    apply Transformer_step_inv in H0 as (ae & al & _ & _ & -> & -> & _).
    eauto. }
  intros H. destruct v; simpl in H |- *; rewrite !Forall_cons, Forall_nil.
  - destruct (Hprim _ _ H). auto.
  - apply M2Transformer_step_inv in H as (ae & am & _ & _ & -> & -> & _).
    eauto.
  - apply M_bind_ok in H as (d0 & g1 & H0 & _).
    destruct (Hprim _ _ H0). auto.
  - apply M_bind_ok in H as (d0 & g1 & H0 & H).
    apply M_bind_ok in H as (kw & g2 & Hkw & _).
    apply lift_ok in Hkw as [Hkw _]. apply dict_get_ok in Hkw.
    destruct (Hprim _ _ H0). eauto.
Qed.

(** X12.  Teacher forcing step by step agrees with teacher forcing all at
    once.  On captions with rows of length [L], a teacher-forced rollout
    step [t] with [t + 1 <= L - 1] returns as word the first [t + 1]
    columns of the word [seq_forward] hands to the decoder on the same
    batch; at the last such step the two words are equal. *)
Theorem teacher_forced_step_sees_prefix {DS Out} (decoder : dict -> M DS Out)
    v self input_dict output g d g' ds log t p (c : matrix Z) (L : nat) :
  input_dict !! "t" = Some (VInt t) ->
  0 <= t ->
  (Z.to_nat (t + 1) <= L - 1)%nat ->
  input_dict !! "mode" = Some (VStr "train") ->
  input_dict !! "ss_ratio" = Some p ->
  float_ltb (draws g (pos g)) p = Ok true ->
  input_dict !! "caps" = Some (VLong (of_matrix c)) ->
  Forall (fun r => length r = L) c ->
  prepare_decoder_input v self input_dict output g = (Ok d, g') ->
  exists rec W word,
    seq_forward decoder v self input_dict (ds, log)
      = decoder_called decoder rec ds log /\
    rec !! "word" = Some (VLong W) /\
    d !! "word" = Some (VLong word) /\
    slice_cols (t + 1) W = Ok word /\
    (Z.to_nat (t + 1) = (L - 1)%nat -> word = W).
Proof.
  intros Ht Hpos Hstep Hmode Hp Hlt Hcaps Hlen H.
  pose proof (step_returns_seq_forward_keys _ _ _ _ _ _ _ H) as Hkeys.
  destruct (step_word_inv _ _ _ _ _ _ _ _ Ht H) as (word & Hw & Hword & _).
  apply determine_input_word_ok in Hw as (mode & Hmode' & Hrule).
  rewrite Hmode in Hmode'. injection Hmode' as <-.
  cbn [value_eqb_str] in Hrule. rewrite String.eqb_refl in Hrule.
  destruct Hrule as (_ & p' & below & Hp' & Hlt' & Hrule).
  rewrite Hp in Hp'. injection Hp' as <-.
  rewrite Hlt in Hlt'. injection Hlt' as <-.
  destruct Hrule as (caps & Hcaps' & Hslice & _).
  rewrite Hcaps in Hcaps'. injection Hcaps' as <-.
  rewrite slice_cols_of_matrix in Hslice. injection Hslice as <-.
  set (W := of_matrix (List.map (py_slice_to (-1)) c)).
  assert (HW : slice_cols (-1) (of_matrix c) = Ok W).
  { apply slice_cols_of_matrix. }
  assert (Hprefix : slice_cols (t + 1) W
                    = Ok (of_matrix (List.map (py_slice_to (t + 1)) c))).
  { unfold W. rewrite slice_cols_of_matrix, List.map_map. do 2 f_equal.
    apply List.map_ext_in. intros r Hr.
    rewrite Forall_forall in Hlen. apply list_elem_of_In, Hlen in Hr.
    apply py_slice_prefix_of_drop_last; lia. }
  assert (Hlast : Z.to_nat (t + 1) = (L - 1)%nat ->
            of_matrix (List.map (py_slice_to (t + 1)) c) = W).
  { intros Heq. unfold W. f_equal.
    apply List.map_ext_in. intros r Hr.
    rewrite Forall_forall in Hlen. apply list_elem_of_In, Hlen in Hr.
    apply py_slice_whole_of_drop_last; lia. }
  apply dict_get_ok in Hcaps.
  destruct v; simpl in Hkeys |- *; rewrite !Forall_cons in Hkeys.
  - destruct Hkeys as (H1 & H2 & _).
    apply is_Some_dict_get in H1 as (x1 & H1 & _).
    apply is_Some_dict_get in H2 as (x2 & H2 & _).
    rewrite Transformer_seq_forward_run, Hcaps, result_bind_ret.
    cbn [as_long]. rewrite HW, H1, H2.
    eexists _, W, _. split; [reflexivity|]. split; [map_lookup|].
    split; [exact Hword|]. split; [exact Hprefix | exact Hlast].
  - destruct Hkeys as (H1 & H2 & _).
    apply is_Some_dict_get in H1 as (x1 & H1 & _).
    apply is_Some_dict_get in H2 as (x2 & H2 & _).
    rewrite M2Transformer_seq_forward_run, Hcaps, result_bind_ret.
    cbn [as_long]. rewrite HW, H1, H2.
    eexists _, W, _. split; [reflexivity|]. split; [map_lookup|].
    split; [exact Hword|]. split; [exact Hprefix | exact Hlast].
  - destruct Hkeys as (H1 & H2 & _).
    apply is_Some_dict_get in H1 as (x1 & H1 & _).
    apply is_Some_dict_get in H2 as (x2 & H2 & _).
    rewrite Transformer_seq_forward_run, Hcaps, result_bind_ret.
    cbn [as_long]. rewrite HW, H1, H2.
    eexists _, W, _. split; [reflexivity|]. split; [map_lookup|].
    split; [exact Hword|]. split; [exact Hprefix | exact Hlast].
  - destruct Hkeys as (H0 & H1 & H2 & _).
    apply is_Some_dict_get in H0 as (x0 & H0 & _).
    apply is_Some_dict_get in H1 as (x1 & H1 & _).
    apply is_Some_dict_get in H2 as (x2 & H2 & _).
    rewrite KeywordCond_seq_forward_run, Hcaps, result_bind_ret.
    cbn [as_long]. rewrite HW, H0, H1, H2.
    eexists _, W, _. split; [reflexivity|]. split; [map_lookup|].
    split; [exact Hword|]. split; [exact Hprefix | exact Hlast].
Qed.

(** The last teacher-forced step on the sample batch: captions of length
    5, step 3. *)
Lemma teacher_forced_step_sees_prefix_witness :
  exists rec W word,
    seq_forward SampleDecoder.decoder Transformer Sample.self
      (Sample.step_context "train" 3) (0%nat, [])
      = decoder_called SampleDecoder.decoder rec 0%nat [] /\
    rec !! "word" = Some (VLong W) /\
    returned_record
      (prepare_decoder_input Transformer Sample.self
         (Sample.step_context "train" 3) Sample.running_output
         (Sample.gen2 (1#4) (3#4))) !! "word" = Some (VLong word) /\
    slice_cols (3 + 1) W = Ok word /\
    (Z.to_nat (3 + 1) = (5 - 1)%nat -> word = W).
Proof.
  apply (teacher_forced_step_sees_prefix SampleDecoder.decoder Transformer
           Sample.self (Sample.step_context "train" 3) Sample.running_output
           (Sample.gen2 (1#4) (3#4)) _ (next (Sample.gen2 (1#4) (3#4)))
           0%nat [] 3 (VFloat (1#2))
           [[1; 7; 8; 2; 0]; [1; 9; 2; 0; 0]] 5%nat);
    try (vm_compute; reflexivity); try lia.
  repeat apply List.Forall_cons; try apply List.Forall_nil; reflexivity.
Defined.

(** ** The event encoder on arbitrary input *)

Lemma matmul_ok (x E : matrix fval) :
  Forall (fun r => length r = length E) x ->
  matmul x E = Ok (List.map (fun r => row_matmul (length (hd [] E)) r E) x).
Proof.
  intros Hx. unfold matmul.
  assert (Hshape : forallb (fun r => (length r =? length E)%nat) x = true).
  { apply forallb_forall. intros r Hr.
    rewrite Forall_forall in Hx. apply list_elem_of_In, Hx in Hr.
    now apply Nat.eqb_eq. }
  now rewrite Hshape.
Qed.


Lemma matmul_mismatch (x E : matrix fval) r :
  In r x -> length r <> length E -> matmul x E = Err RuntimeError.
Proof.
  intros Hr Hne. unfold matmul.
  destruct (forallb _ x) eqn:Hshape; [| reflexivity].
  rewrite forallb_forall in Hshape. apply Hshape, Nat.eqb_eq in Hr.
  contradiction.
Qed.

Lemma vadd_length (u v : list fval) n :
  length u = n -> length v = n -> length (vadd u v) = n.
Proof.
  intros Hu Hv. unfold vadd. rewrite length_zip_with. lia.
Qed.

Lemma row_matmul_length (D : nat) (r : list fval) (E : matrix fval) :
  Forall (fun e => length e = D) E -> length (row_matmul D r E) = D.
Proof.
  unfold row_matmul. revert E.
  induction r as [|a r IH]; intros E HE.
  - cbn [zip foldr zip_with]. apply length_replicate.
  - destruct E as [|e E]; [apply length_replicate|].
    apply Forall_cons in HE as [He HE].
    cbn [zip zip_with foldr fst snd]. apply vadd_length.
    + unfold vscale. now rewrite length_map.
    + apply IH, HE.
Qed.

Lemma EventEncoder_forward_rows (E x : matrix fval) :
  EventEncoder_forward E (of_matrix x)
  = (embeddings ← matmul (List.map (fun r =>
                            List.map (fun a => fdiv a (fsum r)) r) x) E;
     Ok (of_matrix embeddings)).
Proof.
  unfold EventEncoder_forward.
  rewrite as_matrix_of_matrix, result_bind_ret. cbv zeta.
  now rewrite div_broadcast_rows.
Qed.

Lemma EventEncoder_forward_ok (E x : matrix fval) :
  Forall (fun r => length r = length E) x ->
  EventEncoder_forward E (of_matrix x)
  = Ok (of_matrix (List.map (encoded_row E) x)).
Proof.
  intros Hx. rewrite EventEncoder_forward_rows, matmul_ok.
  - rewrite result_bind_ret, List.map_map. reflexivity.
  - apply Forall_forall. intros p Hp.
    apply list_elem_of_In, in_map_iff in Hp as (r & <- & Hr).
    rewrite Forall_forall in Hx. apply list_elem_of_In, Hx in Hr.
    now rewrite length_map.
Qed.


(** X13.  [EventEncoder.forward] raises nothing on a batch of label rows
    that are as long as the table has rows, whatever the entries are: rows
    that sum to zero and entries that are not finite included.  The output
    has one row per label row, each as wide as the table. *)
Theorem EventEncoder_forward_shape (E x : matrix fval) :
  Forall (fun e => length e = length (hd [] E)) E ->
  Forall (fun r => length r = length E) x ->
  exists out,
    EventEncoder_forward E (of_matrix x) = Ok (of_matrix out) /\
    length out = length x /\
    Forall (fun o => length o = length (hd [] E)) out.
Proof.
  intros HE Hx. exists (List.map (encoded_row E) x).
  split; [now apply EventEncoder_forward_ok|].
  split; [apply length_map|].
  apply Forall_forall. intros o Ho.
  apply list_elem_of_In, in_map_iff in Ho as (r & <- & _).
  unfold encoded_row. now apply row_matmul_length.
Qed.

(** A batch with an all-zero row and a row holding a non-finite entry. *)
Lemma EventEncoder_forward_shape_witness :
  exists out,
    EventEncoder_forward (fin_matrix SampleEvents.table)
      (of_matrix [[Fin 0; Fin 0; Fin 0]; [Fin 1; NonFin; Fin 0]])
      = Ok (of_matrix out) /\
    length out = 2%nat /\
    Forall (fun o => length o = 2%nat) out.
Proof.
  apply (EventEncoder_forward_shape (fin_matrix SampleEvents.table)
           [[Fin 0; Fin 0; Fin 0]; [Fin 1; NonFin; Fin 0]]).
  - repeat apply List.Forall_cons; try apply List.Forall_nil; reflexivity.
  - repeat apply List.Forall_cons; try apply List.Forall_nil; reflexivity.
Defined.

(** X14.  A batch of label rows of a width other than the number of rows
    of the table is refused by the matrix product with a [RuntimeError];
    the division before it raises nothing. *)
Theorem EventEncoder_forward_width_mismatch (E x : matrix fval) (K : nat) :
  x <> [] ->
  Forall (fun r => length r = K) x ->
  K <> length E ->
  EventEncoder_forward E (of_matrix x) = Err RuntimeError.
Proof.
  intros Hne Hx HK. rewrite EventEncoder_forward_rows.
  destruct x as [|r x]; [contradiction|].
  apply Forall_cons in Hx as [Hr _].
  rewrite (matmul_mismatch _ E (List.map (fun a => fdiv a (fsum r)) r)).
  - reflexivity.
  - left. reflexivity.
  - rewrite length_map. congruence.
Qed.

(** Label rows over two classes against a table of three. *)
Lemma EventEncoder_forward_width_mismatch_witness :
  EventEncoder_forward (fin_matrix SampleEvents.table)
    (of_matrix (fin_matrix [[1; 0]; [0; 1]]%Q)) = Err RuntimeError.
Proof.
  apply (EventEncoder_forward_width_mismatch (fin_matrix SampleEvents.table)
           (fin_matrix [[1; 0]; [0; 1]]%Q) 2%nat).
  - discriminate.
  - repeat apply List.Forall_cons; try apply List.Forall_nil; reflexivity.
  - vm_compute. lia.
Defined.

(** X15.  A label vector without a batch dimension is refused: the sum
    over dimension 1 of a non-empty one-dimensional tensor raises an
    [IndexError], whatever the table is. *)
Theorem EventEncoder_forward_unbatched (E : matrix fval) (r : list fval) :
  r <> [] ->
  EventEncoder_forward E (of_row r) = Err IndexError.
Proof.
  intros Hne. destruct r as [|a r]; [contradiction|].
  unfold EventEncoder_forward, as_matrix, of_row.
  cbn [List.map traverse as_row]. reflexivity.
Qed.

Lemma EventEncoder_forward_unbatched_witness :
  EventEncoder_forward (fin_matrix SampleEvents.table)
    (of_row [Fin 1; Fin 0; Fin 1]) = Err IndexError.
Proof.
  apply (EventEncoder_forward_unbatched (fin_matrix SampleEvents.table)
           [Fin 1; Fin 0; Fin 1]).
  discriminate.
Defined.






(** ** Multi-hot labels *)

Lemma multi_hot_sum (present : list bool) (E : matrix Q) :
  length present = length E ->
  (Qsum (multi_hot present)
   == inject_Z (Z.of_nat (length (active_rows present E))))%Q.
Proof.
  unfold multi_hot, active_rows, Qsum. revert E.
  induction present as [|b present IH]; intros [|e E] Hlen;
    try discriminate; [reflexivity|].
  injection Hlen as Hlen. specialize (IH E Hlen).
  cbn [List.map foldr zip zip_with List.filter fst].
  destruct b; cbn [List.map length].
  - rewrite IH, Nat2Z.inj_succ, <- Z.add_1_l, inject_Z_plus. reflexivity.
  - rewrite IH. apply Qplus_0_l.
Qed.

Lemma active_rows_nonempty (present : list bool) (E : matrix Q) :
  length present = length E ->
  existsb id present = true ->
  (0 < length (active_rows present E))%nat.
Proof.
  unfold active_rows. revert E.
  induction present as [|b present IH]; intros [|e E] Hlen Hex;
    try discriminate.
  injection Hlen as Hlen.
  cbn [zip zip_with List.filter fst]. destruct b; cbn [List.map length].
  - lia.
  - apply IH; assumption.
Qed.

Lemma multi_hot_weighted_entry (present : list bool) (E : matrix Q)
    (s : Q) (d : nat) :
  (weighted_entry (List.map (fun a => a / s) (multi_hot present)) E d
   == Qsum (List.map (fun e => nth d e 0) (active_rows present E)) / s)%Q.
Proof.
  unfold weighted_entry, multi_hot, active_rows, Qsum. revert E.
  induction present as [|b present IH]; intros [|e E];
    cbn [List.map zip zip_with foldr List.filter fst];
    try (unfold Qdiv; now rewrite Qmult_0_l).
  specialize (IH E). destruct b; cbn [List.map foldr snd].
  - rewrite IH. unfold Qdiv. ring.
  - rewrite IH. unfold Qdiv. ring.
Qed.

(** In the exact reading of the arithmetic, a multi-hot label row, 1 for
    the classes present and 0 for the others with at least one class
    present, gives the mean of the table rows of the classes present. *)
Lemma multi_hot_forward (E : matrix Q) (present : list bool) :
  Forall (fun e => length e = length (hd [] E)) E ->
  length present = length E ->
  existsb id present = true ->
  exists o,
    EventEncoder_forward (fin_matrix E)
      (of_matrix [fin_row (multi_hot present)])
      = Ok (of_matrix [fin_row o]) /\
    length o = length (hd [] E) /\
    forall d a, o !! d = Some a ->
                (a == column_mean d (active_rows present E))%Q.
Proof.
  intros HE Hlen Hex.
  pose proof (multi_hot_sum present E Hlen) as Hsum.
  pose proof (active_rows_nonempty present E Hlen Hex) as Hpos.
  assert (Hs : (0 < Qsum (multi_hot present))%Q).
  { rewrite Hsum. change 0%Q with (inject_Z 0).
    rewrite <- Zlt_Qlt. lia. }
  exists (weighted_combination (normalise (multi_hot present)) E).
  split; [| split].
  - unfold EventEncoder_forward.
    change (of_matrix [fin_row (multi_hot present)])
      with (of_matrix (fin_matrix [multi_hot present])).
    rewrite as_matrix_of_matrix, result_bind_ret. cbv zeta.
    rewrite div_broadcast_rows. cbn [fin_matrix List.map].
    rewrite (normalise_row_fin _ Hs).
    change [fin_row (normalise (multi_hot present))]
      with (fin_matrix [normalise (multi_hot present)]).
    rewrite matmul_fin; [reflexivity | exact HE |].
    apply List.Forall_cons; [| apply List.Forall_nil].
    unfold normalise, multi_hot. now rewrite !length_map.
  - unfold weighted_combination. now rewrite length_map, length_seq.
  - intros d a Hd. unfold weighted_combination in Hd.
    rewrite list_lookup_fmap in Hd.
    destruct (seq 0 (length (hd [] E)) !! d) as [d'|] eqn:Hseq;
      [| discriminate].
    apply lookup_seq in Hseq as [-> _]. cbn [Nat.add] in Hd.
    injection Hd as <-.
    unfold normalise, column_mean.
    rewrite multi_hot_weighted_entry, Hsum. reflexivity.
Qed.

(** ** One-hot labels *)

Lemma multi_hot_one_hot (k j : nat) :
  multi_hot (replicate k false ++ true :: replicate j false) = one_hot k j.
Proof.
  unfold multi_hot, one_hot. rewrite List.map_app. cbn [List.map].
  f_equal; [| f_equal].
  - induction k as [|k IH]; [reflexivity|]. cbn [replicate List.map].
    now rewrite IH.
  - induction j as [|j IH]; [reflexivity|]. cbn [replicate List.map].
    now rewrite IH.
Qed.

Lemma active_rows_none (j : nat) (E : matrix Q) :
  active_rows (replicate j false) E = [].
Proof.
  unfold active_rows. revert E.
  induction j as [|j IH]; intros [|e E]; try reflexivity.
  cbn [replicate zip zip_with List.filter fst]. apply IH.
Qed.

Lemma active_rows_one_hot (k j : nat) (E : matrix Q) (e : list Q) :
  E !! k = Some e ->
  active_rows (replicate k false ++ true :: replicate j false) E = [e].
Proof.
  revert E. induction k as [|k IH]; intros [|e0 E] He; try discriminate.
  - injection He as ->.
    pose proof (active_rows_none j E) as Hnone. unfold active_rows in *.
    cbn [replicate app zip zip_with List.filter fst List.map snd].
    now rewrite Hnone.
  - cbn [lookup list_lookup] in He. specialize (IH E He).
    unfold active_rows in *.
    cbn [replicate app zip zip_with List.filter fst]. exact IH.
Qed.

Lemma existsb_one_hot (k j : nat) :
  existsb id (replicate k false ++ true :: replicate j false) = true.
Proof.
  induction k as [|k IH]; [reflexivity|].
  cbn [replicate app existsb id orb]. exact IH.
Qed.

(** X22.  On a one-hot label row, 1 for class [k] and 0 for every other
    class, [EventEncoder.forward] returns the embedding of class [k]: row
    [k] of the table, entry by entry (as numbers).  Every operation
    involved, the division by the sum 1, the products with 0 and 1 and the
    sums with 0, is exact in floating point as well. *)
Theorem EventEncoder_forward_one_hot (E : matrix Q) (k j : nat)
    (e : list Q) :
  Forall (fun r => length r = length (hd [] E)) E ->
  length E = (k + 1 + j)%nat ->
  E !! k = Some e ->
  exists o,
    EventEncoder_forward (fin_matrix E) (of_matrix [fin_row (one_hot k j)])
      = Ok (of_matrix [fin_row o]) /\
    Forall2 Qeq o e.
Proof.
  intros HE Hlen He.
  destruct (multi_hot_forward E
              (replicate k false ++ true :: replicate j false) HE)
    as (o & Hrun & Ho & Hmean).
  { rewrite length_app. cbn [length]. rewrite !length_replicate. lia. }
  { apply existsb_one_hot. }
  rewrite multi_hot_one_hot in Hrun.
  exists o. split; [exact Hrun|].
  assert (Hlen_e : length e = length (hd [] E)).
  { rewrite Forall_forall in HE. apply HE.
    now apply list_elem_of_lookup_2 with k. }
  apply Forall2_same_length_lookup_2; [congruence|].
  intros d a b Ha Hb.
  rewrite (Hmean d a Ha), (active_rows_one_hot _ _ _ _ He).
  unfold column_mean, Qsum. cbn [List.map foldr length].
  rewrite (nth_lookup_Some _ _ 0%Q _ Hb).
  change (inject_Z (Z.of_nat 1)) with 1%Q.
  unfold Qdiv. change (/ 1)%Q with 1%Q. ring.
Qed.

(** Class 2 of the sample table: the row [2; 2]. *)
Lemma EventEncoder_forward_one_hot_witness :
  exists o,
    EventEncoder_forward (fin_matrix SampleEvents.table)
      (of_matrix [fin_row [0; 0; 1]%Q]) = Ok (of_matrix [fin_row o]) /\
    Forall2 Qeq o [2; 2]%Q.
Proof.
  apply (EventEncoder_forward_one_hot SampleEvents.table 2 0 [2; 2]%Q).
  - repeat apply List.Forall_cons; try apply List.Forall_nil; reflexivity.
  - reflexivity.
  - reflexivity.
Defined.

(** ** The first step followed by a later step *)

Lemma primary_first_then_later self input_dict s d0 s1 i B t (m : matrix Z) s2 :
  input_dict !! "t" = Some (VInt 0) ->
  input_dict !! "sample_idx" = Some (VInt i) ->
  input_dict !! "beam_size" = Some (VInt B) ->
  t <> 0 ->
  length m = Z.to_nat B ->
  TransformerModel_prepare_beamsearch_decoder_input self input_dict s
    = (Ok d0, s1) ->
  s2 !! "attn_embs" = s1 !! "attn_embs" ->
  s2 !! "attn_emb_lens" = s1 !! "attn_emb_lens" ->
  s2 !! "seqs" = Some (VLong (of_matrix m)) ->
  exists d1,
    TransformerModel_prepare_beamsearch_decoder_input self
      (at_step t input_dict) s2 = (Ok d1, s2) /\
    d1 !! "attn_embs" = d0 !! "attn_embs" /\
    d1 !! "attn_emb_lens" = d0 !! "attn_emb_lens" /\
    d1 !! "word"
      = Some (VLong (of_matrix (List.map (cons (start_idx self)) m))).
Proof.
  intros Ht Hi HB Hne Hlen H Hae Hal Hseqs.
  rewrite (Transformer_beam_first _ _ _ _ _ Ht Hi HB) in H.
  destruct (expand_sample input_dict "attn_embs" i B) as [ae|e];
    [| discriminate].
  destruct (expand_sample input_dict "attn_emb_lens" i B) as [al|e];
    [| discriminate].
  cbv zeta in H.
  destruct (_ ← dict_get input_dict "attn_embs"; value_device _)
    as [dev|e] eqn:Hdev; [| discriminate].
  injection H as <- <-.
  rewrite lookup_insert_ne, lookup_insert_eq in Hae by discriminate.
  rewrite lookup_insert_eq in Hal.
  assert (Ht' : at_step t input_dict !! "t" = Some (VInt t))
    by apply lookup_insert_eq.
  assert (Hi' : at_step t input_dict !! "sample_idx" = Some (VInt i))
    by (unfold at_step; now rewrite lookup_insert_ne by discriminate).
  assert (HB' : at_step t input_dict !! "beam_size" = Some (VInt B))
    by (unfold at_step; now rewrite lookup_insert_ne by discriminate).
  assert (Hdev' : (v ← dict_get (at_step t input_dict) "attn_embs";
                   value_device v) = Ok dev).
  { unfold dict_get, at_step in *.
    now rewrite lookup_insert_ne by discriminate. }
  rewrite (Transformer_beam_later _ _ _ _ _ _ Ht' Hi' HB' Hne).
  rewrite Hae, Hal, Hseqs. cbn [as_long].
  rewrite result_bind_ret, (cat_cols_start_of_matrix _ _ _ Hlen), Hdev'.
  eexists. split; [reflexivity|]. repeat split; map_lookup.
Qed.

Lemma alternative_first_then_later self input_dict s d0 s1 i B t
    (m : matrix Z) :
  input_dict !! "t" = Some (VInt 0) ->
  input_dict !! "sample_idx" = Some (VInt i) ->
  input_dict !! "beam_size" = Some (VInt B) ->
  t <> 0 ->
  length m = Z.to_nat B ->
  M2TransformerModel_prepare_beamsearch_decoder_input self input_dict s
    = (Ok d0, s1) ->
  exists d1,
    M2TransformerModel_prepare_beamsearch_decoder_input self
      (at_step t input_dict) (with_seqs m s1) = (Ok d1, with_seqs m s1) /\
    d1 !! "attn_embs" = d0 !! "attn_embs" /\
    d1 !! "attn_emb_mask" = d0 !! "attn_emb_mask" /\
    d1 !! "word"
      = Some (VLong (of_matrix (List.map (cons (start_idx self)) m))).
Proof.
  intros Ht Hi HB Hne Hlen H.
  rewrite (M2Transformer_beam_first _ _ _ _ _ Ht Hi HB) in H.
  destruct (expand_sample input_dict "attn_embs" i B) as [ae|e];
    [| discriminate].
  destruct (expand_sample input_dict "attn_emb_mask" i B) as [am|e];
    [| discriminate].
  injection H as <- <-.
  assert (Ht' : at_step t input_dict !! "t" = Some (VInt t))
    by apply lookup_insert_eq.
  assert (Hi' : at_step t input_dict !! "sample_idx" = Some (VInt i))
    by (unfold at_step; now rewrite lookup_insert_ne by discriminate).
  assert (HB' : at_step t input_dict !! "beam_size" = Some (VInt B))
    by (unfold at_step; now rewrite lookup_insert_ne by discriminate).
  rewrite (M2Transformer_beam_later _ _ _ _ _ _ Ht' Hi' HB' Hne).
  unfold with_seqs.
  rewrite !lookup_insert_ne, lookup_insert_eq by discriminate.
  rewrite lookup_insert_ne, lookup_insert_eq by discriminate.
  rewrite lookup_insert_eq. cbn [as_long].
  rewrite result_bind_ret, (cat_cols_start_of_matrix _ _ _ Hlen).
  eexists. split; [reflexivity|]. repeat split; map_lookup.
Qed.

(** X19.  The cache protocol of beam search works end to end.  After a
    first step that returned, and once the search has stored in the beam
    state a [seqs] with one row per beam, a step at any later timestep on
    the same batch returns, leaves the beam state unchanged, hands on the
    cached fields of the first step as they were, and its word is the
    start token followed by the whole of [seqs]. *)
Theorem beam_first_then_later_step
    v self input_dict output_i d0 s1 i B t (m : matrix Z) :
  input_dict !! "t" = Some (VInt 0) ->
  input_dict !! "sample_idx" = Some (VInt i) ->
  input_dict !! "beam_size" = Some (VInt B) ->
  t <> 0 ->
  length m = Z.to_nat B ->
  prepare_beamsearch_decoder_input v self input_dict output_i
    = (Ok d0, s1) ->
  exists d1,
    prepare_beamsearch_decoder_input v self (at_step t input_dict)
      (with_seqs m s1) = (Ok d1, with_seqs m s1) /\
    Forall (fun k => d1 !! k = d0 !! k) (cached_fields v) /\
    d1 !! "word"
      = Some (VLong (of_matrix (List.map (cons (start_idx self)) m))).
Proof.
  intros Ht Hi HB Hne Hlen H.
  assert (Ht' : at_step t input_dict !! "t" = Some (VInt t))
    by apply lookup_insert_eq.
  assert (Hi' : at_step t input_dict !! "sample_idx" = Some (VInt i))
    by (unfold at_step; now rewrite lookup_insert_ne by discriminate).
  assert (HB' : at_step t input_dict !! "beam_size" = Some (VInt B))
    by (unfold at_step; now rewrite lookup_insert_ne by discriminate).
  destruct v; simpl in H |- *.
  - destruct (primary_first_then_later _ _ _ _ _ _ _ _ m (with_seqs m s1)
                Ht Hi HB Hne Hlen H) as (d1 & Hrun & H1 & H2 & Hw);
      try (unfold with_seqs; now rewrite lookup_insert_ne by discriminate);
      try apply lookup_insert_eq.
    exists d1. split; [exact Hrun|]. split; [| exact Hw].
    rewrite !Forall_cons, Forall_nil. auto.
  - destruct (alternative_first_then_later _ _ _ _ _ _ _ _ m
                Ht Hi HB Hne Hlen H) as (d1 & Hrun & H1 & H2 & Hw).
    exists d1. split; [exact Hrun|]. split; [| exact Hw].
    rewrite !Forall_cons, Forall_nil. auto.
  - rewrite (EventCond_beam_first _ _ _ _ _ Ht Hi HB) in H.
    destruct (TransformerModel_prepare_beamsearch_decoder_input
                self input_dict output_i) as [[d0p|e] s1p] eqn:Hp;
      [| discriminate].
    destruct (expand_events self input_dict i B) as [ev|e]; [| discriminate].
    injection H as <- <-.
    destruct (primary_first_then_later _ _ _ _ _ _ _ _ m
                (with_seqs m (<["events" := ev]> s1p))
                Ht Hi HB Hne Hlen Hp) as (d1 & Hrun & H1 & H2 & Hw);
      try (unfold with_seqs; now rewrite !lookup_insert_ne by discriminate);
      try apply lookup_insert_eq.
    rewrite (EventCond_beam_later _ _ _ _ _ _ Ht' Hi' HB' Hne), Hrun.
    unfold with_seqs at 1.
    rewrite lookup_insert_ne, lookup_insert_eq by discriminate.
    eexists. split; [reflexivity|].
    rewrite !Forall_cons, Forall_nil.
    rewrite !lookup_insert_eq, !lookup_insert_ne by discriminate. auto.
  - rewrite (KeywordCond_beam_first _ _ _ _ _ Ht Hi HB) in H.
    destruct (TransformerModel_prepare_beamsearch_decoder_input
                self input_dict output_i) as [[d0p|e] s1p] eqn:Hp;
      [| discriminate].
    destruct (expand_sample input_dict "keywords" i B) as [kw|e];
      [| discriminate].
    injection H as <- <-.
    destruct (primary_first_then_later _ _ _ _ _ _ _ _ m
                (with_seqs m (<["keywords" := kw]> s1p))
                Ht Hi HB Hne Hlen Hp) as (d1 & Hrun & H1 & H2 & Hw);
      try (unfold with_seqs; now rewrite !lookup_insert_ne by discriminate);
      try apply lookup_insert_eq.
    rewrite (KeywordCond_beam_later _ _ _ _ _ _ Ht' Hi' HB' Hne), Hrun.
    unfold with_seqs at 1.
    rewrite lookup_insert_ne, lookup_insert_eq by discriminate.
    eexists. split; [reflexivity|].
    rewrite !Forall_cons, Forall_nil.
    rewrite !lookup_insert_eq, !lookup_insert_ne by discriminate. auto.
Qed.

(** The event-conditioned variant on the sample batch: the first step on
    an empty beam state, then step 2 with two beams of two tokens. *)
Lemma beam_first_then_later_step_witness :
  exists d1,
    prepare_beamsearch_decoder_input EventCondTransformer Sample.self
      (at_step 2 (Sample.beam_context 0))
      (with_seqs [[5; 6]; [3; 4]]
         (prepare_beamsearch_decoder_input EventCondTransformer Sample.self
            (Sample.beam_context 0) ∅).2)
    = (Ok d1,
       with_seqs [[5; 6]; [3; 4]]
         (prepare_beamsearch_decoder_input EventCondTransformer Sample.self
            (Sample.beam_context 0) ∅).2) /\
    Forall (fun k =>
              d1 !! k
              = returned_record
                  (prepare_beamsearch_decoder_input EventCondTransformer
                     Sample.self (Sample.beam_context 0) ∅) !! k)
           (cached_fields EventCondTransformer) /\
    d1 !! "word" = Some (VLong (of_matrix [[1; 5; 6]; [1; 3; 4]])).
Proof.
  apply (beam_first_then_later_step EventCondTransformer Sample.self
           (Sample.beam_context 0) ∅ _ _ 0 2 2 [[5; 6]; [3; 4]]);
    try (vm_compute; reflexivity); try discriminate.
Defined.

(** ** More on construction *)

Section ConstructionExtras.
Import Construction.
Variables base_train_forward_keys base_inference_forward_keys : list string.

Lemma default_compatible_decoders_set c self c0 :
  compatible_decoders self = Some c0 ->
  default_compatible_decoders c self = (Ok tt, self).
Proof. unfold default_compatible_decoders. now intros ->. Qed.

Lemma CaptionModel_init_compatible_decoders enc dec self :
  compatible_decoders
    (CaptionModel_init base_train_forward_keys base_inference_forward_keys
       enc dec self).2
  = compatible_decoders self.
Proof.
  unfold CaptionModel_init.
  destruct (compatible_decoders self) as [c|]; [| reflexivity].
  destruct (isinstance dec c); reflexivity.
Qed.

Lemma TransformerModel_init_preset enc dec self c :
  compatible_decoders self = Some c ->
  compatible_decoders
    (TransformerModel_init base_train_forward_keys
       base_inference_forward_keys enc dec self).2 = Some c.
Proof.
  intros H. unfold TransformerModel_init.
  rewrite M_bind_unfold, (default_compatible_decoders_set _ _ _ H).
  now rewrite CaptionModel_init_compatible_decoders.
Qed.

(** X20.  The constructors assign [compatible_decoders] only when the
    object has none ([hasattr]): on an object that already carries a value,
    as an instance of a subclass that declares its own does, every
    constructor leaves that value in place, whether it returns or
    raises. *)
Theorem init_keeps_declared_decoders v enc dec self c :
  compatible_decoders self = Some c ->
  compatible_decoders
    (init base_train_forward_keys base_inference_forward_keys
       v enc dec self).2 = Some c.
Proof.
  intros H. destruct v; cbn [init].
  - now apply TransformerModel_init_preset.
  - unfold M2TransformerModel_init.
    rewrite M_bind_unfold, (default_compatible_decoders_set _ _ _ H).
    rewrite M_bind_unfold.
    pose proof (CaptionModel_init_compatible_decoders enc dec self) as Hc.
    destruct (CaptionModel_init _ _ enc dec self) as [[u|e] s1];
      cbn [snd] in Hc |- *; [| congruence].
    unfold check_encoder_compatibility.
    destruct (encoder s1) as [enc'|]; [| cbn [snd]; congruence].
    destruct (isinstance enc' _); cbn [snd]; congruence.
  - unfold EventCondTransformerModel_init.
    rewrite M_bind_unfold, (default_compatible_decoders_set _ _ _ H).
    rewrite M_bind_unfold.
    pose proof (TransformerModel_init_preset enc dec self c H) as Hc.
    destruct (TransformerModel_init _ _ enc dec self) as [[u|e] s1];
      cbn [snd] in Hc |- *; [| exact Hc].
    rewrite M_bind_unfold. unfold make_label_encoder, append_forward_keys.
    destruct (emb_dim dec); cbn [snd compatible_decoders]; exact Hc.
  - unfold KeywordCondTransformerModel_init.
    rewrite M_bind_unfold, (default_compatible_decoders_set _ _ _ H).
    rewrite M_bind_unfold.
    pose proof (TransformerModel_init_preset enc dec self c H) as Hc.
    destruct (TransformerModel_init _ _ enc dec self) as [[u|e] s1];
      cbn [snd] in Hc |- *; [| exact Hc].
    unfold append_forward_keys. cbn [snd compatible_decoders]. exact Hc.
Qed.

(** X21.  A constructed model lists the conditioning entry of its variant
    among its forward keys: the event- and the keyword-conditioned variant
    append [events] and [keywords] to the training and the inference keys
    of the base class, the other two variants add nothing.  Only the
    event-conditioned variant owns a label encoder, with a table of 527
    rows and as many columns as the embedding dimension of the decoder. *)
Theorem construction_registers_conditioning_key v enc dec self :
  construct base_train_forward_keys base_inference_forward_keys v enc dec
    = Ok self ->
  train_forward_keys self
    = (base_train_forward_keys ++ option_list (conditioning_key v))%list /\
  inference_forward_keys self
    = (base_inference_forward_keys ++ option_list (conditioning_key v))%list /\
  match v with
  | EventCondTransformer =>
      exists d, emb_dim dec = Some d /\
                label_encoder_shape self = Some (527, d)
  | _ => label_encoder_shape self = None
  end.
Proof.
  intros H. unfold construct in H.
  destruct (init _ _ v enc dec new_instance) as [[u|e] s] eqn:E;
    [| discriminate].
  inversion H; subst s. clear H.
  destruct v; cbn [init] in E; cbn [conditioning_key option_list].
  - unfold TransformerModel_init in E.
    rewrite M_bind_unfold, default_compatible_decoders_new in E.
    unfold CaptionModel_init in E.
    cbn [compatible_decoders set_compatible_decoders] in E.
    destruct (isinstance dec _); inversion E.
    cbn [train_forward_keys inference_forward_keys label_encoder_shape
         new_instance].
    now rewrite !app_nil_r.
  - unfold M2TransformerModel_init in E.
    rewrite M_bind_unfold, default_compatible_decoders_new in E.
    rewrite M_bind_unfold in E.
    unfold CaptionModel_init, check_encoder_compatibility in E.
    cbn [compatible_decoders set_compatible_decoders encoder] in E.
    destruct (isinstance dec _); [| discriminate].
    cbn [encoder] in E.
    destruct (isinstance enc _); inversion E.
    cbn [train_forward_keys inference_forward_keys label_encoder_shape
         new_instance].
    now rewrite !app_nil_r.
  - unfold EventCondTransformerModel_init, TransformerModel_init in E.
    rewrite M_bind_unfold, default_compatible_decoders_new in E.
    rewrite !M_bind_unfold in E.
    unfold default_compatible_decoders, CaptionModel_init,
      make_label_encoder, append_forward_keys in E.
    cbn [compatible_decoders set_compatible_decoders] in E.
    destruct (isinstance dec _); [| discriminate].
    destruct (emb_dim dec) as [d|]; inversion E.
    cbn [train_forward_keys inference_forward_keys label_encoder_shape].
    eauto.
  - unfold KeywordCondTransformerModel_init, TransformerModel_init in E.
    rewrite M_bind_unfold, default_compatible_decoders_new in E.
    rewrite !M_bind_unfold in E.
    unfold default_compatible_decoders, CaptionModel_init,
      append_forward_keys in E.
    cbn [compatible_decoders set_compatible_decoders] in E.
    destruct (isinstance dec _); inversion E.
    cbn [train_forward_keys inference_forward_keys label_encoder_shape
         new_instance].
    auto.
Qed.
End ConstructionExtras.

(** An object that already declares a decoder class of its own, handed to
    the constructor of the primary variant with a decoder of another
    class: the constructor raises and the declaration stays. *)
Lemma init_keeps_declared_decoders_witness :
  Construction.compatible_decoders
    (Construction.init SampleObjects.base_keys
       SampleObjects.base_inference_keys Transformer
       SampleObjects.m2_encoder SampleObjects.m2_decoder
       (Construction.set_compatible_decoders
          (Construction.PClass "OwnDecoder") Construction.new_instance)).2
  = Some (Construction.PClass "OwnDecoder").
Proof.
  apply (init_keeps_declared_decoders SampleObjects.base_keys
           SampleObjects.base_inference_keys Transformer
           SampleObjects.m2_encoder SampleObjects.m2_decoder
           (Construction.set_compatible_decoders
              (Construction.PClass "OwnDecoder") Construction.new_instance)
           (Construction.PClass "OwnDecoder")).
  reflexivity.
Defined.

(** The event-conditioned variant built on the sample decoder. *)
Lemma construction_registers_conditioning_key_witness :
  exists self,
    Construction.construct SampleObjects.base_keys
      SampleObjects.base_inference_keys EventCondTransformer
      SampleObjects.m2_encoder SampleObjects.event_decoder = Ok self /\
    Construction.train_forward_keys self
      = ["caps"; "cap_lens"; "ss_ratio"; "events"] /\
    Construction.inference_forward_keys self
      = ["sample_method"; "max_length"; "temp"; "events"] /\
    Construction.label_encoder_shape self = Some (527, 256).
Proof.
  destruct (Construction.construct SampleObjects.base_keys
              SampleObjects.base_inference_keys EventCondTransformer
              SampleObjects.m2_encoder SampleObjects.event_decoder)
    as [self|e] eqn:E; [| vm_compute in E; discriminate E].
  exists self. split; [reflexivity|].
  destruct (construction_registers_conditioning_key _ _ _ _ _ _ E)
    as (H1 & H2 & d & Hd & H3).
  injection Hd as <-. repeat split; assumption.
Defined.
